(** * PricePilot: the GitHub-backed entity store of src/api/githubDbClient.js

    A shallow embedding of the storage layer (getStorage, setStorage), of the
    entity client built on it (list, filter, get, create, update, delete,
    toggleLike, toggleDislike), of uploadFile and of the text encoding of the
    blobs (btoa/atob with the UTF-8 steps around them), followed by the
    properties of the specification that concern them and by further
    properties of the code. *)

From Stdlib Require Import ZArith String Ascii List Lia Permutation.
From stdpp Require Import base list strings gmap pretty.

Local Open Scope string_scope.
Local Open Scope list_scope.
Set Warnings "-register-all".

(** ** JSON values

    The collections are JSON texts, so the values of the model are the JSON
    values.  Numbers are the integers, and a string is a sequence of
    characters.  The integers that a JS number holds exactly, and that
    [String] prints digit by digit, are those of [Number.isSafeInteger]
    ([exact] below tells them); larger ones and fractions are outside the
    model.  [undefined] is not a JSON value: an expression that may be
    undefined has type [option value], and a property whose value would be
    undefined is left out of its object (reading it gives undefined either
    way, and JSON.stringify writes neither). *)

Inductive value : Type :=
| VNull
| VBool (b : bool)
| VNum (n : Z)
| VStr (s : string)
| VArr (elems : list value)
| VObj (props : list (string * value)).

(** A JS object: its own properties in insertion order. *)
Abbreviation record := (list (string * value)).

(** [o[k]] for the object's own properties.  What an object parsed from
    JSON inherits from [Object.prototype] is outside the model: for a key
    of [Object_prototype_keys] that the object does not have itself, JS
    does not give undefined. *)
Fixpoint prop (o : record) (k : string) : option value :=
  match o with
  | [] => None
  | (k', v) :: o' => if String.eqb k' k then Some v else prop o' k
  end.

(** The property names of [Object.prototype]. *)
Definition Object_prototype_keys : list string :=
  ["constructor"; "hasOwnProperty"; "isPrototypeOf"; "propertyIsEnumerable";
   "toLocaleString"; "toString"; "valueOf"; "__proto__"; "__defineGetter__";
   "__defineSetter__"; "__lookupGetter__"; "__lookupSetter__"].

(** [o[k] = v]: an existing property keeps its place, a new one goes last. *)
Fixpoint set_prop (k : string) (v : value) (o : record) : record :=
  match o with
  | [] => [(k, v)]
  | (k', v') :: o' =>
      if String.eqb k' k then (k', v) :: o' else (k', v') :: set_prop k v o'
  end.

(** [{ ...base, ...more }] *)
Definition spread (base more : record) : record :=
  fold_left (fun acc kv => set_prop (fst kv) (snd kv) acc) more base.

(** [{ k1: e1, ..., kn: en }] where an [ei] may be undefined. *)
Definition literal (fields : list (string * option value)) : record :=
  fold_left
    (fun acc kv => match snd kv with
                   | Some v => set_prop (fst kv) v acc
                   | None => acc
                   end)
    fields [].

(** [Object.keys(o)] *)
Definition keys (o : record) : list string := map fst o.

(** Truthiness of an expression, as [if (e)], [!e] and [e || d] test it. *)
Definition truthy (e : option value) : bool :=
  match e with
  | None => false
  | Some VNull => false
  | Some (VBool b) => b
  | Some (VNum n) => negb (n =? 0)%Z
  | Some (VStr s) => negb (String.eqb s "")
  | Some (VArr _) => true
  | Some (VObj _) => true
  end.

(** [e || d] with [d] defined. *)
Definition or_else (e : option value) (d : value) : value :=
  match e with
  | Some v => if truthy e then v else d
  | None => d
  end.

(** [String(v)]: an array joins its elements with commas, null elements as
    the empty string; an object is "[object Object]". *)
Fixpoint to_String (v : value) : string :=
  match v with
  | VNull => "null"
  | VBool true => "true"
  | VBool false => "false"
  | VNum n => pretty n
  | VStr s => s
  | VArr l =>
      String.concat ","
        (map (fun e => match e with VNull => "" | _ => to_String e end) l)
  | VObj _ => "[object Object]"
  end.

(** [String(e)] for an expression that may be undefined. *)
Definition String_of (e : option value) : string :=
  match e with
  | None => "undefined"
  | Some v => to_String v
  end.

(** [Number.isSafeInteger(n)] for every number inside [v]: the numbers that
    JSON.parse reads without rounding and [String] prints in full. *)
Fixpoint exact (v : value) : bool :=
  match v with
  | VNum n => (Z.abs n <=? 9007199254740991)%Z
  | VArr l => forallb exact l
  | VObj o => forallb (fun kv => exact (snd kv)) o
  | _ => true
  end.

(** [a === b] between a value parsed from a blob and a value the caller
    passed: primitives compare by value, and an array or an object is never
    the same reference on both sides. *)
Definition strict_eq (a b : value) : bool :=
  match a, b with
  | VNull, VNull => true
  | VBool x, VBool y => Bool.eqb x y
  | VNum x, VNum y => (x =? y)%Z
  | VStr x, VStr y => String.eqb x y
  | _, _ => false
  end.

(** [l.indexOf(x)], with [None] for -1. *)
Fixpoint indexOf (l : list value) (x : value) : option nat :=
  match l with
  | [] => None
  | y :: l' => if strict_eq y x then Some 0 else S <$> indexOf l' x
  end.

(** [l.splice(i, 1)] *)
Definition splice1 (i : nat) (l : list value) : list value :=
  take i l ++ drop (S i) l.

(** *** JSON.stringify *)

Definition hex_digit (n : nat) : ascii :=
  nth n (list_ascii_of_string "0123456789abcdef") "0"%char.

(** One character of a JSON string literal. *)
Definition escape_char (c : ascii) : string :=
  let n := nat_of_ascii c in
  if Nat.eqb n 34 then String "\" (String c "")
  else if Nat.eqb n 92 then "\\"
  else if Nat.eqb n 8 then "\b"
  else if Nat.eqb n 12 then "\f"
  else if Nat.eqb n 10 then "\n"
  else if Nat.eqb n 13 then "\r"
  else if Nat.eqb n 9 then "\t"
  else if Nat.ltb n 32
       then "\u00" +:+ String (hex_digit (n / 16)) (String (hex_digit (n mod 16)) "")
  else String c "".

Definition dquote : string := String "034"%char "".

Definition quote (s : string) : string :=
  dquote +:+ String.concat "" (map escape_char (list_ascii_of_string s)) +:+ dquote.

(** [JSON.stringify(v)] without indentation. *)
Fixpoint stringify (v : value) : string :=
  match v with
  | VNull => "null"
  | VBool true => "true"
  | VBool false => "false"
  | VNum n => pretty n
  | VStr s => quote s
  | VArr l => "[" +:+ String.concat "," (map stringify l) +:+ "]"
  | VObj o =>
      "{" +:+ String.concat ","
                (map (fun kv => quote (fst kv) +:+ ":" +:+ stringify (snd kv)) o)
          +:+ "}"
  end.

(** [JSON.stringify(e)]: undefined gives undefined. *)
Definition JSON_stringify (e : option value) : option string :=
  stringify <$> e.

(** ** The stores

    A blob is kept as the document its text denotes, which is all that
    getStorage looks at after [JSON.parse]: no JSON at all (also the empty or
    undecodable text), [null], another value than an array, or an array; the
    elements of an array are objects, the records of the data model (an
    array with another element, such as [null], is outside the model).  The
    base64 transport of the text is the subject of the codec further down. *)

Inductive document : Type :=
| NotJson
| JsonNull
| JsonScalar
| JsonObject (o : record)
| JsonArray (items : list record).

(** Modelled from the spec: the remote blob repository behind octokit
    (sections 4.1 and 6), which is not part of the sources.  Every blob has a
    revision token, here the number of writes the blob has seen; a write
    carries the token the writer last saw and is refused with a conflict
    unless it is the blob's current one. *)
Record blob : Type := Blob { content : document; sha : nat }.

Record remote : Type := Remote {
  files : gmap string blob;
  commits : list (string * string)   (* path and message of each accepted write *)
}.

(** One browser session: whether [octokit && GITHUB_OWNER && GITHUB_REPO]
    holds, the module's [shaCache], the browser's [localStorage], and the
    fate of the session's next requests in order ([false]: the request
    fails without an HTTP status; past the end every request is delivered). *)
Record client : Type := Client {
  github : bool;
  shaCache : gmap string nat;
  localStorage : gmap string document;
  network : list bool
}.

Record world : Type := World { here : client; there : remote }.

Inductive failure : Type :=
| Status404
| Status409
| Unreachable.

Inductive response (A : Type) : Type :=
| Ok (a : A)
| Err (e : failure).
Arguments Ok {A} a.
Arguments Err {A} e.

Definition delivered (c : client) : bool :=
  match network c with
  | false :: _ => false
  | _ => true
  end.

Definition next_request (c : client) : client :=
  Client (github c) (shaCache c) (localStorage c) (tail (network c)).

(** Modelled from the spec: [octokit.rest.repos.getContent]. *)
Definition getContent (path : string) (w : world) : response blob * world :=
  let w' := World (next_request (here w)) (there w) in
  if delivered (here w) then
    match files (there w) !! path with
    | Some b => (Ok b, w')
    | None => (Err Status404, w')
    end
  else (Err Unreachable, w').

Definition token_matches (current : option blob) (token : option nat) : bool :=
  match current, token with
  | None, None => true
  | Some b, Some s => Nat.eqb (sha b) s
  | _, _ => false
  end.

Definition next_sha (current : option blob) : nat :=
  match current with
  | None => 0
  | Some b => S (sha b)
  end.

(** Modelled from the spec: [octokit.rest.repos.createOrUpdateFileContents],
    the compare-and-swap on the revision token; it answers the new token. *)
Definition createOrUpdateFileContents
    (path message : string) (text : document) (token : option nat) (w : world)
  : response nat * world :=
  let c' := next_request (here w) in
  if delivered (here w) then
    let current := files (there w) !! path in
    if token_matches current token then
      let s := next_sha current in
      (Ok s,
       World c' (Remote (<[path := Blob text s]> (files (there w)))
                        (commits (there w) ++ [(path, message)])))
    else (Err Status409, World c' (there w))
  else (Err Unreachable, World c' (there w)).

(** *** Computations

    An async function of the source is a function of the world that
    completes normally or throws, and leaves a world behind either way. *)

Inductive exn : Type := TypeError.

Inductive completion (A : Type) : Type :=
| Normal (a : A)
| Throw (e : exn).
Arguments Normal {A} a.
Arguments Throw {A} e.

Definition M (A : Type) : Type := world -> completion A * world.

Definition ret {A} (a : A) : M A := fun w => (Normal a, w).

Definition bind {A B} (m : M A) (k : A -> M B) : M B :=
  fun w =>
    match m w with
    | (Normal a, w') => k a w'
    | (Throw e, w') => (Throw e, w')
    end.

(** Synchronous code that may throw, run inside an async function. *)
Definition lift {A} (c : completion A) : M A := fun w => (c, w).

Notation "'let*' x := m 'in' k" := (bind m (fun x => k))
  (at level 10, x name, m at level 100, k at level 200).
Notation "'do' m 'then' k" := (bind m (fun _ => k))
  (at level 10, m at level 100, k at level 200).

(** *** getStorage and setStorage *)

Definition blob_path (entityName : string) : string :=
  "data/" +:+ entityName +:+ ".json".

Definition local_key (entityName : string) : string :=
  "pricepilot_db_data/" +:+ entityName +:+ ".json".

(** [validateData] *)
Definition validateData (data : document) : list record :=
  match data with
  | JsonArray items => items
  | _ => []
  end.

(** [text ? JSON.parse(text) : []] inside a try whose handler leaves []. *)
Definition parse_or_empty (text : option document) : document :=
  match text with
  | None => JsonArray []
  | Some NotJson => JsonArray []
  | Some d => d
  end.

Definition cache_sha (entityName : string) (s : nat) (w : world) : world :=
  World (Client (github (here w)) (<[entityName := s]> (shaCache (here w)))
                (localStorage (here w)) (network (here w)))
        (there w).

Definition local_read (entityName : string) (w : world) : document :=
  parse_or_empty (localStorage (here w) !! local_key entityName).

Definition getStorage (entityName : string) : M (list record) := fun w =>
  let '(data, w1) :=
    if github (here w) then
      match getContent (blob_path entityName) w with
      | (Ok b, w1) =>
          (parse_or_empty (Some (content b)), cache_sha entityName (sha b) w1)
      | (Err Status404, w1) => (JsonArray [], w1)
      | (Err _, w1) => (local_read entityName w1, w1)
      end
    else (local_read entityName w, w) in
  (* [data.length] is read before validateData looks at [data] *)
  match data with
  | JsonNull => (Throw TypeError, w1)
  | _ => (Normal (validateData data), w1)
  end.

(** [localStorage.setItem(key, jsonString)] *)
Definition local_write (entityName : string) (data : list record) (w : world) : world :=
  World (Client (github (here w)) (shaCache (here w))
                (<[local_key entityName := JsonArray data]> (localStorage (here w)))
                (network (here w)))
        (there w).

(** [message || `Update ${entityName}`] *)
Definition commit_message (entityName message : string) : string :=
  if String.eqb message "" then "Update " +:+ entityName else message.

Definition put (entityName : string) (data : list record) (message : string)
    (w : world) : response nat * world :=
  createOrUpdateFileContents (blob_path entityName)
    (commit_message entityName message) (JsonArray data)
    (shaCache (here w) !! entityName) w.

Definition setStorage (entityName : string) (data : list record) (message : string)
  : M unit := fun w =>
  let validatedData := validateData (JsonArray data) in
  if github (here w) then
    match put entityName validatedData message w with
    | (Ok s, w1) => (Normal tt, cache_sha entityName s w1)
    | (Err Status409, w1) =>
        (* fetch the current file for its sha, then send the same text again *)
        match getContent (blob_path entityName) w1 with
        | (Ok current, w2) =>
            let w3 := cache_sha entityName (sha current) w2 in
            match put entityName validatedData message w3 with
            | (Ok s, w4) => (Normal tt, cache_sha entityName s w4)
            | (Err _, w4) => (Normal tt, local_write entityName validatedData w4)
            end
        | (Err _, w2) => (Normal tt, local_write entityName validatedData w2)
        end
    | (Err _, w1) => (Normal tt, local_write entityName validatedData w1)
    end
  else (Normal tt, local_write entityName validatedData w).

(** ** The entity client *)

(** [getCurrentUser]: the session identity kept under 'pricepilot_user'. *)
Record user : Type := User { uid : value; uname : value }.

Definition anonymous : user := User (VStr "anonymous") (VStr "Anonymous").

Definition getCurrentUser (c : client) : user :=
  match localStorage c !! "pricepilot_user" with
  | Some (JsonObject u) =>
      User (or_else (prop u "id") (VStr "anonymous"))
           (or_else (prop u "full_name")
                    (or_else (prop u "name") (VStr "Anonymous")))
  | _ => anonymous
  end.

Definition current_user : M user := fun w => (Normal (getCurrentUser (here w)), w).

Definition PRIVATE_ENTITIES : list string := ["ShoppingList"].

Definition SHARED_ENTITIES : list string := ["Product"; "PriceEntry"; "Store"; "User"].

(** [l.includes(x)] on strings *)
Definition includes (l : list string) (x : string) : bool :=
  existsb (String.eqb x) l.

(** [item => String(item[k]) === String(v)] *)
Definition string_equal (k : string) (v : value) (item : record) : bool :=
  String.eqb (String_of (prop item k)) (to_String v).

(** [items.findIndex(p)] together with [items[index]]; [None] for -1. *)
Fixpoint findIndex (p : record -> bool) (items : list record) : option (nat * record) :=
  match items with
  | [] => None
  | item :: rest =>
      if p item then Some (0, item)
      else match findIndex p rest with
           | Some (i, found) => Some (S i, found)
           | None => None
           end
  end.

(** [Math.random().toString(36).substr(2, 9)], given the text that
    [Math.random().toString(36)] produced. *)
Definition random_id (random36 : string) : string := substring 2 9 random36.

(** The object literal of [create]. *)
Definition new_item (data : record) (id : string) (created updated : string)
    (finalUserId finalUserName : value) : record :=
  spread data
    [("id", VStr id);
     ("created_date", VStr created);
     ("created_by", finalUserId);
     ("created_by_name", finalUserName);
     ("updated_date", VStr updated);
     ("updated_by", finalUserId);
     ("updated_by_name", finalUserName);
     ("likes", VArr []);
     ("dislikes", VArr []);
     ("edit_history", VArr [])].

(** The test of [update] on a key of the payload. *)
Definition changed (oldItem data : record) (key : string) : bool :=
  negb (String.eqb key "edit_history")
  && bool_decide (JSON_stringify (prop oldItem key) <> JSON_stringify (prop data key)).

(** [{ field: key, old: oldItem[key], new: data[key] }] *)
Definition change (oldItem data : record) (key : string) : value :=
  VObj (literal [("field", Some (VStr key));
                 ("old", prop oldItem key);
                 ("new", prop data key)]).

(** The [changes] array that the [forEach] over [Object.keys(data)] fills. *)
Definition changes_of (oldItem data : record) : list value :=
  map (change oldItem data) (List.filter (changed oldItem data) (keys data)).

(** [[...e]]: the elements of an array, the characters of a string, a
    TypeError for what is not iterable. *)
Definition elements_of (e : value) : completion (list value) :=
  match e with
  | VArr l => Normal l
  | VStr s => Normal (map (fun c => VStr (String c "")) (list_ascii_of_string s))
  | _ => Throw TypeError
  end.

(** The object literal of [update], given the elements of the old history. *)
Definition updated_item (oldItem data : record) (history : list value)
    (stamp_entry stamp_item : string) (currentUserId currentUserName : value) : record :=
  let historyEntry :=
    VObj (literal [("timestamp", Some (VStr stamp_entry));
                   ("user_id", Some currentUserId);
                   ("user_name", Some currentUserName);
                   ("changes", Some (VArr (changes_of oldItem data)))]) in
  spread (spread oldItem data)
    [("updated_date", VStr stamp_item);
     ("updated_by", currentUserId);
     ("updated_by_name", currentUserName);
     ("edit_history", VArr (history ++ [historyEntry]))].

(** [if (!item[k]) item[k] = []] *)
Definition ensure_array (k : string) (item : record) : record :=
  if truthy (prop item k) then item else set_prop k (VArr []) item.

(** The body the two toggles share, [mine] being the array the function is
    named after and [other] the opposite one:
<<
      const i = item[mine].indexOf(userId);
      if (i !== -1) { item[mine].splice(i, 1); }
      else {
        item[mine].push(userId);
        const j = item[other].indexOf(userId);
        if (j !== -1) item[other].splice(j, 1);
      }
>>
    A value that is no array has no [push] and no [splice], and only a
    string has an [indexOf] (the position of [String(userId)] in it). *)
Definition toggle (mine other : string) (userId : value) (item : record)
  : completion record :=
  match prop item mine with
  | Some (VArr own) =>
      match indexOf own userId with
      | Some i => Normal (set_prop mine (VArr (splice1 i own)) item)
      | None =>
          let pushed := set_prop mine (VArr (own ++ [userId])) item in
          match prop pushed other with
          | Some (VArr opposite) =>
              match indexOf opposite userId with
              | Some j => Normal (set_prop other (VArr (splice1 j opposite)) pushed)
              | None => Normal pushed
              end
          | Some (VStr s) =>
              match String.index 0 (to_String userId) s with
              | Some _ => Throw TypeError
              | None => Normal pushed
              end
          | _ => Throw TypeError
          end
      end
  | _ => Throw TypeError
  end.

(** [items.sort(cmp)]: the sort is stable; with a comparator that is no
    consistent order the engines may differ, and every result is a
    permutation of the array. *)
Fixpoint insert_sorted (cmp : record -> record -> Z) (x : record) (l : list record)
  : list record :=
  match l with
  | [] => [x]
  | y :: l' => if (cmp x y <=? 0)%Z then x :: y :: l' else y :: insert_sorted cmp x l'
  end.

Definition sort_with (cmp : record -> record -> Z) (l : list record) : list record :=
  foldr (insert_sorted cmp) [] l.

(** [items.slice(0, limit)] *)
Definition slice_to (limit : Z) (items : list record) : list record :=
  if (0 <=? limit)%Z then take (Z.to_nat limit) items
  else take (length items - Z.to_nat (- limit)) items.

(** The comparator of [list]; [js_lt] stands for the engine's [<] on two
    property values, which the model leaves open. *)
Definition compare_by (js_lt : option value -> option value -> bool)
    (field : string) (isDesc : bool) (a b : record) : Z :=
  if js_lt (prop a field) (prop b field) then (if isDesc then 1 else -1)%Z
  else if js_lt (prop b field) (prop a field) then (if isDesc then -1 else 1)%Z
  else 0%Z.

(** [createEntityClient(entityName)].  Each function that writes is given in
    two steps: what it does once [await getStorage(entityName)] has answered
    with [items], and the function itself, which reads and goes on.  The
    clock readings ([new Date().toISOString()]) and the random draw are
    arguments. *)
Module EntityClient.
Section createEntityClient.
Context (entityName : string).

Definition get (id : value) : M (option record) :=
  let* data := getStorage entityName in
  ret (find (string_equal "id" id) data).

Definition create_after_read (data : record) (userId : value)
    (random36 created updated : string) (items : list record) : M value :=
  let* user := current_user in
  let finalUserId := or_else (Some userId) (uid user) in
  let finalUserName := uname user in
  let newItem :=
    new_item data (random_id random36) created updated finalUserId finalUserName in
  do setStorage entityName (items ++ [newItem])
       ("Create " +:+ entityName +:+ ": " +:+ String_of (prop newItem "id")) then
  ret (VObj newItem).

Definition create (data : record) (userId : value)
    (random36 created updated : string) : M value :=
  let* items := getStorage entityName in
  create_after_read data userId random36 created updated items.

Definition update_after_read (id : value) (data : record) (userId : value)
    (stamp_entry stamp_item : string) (items : list record) : M value :=
  let* user := current_user in
  match findIndex (string_equal "id" id) items with
  | Some (index, oldItem) =>
      let currentUserId := or_else (Some userId) (uid user) in
      let currentUserName := uname user in
      match changes_of oldItem data with
      | [] => ret (VObj oldItem)
      | _ :: _ =>
          let* history :=
            lift (elements_of (or_else (prop oldItem "edit_history") (VArr []))) in
          let item :=
            updated_item oldItem data history stamp_entry stamp_item
              currentUserId currentUserName in
          do setStorage entityName (<[index := item]> items)
               ("Update " +:+ entityName +:+ ": " +:+ to_String id) then
          ret (VObj item)
      end
  | None => ret VNull
  end.

Definition update (id : value) (data : record) (userId : value)
    (stamp_entry stamp_item : string) : M value :=
  let* items := getStorage entityName in
  update_after_read id data userId stamp_entry stamp_item items.

Definition delete_after_read (id : value) (items : list record) : M value :=
  let filtered := List.filter (fun item => negb (string_equal "id" id item)) items in
  do setStorage entityName filtered
       ("Delete " +:+ entityName +:+ ": " +:+ to_String id) then
  ret (VBool true).

Definition delete (id : value) : M value :=
  let* items := getStorage entityName in
  delete_after_read id items.

Definition toggleLike_after_read (id userId : value) (items : list record) : M value :=
  match findIndex (string_equal "id" id) items with
  | Some (index, found) =>
      let item := ensure_array "dislikes" (ensure_array "likes" found) in
      let* item := lift (toggle "likes" "dislikes" userId item) in
      do setStorage entityName (<[index := item]> items)
           ("Toggle Like " +:+ entityName +:+ ": " +:+ to_String id) then
      ret (VObj item)
  | None => ret VNull
  end.

Definition toggleLike (id userId : value) : M value :=
  let* items := getStorage entityName in
  toggleLike_after_read id userId items.

Definition toggleDislike_after_read (id userId : value) (items : list record) : M value :=
  match findIndex (string_equal "id" id) items with
  | Some (index, found) =>
      let item := ensure_array "dislikes" (ensure_array "likes" found) in
      let* item := lift (toggle "dislikes" "likes" userId item) in
      do setStorage entityName (<[index := item]> items)
           ("Toggle Dislike " +:+ entityName +:+ ": " +:+ to_String id) then
      ret (VObj item)
  | None => ret VNull
  end.

Definition toggleDislike (id userId : value) : M value :=
  let* items := getStorage entityName in
  toggleDislike_after_read id userId items.

Definition filter (filters : record) : M (list record) :=
  let* items := getStorage entityName in
  ret (List.filter
         (fun item => forallb (fun kv => string_equal (fst kv) (snd kv) item) filters)
         items).

Definition list (js_lt : option value -> option value -> bool)
    (sort : option string) (limit : option Z) (userId : value) : M (list record) :=
  let* items := getStorage entityName in
  let items :=
    if includes PRIVATE_ENTITIES entityName && truthy (Some userId)
    then List.filter (string_equal "user_id" userId) items
    else items in
  let items :=
    match sort with
    | Some order =>
        if String.eqb order "" then items
        else
          let isDesc := String.prefix "-" order in
          let field := if isDesc then substring 1 (String.length order) order else order in
          sort_with (compare_by js_lt field isDesc) items
    | None => items
    end in
  let items :=
    match limit with
    | Some n => if (n =? 0)%Z then items else slice_to n items
    | None => items
    end in
  ret items.

End createEntityClient.
End EntityClient.

(** ** uploadFile

    [uploadFile(path, base64Content, message)] writes one file of any kind
    into the repository.  It throws its own error when the GitHub
    configuration is missing, and throws again the error of the write
    request; the request that first fetches the existing file for its sha
    may fail without consequence.  The file is given as the document its
    base64 text denotes ([NotJson] for an image), the form in which the
    repository of the model keeps every blob, and [shaCache] is the one of
    the collections, here keyed by the path. *)
Inductive upload_error : Type :=
| NotConfigured
| RequestFailed (e : failure).

Section uploadFile.
Context (GITHUB_OWNER GITHUB_REPO GITHUB_BRANCH : string).

Definition rawUrl (path : string) : string :=
  "https://raw.githubusercontent.com/" +:+ GITHUB_OWNER +:+ "/" +:+ GITHUB_REPO
    +:+ "/" +:+ GITHUB_BRANCH +:+ "/" +:+ path.

Definition uploadFile (path : string) (file : document) (message : string)
    (w : world) : (upload_error + string) * world :=
  if github (here w) then
    (* the existing file is fetched for its sha; a failure is ignored *)
    let w1 :=
      match getContent path w with
      | (Ok existing, w1) => cache_sha path (sha existing) w1
      | (Err _, w1) => w1
      end in
    (* [message || `Add ${path}`] *)
    match createOrUpdateFileContents path
            (if String.eqb message "" then "Add " +:+ path else message)
            file (shaCache (here w1) !! path) w1 with
    | (Ok s, w2) => (inr (rawUrl path), cache_sha path s w2)
    | (Err e, w2) => (inl (RequestFailed e), w2)
    end
  else (inl NotConfigured, w).

End uploadFile.

(** ** The text encoding of a blob

    On the write path setStorage sends
    [btoa(unescape(encodeURIComponent(jsonString)))] and falls back to
    [btoa(jsonString)] when that throws; on the read path getStorage takes
    [new TextDecoder().decode(Uint8Array.from(atob(content), c => c.charCodeAt(0)))].
    A JS string is the list of its UTF-16 code units; a binary string and the
    bytes of a Uint8Array have all their elements below 256. *)
Module Codec.

Local Open Scope Z_scope.
Local Open Scope list_scope.

Definition code_unit (c : Z) : Prop := 0 <= c < 0x10000.

Definition between (lo hi c : Z) : bool := (lo <=? c) && (c <=? hi).

Definition is_high (c : Z) : bool := between 0xD800 0xDBFF c.
Definition is_low (c : Z) : bool := between 0xDC00 0xDFFF c.

(** The characters that [encodeURIComponent] leaves alone: letters, digits
    and [- _ . ! ~ * ' ( )]. *)
Definition unreserved (c : Z) : bool :=
  between 65 90 c || between 97 122 c || between 48 57 c
  || existsb (Z.eqb c) [45; 95; 46; 33; 126; 42; 39; 40; 41].

(** The code point of a surrogate pair. *)
Definition pair_code_point (hi lo : Z) : Z :=
  0x10000 + (hi - 0xD800) * 0x400 + (lo - 0xDC00).

(** The UTF-8 octets of a code point. *)
Definition utf8 (cp : Z) : list Z :=
  if cp <? 0x80 then [cp]
  else if cp <? 0x800 then [0xC0 + cp / 64; 0x80 + cp mod 64]
  else if cp <? 0x10000 then
    [0xE0 + cp / 4096; 0x80 + (cp / 64) mod 64; 0x80 + cp mod 64]
  else
    [0xF0 + cp / 262144; 0x80 + (cp / 4096) mod 64;
     0x80 + (cp / 64) mod 64; 0x80 + cp mod 64].

(** An upper-case hexadecimal digit, as a character. *)
Definition HEX (n : Z) : Z := if n <? 10 then 48 + n else 55 + n.

(** ["%XX"] *)
Definition percent (octet : Z) : list Z := [37; HEX (octet / 16); HEX (octet mod 16)].

(** [encodeURIComponent(s)]; [None] is the URIError for a lone surrogate. *)
Fixpoint encodeURIComponent (s : list Z) : option (list Z) :=
  match s with
  | [] => Some []
  | c :: rest =>
      if unreserved c then (fun e => c :: e) <$> encodeURIComponent rest
      else if is_high c then
        match rest with
        | d :: rest' =>
            if is_low d
            then (fun e => flat_map percent (utf8 (pair_code_point c d)) ++ e)
                   <$> encodeURIComponent rest'
            else None
        | [] => None
        end
      else if is_low c then None
      else (fun e => flat_map percent (utf8 c) ++ e) <$> encodeURIComponent rest
  end.

(** The value of a hexadecimal digit. *)
Definition hex_val (c : Z) : option Z :=
  if between 48 57 c then Some (c - 48)
  else if between 65 70 c then Some (c - 55)
  else if between 97 102 c then Some (c - 87)
  else None.

(** [unescape(s)]: ["%uXXXX"] and ["%XX"] become the character of that
    code, everything else stays. *)
Fixpoint unescape (s : list Z) : list Z :=
  match s with
  | [] => []
  | c :: rest =>
      let plain := c :: unescape rest in
      if negb (c =? 37) then plain
      else
        match rest with
        | x :: y :: rest2 =>
            let two :=
              match hex_val x, hex_val y with
              | Some h, Some l => (16 * h + l) :: unescape rest2
              | _, _ => plain
              end in
            if x =? 117 then
              match rest2 with
              | z :: t :: v :: rest5 =>
                  match hex_val y, hex_val z, hex_val t, hex_val v with
                  | Some a, Some b, Some e, Some f =>
                      (4096 * a + 256 * b + 16 * e + f) :: unescape rest5
                  | _, _, _, _ => two
                  end
              | _ => two
              end
            else two
        | _ => plain
        end
  end.

(** The base64 alphabet. *)
Definition b64_char (n : Z) : Z :=
  if n <? 26 then 65 + n
  else if n <? 52 then 71 + n
  else if n <? 62 then n - 4
  else if n =? 62 then 43
  else 47.

Definition b64_val (c : Z) : option Z :=
  if between 65 90 c then Some (c - 65)
  else if between 97 122 c then Some (c - 71)
  else if between 48 57 c then Some (c + 4)
  else if c =? 43 then Some 62
  else if c =? 47 then Some 63
  else None.

Fixpoint btoa_octets (l : list Z) : list Z :=
  match l with
  | [] => []
  | [a] => [b64_char (a / 4); b64_char (a mod 4 * 16); 61; 61]
  | [a; b] =>
      [b64_char (a / 4); b64_char (a mod 4 * 16 + b / 16);
       b64_char (b mod 16 * 4); 61]
  | a :: b :: c :: rest =>
      b64_char (a / 4) :: b64_char (a mod 4 * 16 + b / 16)
      :: b64_char (b mod 16 * 4 + c / 64) :: b64_char (c mod 64)
      :: btoa_octets rest
  end.

(** [btoa(s)]; [None] is the InvalidCharacterError for a character above 255. *)
Definition btoa (s : list Z) : option (list Z) :=
  if forallb (between 0 255) s then Some (btoa_octets s) else None.

Definition ascii_whitespace (c : Z) : bool :=
  existsb (Z.eqb c) [9; 10; 12; 13; 32].

(** One or two ['='] at the end of a text whose length is a multiple of 4. *)
Definition strip_padding (l : list Z) : list Z :=
  if (length l mod 4 =? 0)%nat then
    match rev l with
    | x :: y :: r =>
        if x =? 61 then (if y =? 61 then rev r else rev (y :: r)) else l
    | _ => l
    end
  else l.

Fixpoint atob_groups (l : list Z) : option (list Z) :=
  match l with
  | [] => Some []
  | [_] => None
  | [a; b] =>
      match b64_val a, b64_val b with
      | Some x, Some y => Some [x * 4 + y / 16]
      | _, _ => None
      end
  | [a; b; c] =>
      match b64_val a, b64_val b, b64_val c with
      | Some x, Some y, Some z => Some [x * 4 + y / 16; y mod 16 * 16 + z / 4]
      | _, _, _ => None
      end
  | a :: b :: c :: d :: rest =>
      match b64_val a, b64_val b, b64_val c, b64_val d with
      | Some x, Some y, Some z, Some t =>
          (fun o => x * 4 + y / 16 :: y mod 16 * 16 + z / 4 :: z mod 4 * 64 + t :: o)
            <$> atob_groups rest
      | _, _, _, _ => None
      end
  end.

(** [atob(s)]; [None] is the InvalidCharacterError. *)
Definition atob (s : list Z) : option (list Z) :=
  atob_groups (strip_padding (List.filter (fun c => negb (ascii_whitespace c)) s)).

(** The UTF-8 decoder of [TextDecoder]: how many continuation octets are
    still due, the code point so far, and the bounds on the next octet. *)
Record decoder : Type := Decoder {
  due : nat;
  acc : Z;
  lower : Z;
  upper : Z
}.

Definition idle : decoder := Decoder 0 0 0x80 0xBF.

(** An octet met while no sequence is open: what it emits and the state
    it leaves. *)
Definition lead (b : Z) : list Z * decoder :=
  if between 0x00 0x7F b then ([b], idle)
  else if between 0xC2 0xDF b then ([], Decoder 1 (b - 0xC0) 0x80 0xBF)
  else if between 0xE0 0xEF b then
    ([], Decoder 2 (b - 0xE0)
                 (if b =? 0xE0 then 0xA0 else 0x80)
                 (if b =? 0xED then 0x9F else 0xBF))
  else if between 0xF0 0xF4 b then
    ([], Decoder 3 (b - 0xF0)
                 (if b =? 0xF0 then 0x90 else 0x80)
                 (if b =? 0xF4 then 0x8F else 0xBF))
  else ([0xFFFD], idle).

(** The code points a run of octets decodes to, U+FFFD for every error. *)
Fixpoint utf8_decode (st : decoder) (octets : list Z) : list Z :=
  match octets with
  | [] => match due st with O => [] | S _ => [0xFFFD] end
  | b :: rest =>
      match due st with
      | O => let '(out, st') := lead b in out ++ utf8_decode st' rest
      | S more =>
          if between (lower st) (upper st) b then
            let cp := acc st * 64 + (b - 0x80) in
            match more with
            | O => cp :: utf8_decode idle rest
            | S _ => utf8_decode (Decoder more cp 0x80 0xBF) rest
            end
          else
            (* the octet is put back and read again with no sequence open *)
            let '(out, st') := lead b in 0xFFFD :: out ++ utf8_decode st' rest
      end
  end.

(** The UTF-16 code units of a code point. *)
Definition utf16 (cp : Z) : list Z :=
  if cp <? 0x10000 then [cp]
  else [0xD800 + (cp - 0x10000) / 0x400; 0xDC00 + (cp - 0x10000) mod 0x400].

(** A byte order mark at the start is not part of the text. *)
Definition strip_bom (cps : list Z) : list Z :=
  match cps with
  | cp :: rest => if cp =? 0xFEFF then rest else cps
  | [] => []
  end.

(** [new TextDecoder().decode(octets)] *)
Definition TextDecoder_decode (octets : list Z) : list Z :=
  flat_map utf16 (strip_bom (utf8_decode idle octets)).

(** The write path. *)
Definition encode_content (jsonString : list Z) : option (list Z) :=
  match encodeURIComponent jsonString ≫= (fun escaped => btoa (unescape escaped)) with
  | Some content => Some content
  | None => btoa jsonString
  end.

(** The read path. *)
Definition decode_content (content : list Z) : option (list Z) :=
  (fun binary => TextDecoder_decode (map (fun c => c mod 256) binary)) <$> atob content.

(** A string with no lone surrogate. *)
Fixpoint well_formed (s : list Z) : bool :=
  match s with
  | [] => true
  | c :: rest =>
      if is_high c then
        match rest with
        | d :: rest' => is_low d && well_formed rest'
        | [] => false
        end
      else negb (is_low c) && well_formed rest
  end.

(** The code points of a string, pair by pair. *)
Fixpoint code_points (s : list Z) : list Z :=
  match s with
  | [] => []
  | c :: rest =>
      if is_high c then
        match rest with
        | d :: rest' => pair_code_point c d :: code_points rest'
        | [] => [c]
        end
      else c :: code_points rest
  end.

(** A code point that is no surrogate. *)
Definition scalar (cp : Z) : Prop :=
  0 <= cp < 0x110000 /\ ~ (0xD800 <= cp <= 0xDFFF).

(** An element of a binary string or of a Uint8Array. *)
Definition octet (b : Z) : Prop := 0 <= b < 256.

(** The base64 text without its padding. *)
Fixpoint btoa_unpadded (l : list Z) : list Z :=
  match l with
  | [] => []
  | [a] => [b64_char (a / 4); b64_char (a mod 4 * 16)]
  | [a; b] =>
      [b64_char (a / 4); b64_char (a mod 4 * 16 + b / 16); b64_char (b mod 16 * 4)]
  | a :: b :: c :: rest =>
      b64_char (a / 4) :: b64_char (a mod 4 * 16 + b / 16)
      :: b64_char (b mod 16 * 4 + c / 64) :: b64_char (c mod 64)
      :: btoa_unpadded rest
  end.

End Codec.

(** ** The JSON text that setStorage encodes

    [jsonString] is [JSON.stringify(validatedData, null, 2)], a text of
    UTF-16 code units.  Its values are those of JS: a string is any
    sequence of code units, lone surrogates included, and a number is
    given by the text that JSON.stringify prints for it, which is ASCII
    (digits, a sign, a point, an exponent, or [null] for what is not
    finite).  For the other values of JS, JSON.stringify prints the text
    of one of these or nothing: [null] for undefined or a function in an
    array, no member for them in an object, the string of its [toJSON] for
    a Date.  JSON.stringify is the one of the standard, which since
    ES2019 writes a lone surrogate as an escape. *)
Module JsonText.
Import Codec.
Local Open Scope Z_scope.
Local Open Scope list_scope.

Inductive jvalue : Type :=
| JNull
| JBool (b : bool)
| JNum (printed : list Z)
| JStr (s : list Z)
| JArr (elems : list jvalue)
| JObj (members : list (list Z * jvalue)).

(** A lower-case hexadecimal digit. *)
Definition hexdigit (n : Z) : Z := if n <? 10 then 48 + n else 87 + n.

(** [UnicodeEscape]: a backslash, [u] and four digits. *)
Definition UnicodeEscape (c : Z) : list Z :=
  [92; 117; hexdigit (c / 4096 mod 16); hexdigit (c / 256 mod 16);
   hexdigit (c / 16 mod 16); hexdigit (c mod 16)].

(** What [QuoteJSONString] writes for a code point that is no surrogate. *)
Definition quote_plain (c : Z) : list Z :=
  if c =? 8 then [92; 98]
  else if c =? 9 then [92; 116]
  else if c =? 10 then [92; 110]
  else if c =? 12 then [92; 102]
  else if c =? 13 then [92; 114]
  else if c =? 34 then [92; 34]
  else if c =? 92 then [92; 92]
  else if c <? 32 then UnicodeEscape c
  else [c].

(** The code points of the string in turn: a surrogate pair is written
    as it is, a lone surrogate as an escape. *)
Fixpoint quote_units (s : list Z) : list Z :=
  match s with
  | [] => []
  | c :: rest =>
      if is_high c then
        match rest with
        | d :: rest' =>
            if is_low d then c :: d :: quote_units rest'
            else UnicodeEscape c ++ quote_units rest
        | [] => UnicodeEscape c
        end
      else if is_low c then UnicodeEscape c ++ quote_units rest
      else quote_plain c ++ quote_units rest
  end.

Definition QuoteJSONString (s : list Z) : list Z := 34 :: quote_units s ++ [34].

(** [partial.join(separator)] *)
Fixpoint join (separator : list Z) (partial : list (list Z)) : list Z :=
  match partial with
  | [] => []
  | [x] => x
  | x :: rest => x ++ separator ++ join separator rest
  end.

(** [SerializeJSONProperty] with the gap of two spaces, at the given
    indentation. *)
Fixpoint serialize (indent : list Z) (v : jvalue) : list Z :=
  let inner := indent ++ [32; 32] in
  match v with
  | JNull => [110; 117; 108; 108]
  | JBool true => [116; 114; 117; 101]
  | JBool false => [102; 97; 108; 115; 101]
  | JNum printed => printed
  | JStr s => QuoteJSONString s
  | JArr [] => [91; 93]
  | JArr elems =>
      [91; 10] ++ inner ++ join ([44; 10] ++ inner) (map (serialize inner) elems)
        ++ [10] ++ indent ++ [93]
  | JObj [] => [123; 125]
  | JObj members =>
      [123; 10] ++ inner
        ++ join ([44; 10] ++ inner)
             (map (fun kv => QuoteJSONString (fst kv) ++ [58; 32] ++ serialize inner (snd kv))
                  members)
        ++ [10] ++ indent ++ [125]
  end.

(** [JSON.stringify(validatedData, null, 2)] *)
Definition JSON_stringify_indented (validatedData : list jvalue) : list Z :=
  serialize [] (JArr validatedData).

(** The values of JS: code units in the strings and in the keys, ASCII in
    the printed numbers. *)
Fixpoint js_value (v : jvalue) : Prop :=
  match v with
  | JNull | JBool _ => True
  | JNum printed => Forall (fun c => 0 <= c < 128) printed
  | JStr s => Forall code_unit s
  | JArr elems => fold_right (fun e rest => js_value e /\ rest) True elems
  | JObj members =>
      fold_right (fun kv rest => Forall code_unit (fst kv) /\ js_value (snd kv) /\ rest)
        True members
  end.

(** A text of code units with no lone surrogate. *)
Definition tidy (s : list Z) : Prop := Forall code_unit s /\ well_formed s = true.

End JsonText.

(** The whole decoding step of getStorage: the first attempt, and the
    second one that is made when the first has thrown,
    [decodeURIComponent] of the binary string written as "%xx" escapes;
    [None] is the [null] that is left when both have thrown.  Of the
    first attempt only [atob] can throw.  [decodeURIComponent] is left
    open. *)
Module ReadPath.
Import Codec.
Local Open Scope Z_scope.
Local Open Scope list_scope.

Section decodedContent.
Context (decodeURIComponent : list Z -> option (list Z)).

(** A digit of [toString(16)]. *)
Definition hex (n : Z) : Z := if n <? 10 then 48 + n else 87 + n.

(** ['%' + ('00' + c.charCodeAt(0).toString(16)).slice(-2)] *)
Definition escaped (c : Z) : list Z := [37; hex (c / 16 mod 16); hex (c mod 16)].

Definition decodedContent (content : list Z) : option (list Z) :=
  match decode_content content with
  | Some text => Some text
  | None => atob content ≫= (fun binary => decodeURIComponent (flat_map escaped binary))
  end.

End decodedContent.

(** A character that base64 has no use for. *)
Definition foreign (c : Z) : bool :=
  negb (ascii_whitespace c) && negb (c =? 61) && bool_decide (b64_val c = None).

End ReadPath.

(** ** Notions the properties are stated with *)

(** [data] is the collection that one of the two stores holds. *)
Definition persisted (entityName : string) (data : list record) (w : world) : Prop :=
  content <$> files (there w) !! blob_path entityName = Some (JsonArray data)
  \/ localStorage (here w) !! local_key entityName = Some (JsonArray data).

(** A session whose writes and reads meet in one store: it has no GitHub
    configuration, or it has one, its requests are delivered, and it holds
    no token for a blob that does not exist. *)
Definition in_sync (entityName : string) (w : world) : Prop :=
  github (here w) = false
  \/ (github (here w) = true
      /\ network (here w) = []
      /\ (files (there w) !! blob_path entityName = None ->
          shaCache (here w) !! entityName = None)).

(** The array behind [item.likes] or [item.dislikes] as the toggles see it:
    a missing or falsy property counts as the empty array, and a truthy value
    that is no array has none. *)
Definition reactions (item : record) (k : string) : option (list value) :=
  match prop item k with
  | Some (VArr l) => Some l
  | e => if truthy e then None else Some []
  end.

(** The reaction sets of the data model: two duplicate-free arrays with no
    actor in both. *)
Definition exclusive (item : record) : Prop :=
  exists L D,
    reactions item "likes" = Some L /\ reactions item "dislikes" = Some D
    /\ NoDup L /\ NoDup D /\ forall a, a ∈ L -> a ∉ D.

(** A digit of base 36. *)
Definition base36_digit (c : ascii) : bool :=
  let n := nat_of_ascii c in
  (Nat.leb 48 n && Nat.leb n 57) || (Nat.leb 97 n && Nat.leb n 122).

(** What [x.toString(36)] gives for a number [0 <= x < 1]: "0", or "0."
    followed by digits. *)
Definition base36_text (s : string) : bool :=
  match s with
  | String "0" EmptyString => true
  | String "0" (String "." digits) =>
      negb (String.eqb digits "") && forallb base36_digit (list_ascii_of_string digits)
  | _ => false
  end.

(** What a toggle makes of the array it is named after, and of the other. *)
Definition toggled_own (own : list value) (a : value) : list value :=
  match indexOf own a with
  | Some i => splice1 i own
  | None => own ++ [a]
  end.

Definition toggled_other (own opposite : list value) (a : value) : list value :=
  match indexOf own a with
  | Some _ => opposite
  | None =>
      match indexOf opposite a with
      | Some j => splice1 j opposite
      | None => opposite
      end
  end.

(** The collection read in [w] has exclusive reaction sets throughout. *)
Definition reads_exclusive (n : string) (w : world) : Prop :=
  exists items, fst (getStorage n w) = Normal items /\ Forall exclusive items.

(** The two reaction arrays of each record of the collection read in [w]. *)
Definition reactions_read (n : string) (w : world)
  : list (option (list value) * option (list value)) :=
  match fst (getStorage n w) with
  | Normal items =>
      map (fun item => (reactions item "likes", reactions item "dislikes")) items
  | Throw _ => []
  end.

(** The collection in the remote blob of an entity. *)
Definition remote_collection (n : string) (w : world) : option document :=
  content <$> files (there w) !! blob_path n.

(** A session about to write with a token that is no longer the blob's:
    another session's write has been accepted since it read. *)
Definition stale (n : string) (current : blob) (w : world) : Prop :=
  github (here w) = true
  /\ network (here w) = []
  /\ files (there w) !! blob_path n = Some current
  /\ shaCache (here w) !! n <> Some (sha current).

(** The sorting step of [list], by itself. *)
Definition sorted_by (js_lt : option value -> option value -> bool)
    (sort : option string) (items : list record) : list record :=
  match sort with
  | Some order =>
      if String.eqb order "" then items
      else
        let isDesc := String.prefix "-" order in
        let field := if isDesc then substring 1 (String.length order) order else order in
        sort_with (compare_by js_lt field isDesc) items
  | None => items
  end.

(** ** Sample data *)

Definition milk : record := [("id", VStr "p1"); ("name", VStr "milk")].

Definition bread : record := [("id", VStr "p2"); ("name", VStr "bread")].

Definition reviewed : record :=
  [("id", VStr "p3"); ("likes", VArr [VStr "alice"]); ("dislikes", VArr [])].

Definition disliked_twice : record :=
  [("id", VStr "p4"); ("likes", VArr []); ("dislikes", VArr [VStr "u1"; VStr "u1"])].

(** A session without GitHub configuration, with its collection on the device. *)
Definition on_device (entityName : string) (items : list record) : world :=
  World (Client false ∅ {[ local_key entityName := JsonArray items ]} [])
        (Remote ∅ []).

(** Two sessions on one repository: both start from [fresh_session], and
    the second has read the blob at revision 0 when the write of the first
    arrives. *)
Definition shared_repository : remote :=
  Remote {[ "data/Product.json" := Blob (JsonArray [milk; bread]) 0 ]} [].

Definition fresh_session : client := Client true ∅ ∅ [].

Definition session_after_read : client :=
  Client true {[ "Product" := 0 ]} ∅ [].

Definition first_write : blob :=
  Blob (JsonArray [[("id", VStr "p1"); ("name", VStr "milk");
                    ("likes", VArr [VStr "alice"]); ("dislikes", VArr [])];
                   bread]) 1.

Definition repository_after_first_write : remote :=
  Remote {[ "data/Product.json" := first_write ]}
         [("data/Product.json", "Toggle Like Product: p1")].

Definition weekly : record := [("id", VStr "l1"); ("user_id", VStr "u1")].

Definition party : record := [("id", VStr "l2"); ("user_id", VStr "u1")].

(** ** Further notions *)

(** What an operation on one entity has to leave alone: the blob, the
    localStorage entry and the cached token of another entity [m], and the
    identity of the session. *)
Definition elsewhere_same (m : string) (w w' : world) : Prop :=
  files (there w') !! blob_path m = files (there w) !! blob_path m
  /\ localStorage (here w') !! local_key m = localStorage (here w) !! local_key m
  /\ shaCache (here w') !! m = shaCache (here w) !! m
  /\ getCurrentUser (here w') = getCurrentUser (here w).

(** A computation that leaves them alone from every world. *)
Definition frames {A} (m : string) (c : M A) : Prop :=
  forall w, elsewhere_same m w (snd (c w)).

(** A session alone on the repository: it has a GitHub configuration, its
    requests are delivered, and the token it holds for the blob of [n] is
    the blob's current one (none when the blob does not exist). *)
Definition up_to_date (n : string) (w : world) : Prop :=
  github (here w) = true
  /\ network (here w) = []
  /\ shaCache (here w) !! n = sha <$> files (there w) !! blob_path n.

(** An accepted write of [n]: one commit more in the log, the device as it
    was, and the session up to date again. *)
Definition logs (n message : string) (w w' : world) : Prop :=
  commits (there w') = commits (there w) ++ [(blob_path n, message)]
  /\ localStorage (here w') = localStorage (here w)
  /\ up_to_date n w'.

(** [js_lt] is an order on the values that the records of [items] hold
    under [field]: it never orders two values both ways, and what it
    leaves unordered is transitive (a strict weak order). *)
Definition orders (js_lt : option value -> option value -> bool)
    (field : string) (items : list record) : Prop :=
  (forall a b, a ∈ items -> b ∈ items ->
     js_lt (prop a field) (prop b field) = true ->
     js_lt (prop b field) (prop a field) = false)
  /\ (forall a b c, a ∈ items -> b ∈ items -> c ∈ items ->
        js_lt (prop a field) (prop b field) = false ->
        js_lt (prop b field) (prop c field) = false ->
        js_lt (prop a field) (prop c field) = false).

(** Every record of [l] stands in [R] to the records after it. *)
Definition in_order (R : record -> record -> Prop) (l : list record) : Prop :=
  forall i j a b, i < j -> l !! i = Some a -> l !! j = Some b -> R a b.

(** [<] between two numbers. *)
Definition number_lt (a b : option value) : bool :=
  match a, b with
  | Some (VNum x), Some (VNum y) => (x <? y)%Z
  | _, _ => false
  end.

(** What [[...(oldItem.edit_history || [])]] cannot spread: a truthy value
    that is neither an array nor a string. *)
Definition not_iterable (h : value) : Prop :=
  match h with
  | VNum z => z <> 0%Z
  | VBool b => b = true
  | VObj _ => True
  | _ => False
  end.

(** The keys that the object literal of [create] writes after the payload. *)
Definition system_fields : list string :=
  ["id"; "created_date"; "created_by"; "created_by_name"; "updated_date";
   "updated_by"; "updated_by_name"; "likes"; "dislikes"; "edit_history"].

(** ** Further sample data *)

Definition priced (id : string) (price : Z) : record :=
  [("id", VStr id); ("price", VNum price)].

Definition of_user (id user : string) : record :=
  [("id", VStr id); ("user_id", VStr user)].

Definition edited : record :=
  [("id", VStr "p5"); ("updated_date", VStr "2025-12-31T00:00:00.000Z");
   ("edit_history", VArr [VStr "e1"])].



(** Stores whose text for Product is [null]. *)
Definition null_on_device : world :=
  World (Client false ∅ {[ local_key "Product" := JsonNull ]} []) (Remote ∅ []).

Definition null_in_repository : world :=
  World (Client true ∅ ∅ []) (Remote {[ "data/Product.json" := Blob JsonNull 0 ]} []).

(** A session with a GitHub configuration whose next request fails. *)
Definition offline_session (items : list record) : world :=
  World (Client true ∅ ∅ [false])
        (Remote {[ "data/Product.json" := Blob (JsonArray items) 0 ]} []).

(** A device that holds two collections. *)
Definition two_collections : world :=
  World (Client false ∅
           {[ local_key "Product" := JsonArray [milk; bread];
              local_key "Store" := JsonArray [[("id", VStr "s1")]] ]} [])
        (Remote ∅ []).

(** A repository with a picture, and a session whose token for it is stale. *)
Definition photo_repository : world :=
  World (Client true {[ "images/milk.png" := 7 ]} ∅ [])
        (Remote {[ "images/milk.png" := Blob NotJson 2 ]} []).

(** * Properties *)

(** ** Objects *)

Lemma prop_set_prop_eq k v (o : record) : prop (set_prop k v o) k = Some v.
Proof.
  induction o as [|[k' v'] o IH]; simpl.
  - by rewrite String.eqb_refl.
  - destruct (String.eqb k' k) eqn:E; simpl; rewrite E; [done | exact IH].
Qed.

Lemma prop_set_prop_ne k k' v (o : record) :
  k <> k' -> prop (set_prop k v o) k' = prop o k'.
Proof.
  intros Hne. induction o as [|[k0 v0] o IH]; simpl.
  - destruct (String.eqb_spec k k'); [done | done].
  - destruct (String.eqb_spec k0 k) as [->|Hk]; simpl.
    + destruct (String.eqb_spec k k'); [done | done].
    + destruct (String.eqb_spec k0 k'); [done | exact IH].
Qed.

Lemma prop_None_keys (o : record) k : prop o k = None <-> k ∉ keys o.
Proof.
  induction o as [|[k' v'] o IH]; simpl.
  - split; [intros _; apply not_elem_of_nil | done].
  - destruct (String.eqb_spec k' k) as [->|Hne].
    + split; [done|]. intros H. exfalso. apply H. left.
    + rewrite IH. split.
      * intros H Hin. apply elem_of_cons in Hin as [->|Hin]; [done | by apply H].
      * intros H Hin. apply H. by right.
Qed.

(** A spread leaves alone the keys it does not carry... *)
Lemma prop_spread_other (base more : record) k :
  k ∉ keys more -> prop (spread base more) k = prop base k.
Proof.
  unfold spread. revert base.
  induction more as [|[k' v'] more IH]; intros base Hk; simpl; [done|].
  rewrite IH.
  - apply prop_set_prop_ne. intros ->. apply Hk. simpl. left.
  - intros Hin. apply Hk. simpl. by right.
Qed.

(** ... and overrides the ones it does. *)
Lemma prop_spread_some (base more : record) k v :
  NoDup (keys more) -> prop more k = Some v -> prop (spread base more) k = Some v.
Proof.
  unfold spread. revert base.
  induction more as [|[k' v'] more IH]; intros base Hnd Hp; simpl in *; [done|].
  apply NoDup_cons in Hnd as [Hk' Hnd].
  destruct (String.eqb_spec k' k) as [->|Hne].
  - injection Hp as ->.
    change (prop (spread (set_prop k v base) more) k = Some v).
    rewrite prop_spread_other by done. apply prop_set_prop_eq.
  - by apply IH.
Qed.

Lemma prop_spread (base more : record) k :
  NoDup (keys more) ->
  prop (spread base more) k =
    match prop more k with Some v => Some v | None => prop base k end.
Proof.
  intros Hnd. destruct (prop more k) as [v|] eqn:Hp.
  - by apply prop_spread_some.
  - apply prop_spread_other. by apply prop_None_keys.
Qed.

Create Rewrite HintDb props.
#[local] Hint Rewrite prop_set_prop_eq : props.
#[local] Hint Rewrite prop_set_prop_ne using done : props.

(** Closed goals about concrete keys are decided by evaluation. *)
Ltac by_evaluation := apply (bool_decide_unpack _); vm_compute; exact I.

(** ** The stores *)

Ltac storage_unfold :=
  unfold setStorage, getStorage, put, getContent, createOrUpdateFileContents,
    local_write, local_read, cache_sha, next_request, delivered, persisted,
    parse_or_empty, validateData in *;
  simpl in *.

Ltac storage_cases := repeat (case_match; simpl in *; simplify_eq); simpl in *.

Lemma bind_normal {A B} (m : M A) (k : A -> M B) w a w1 :
  m w = (Normal a, w1) -> bind m k w = k a w1.
Proof. unfold bind. by intros ->. Qed.

(** setStorage never throws: every failure ends in localStorage. *)
Lemma setStorage_returns n data msg w : fst (setStorage n data msg w) = Normal tt.
Proof. destruct w as [[g sc ls net] [fs cm]]. storage_unfold. storage_cases; done. Qed.

(** Whatever the network does, the collection ends up in one of the stores. *)
Lemma setStorage_persisted n data msg w :
  persisted n data (snd (setStorage n data msg w)).
Proof.
  destruct w as [[g sc ls net] [fs cm]]. storage_unfold.
  storage_cases;
    first [ left; by rewrite lookup_insert_eq | right; by rewrite lookup_insert_eq ].
Qed.

Lemma write_then_ret {A} n data msg (x : A) w :
  bind (setStorage n data msg) (fun _ => ret x) w
  = (Normal x, snd (setStorage n data msg w)).
Proof.
  unfold bind. pose proof (setStorage_returns n data msg w) as H.
  destruct (setStorage n data msg w) as [c w']. simpl in *. by subst.
Qed.

(** getStorage writes nothing but the token it caches. *)
Lemma getStorage_reads_only n w :
  there (snd (getStorage n w)) = there w
  /\ localStorage (here (snd (getStorage n w))) = localStorage (here w)
  /\ github (here (snd (getStorage n w))) = github (here w).
Proof. destruct w as [[g sc ls net] [fs cm]]. storage_unfold. storage_cases; done. Qed.

Lemma getStorage_in_sync n w : in_sync n w -> in_sync n (snd (getStorage n w)).
Proof.
  destruct w as [[g sc ls net] [fs cm]]. unfold in_sync. storage_unfold.
  intros [->|(-> & -> & Hc)]; simpl.
  - storage_cases; by left.
  - storage_cases; right; simpl; repeat split; try done.
    all: intros Hn; first [congruence | by auto].
Qed.

(** A session in sync reads back what it wrote. *)
Lemma setStorage_in_sync n data msg w :
  in_sync n w ->
  in_sync n (snd (setStorage n data msg w))
  /\ fst (getStorage n (snd (setStorage n data msg w))) = Normal data.
Proof.
  destruct w as [[g sc ls net] [fs cm]]. unfold in_sync. storage_unfold.
  intros [->|(-> & -> & Hc)]; simpl.
  - split; [by left|]. by rewrite lookup_insert_eq.
  - destruct (fs !! blob_path n) as [b|] eqn:Hf; simpl.
    + destruct (sc !! n) as [s|] eqn:Hs; simpl.
      * destruct (Nat.eqb (sha b) s) eqn:E; simpl.
        -- split; [right; simpl; repeat split; try done; by rewrite lookup_insert_eq|].
           by rewrite lookup_insert_eq.
        -- rewrite Hf. simpl. rewrite lookup_insert_eq. simpl. rewrite Hf. simpl.
           rewrite Nat.eqb_refl. simpl. rewrite lookup_insert_eq. simpl.
           split; [right; simpl; repeat split; try done; by rewrite lookup_insert_eq|].
           done.
      * rewrite Hf. simpl. rewrite lookup_insert_eq. simpl. rewrite Hf. simpl.
        rewrite Nat.eqb_refl. simpl. rewrite lookup_insert_eq. simpl.
        split; [right; simpl; repeat split; try done; by rewrite lookup_insert_eq|].
        done.
    + rewrite (Hc eq_refl). simpl. rewrite lookup_insert_eq. simpl.
      split; [right; simpl; repeat split; try done; by rewrite lookup_insert_eq|]. done.
Qed.

Lemma getStorage_again n w w1 items :
  in_sync n w -> getStorage n w = (Normal items, w1) ->
  in_sync n w1 /\ fst (getStorage n w1) = Normal items.
Proof.
  intros Hs Hread. split.
  { pose proof (getStorage_in_sync n w Hs) as H. by rewrite Hread in H. }
  destruct w as [[g sc ls net] [fs cm]]. unfold in_sync in Hs. storage_unfold.
  destruct Hs as [->|(-> & -> & Hc)]; simpl in *.
  - storage_cases; done.
  - storage_cases; done.
Qed.

(** The one document on which the read itself throws: [data.length] is
    evaluated on the parsed [null] before validateData is reached.  The
    properties below are stated for a read that returned its collection. *)
Remark getStorage_throws_on_null n w :
  github (here w) = false ->
  localStorage (here w) !! local_key n = Some JsonNull ->
  getStorage n w = (Throw TypeError, w).
Proof.
  destruct w as [[g sc ls net] [fs cm]]. storage_unfold. by intros -> ->.
Qed.

(** The write that meets a conflict: the first request is refused, the
    file is fetched for its token, and the same collection is sent again. *)
Lemma setStorage_after_conflict n data msg w current :
  stale n current w ->
  let w' := snd (setStorage n data msg w) in
  fst (put n data msg w) = Err Status409
  /\ files (there w') !! blob_path n = Some (Blob (JsonArray data) (S (sha current)))
  /\ commits (there w') = commits (there w) ++ [(blob_path n, commit_message n msg)]
  /\ localStorage (here w') = localStorage (here w)
  /\ shaCache (here w') !! n = Some (S (sha current)).
Proof.
  destruct w as [[g sc ls net] [fs cm]]. unfold stale. storage_unfold.
  intros (-> & -> & Hf & Hs). simpl. rewrite Hf. simpl.
  assert (Hm : token_matches (Some current) (sc !! n) = false).
  { unfold token_matches. destruct (sc !! n) as [s|]; [|done].
    destruct (Nat.eqb_spec (sha current) s); [congruence|done]. }
  simpl in Hm. rewrite !Hm. simpl. rewrite Hf. simpl. rewrite lookup_insert_eq. simpl.
  rewrite Hf. simpl. rewrite Nat.eqb_refl. simpl.
  rewrite !lookup_insert_eq. done.
Qed.

Lemma remote_collection_after_conflict n data msg w current :
  stale n current w ->
  remote_collection n (snd (setStorage n data msg w)) = Some (JsonArray data).
Proof.
  intros H. destruct (setStorage_after_conflict n data msg w current H) as (_ & Hf & _).
  unfold remote_collection. simpl in Hf. by rewrite Hf.
Qed.

(** ** Searching the collection *)

Lemma findIndex_None p items :
  Forall (fun item => p item = false) items -> findIndex p items = None.
Proof.
  induction 1 as [|item items Hp _ IH]; simpl; [done|]. by rewrite Hp, IH.
Qed.

Lemma find_None p (items : list record) :
  Forall (fun item => p item = false) items -> find p items = None.
Proof.
  induction 1 as [|item items Hp _ IH]; simpl; [done|]. by rewrite Hp.
Qed.

Lemma filter_all p (items : list record) :
  Forall (fun item => p item = true) items -> List.filter p items = items.
Proof.
  induction 1 as [|item items Hp _ IH]; simpl; [done|]. by rewrite Hp, IH.
Qed.

Lemma findIndex_Some p items i item :
  findIndex p items = Some (i, item) ->
  items !! i = Some item /\ p item = true
  /\ Forall (fun x => p x = false) (take i items).
Proof.
  revert i. induction items as [|x items IH]; intros i; simpl; [done|].
  destruct (p x) eqn:Hp.
  - intros [= <- <-]. simpl. by repeat split.
  - destruct (findIndex p items) as [[j found]|] eqn:Hf; [|done].
    intros [= <- <-]. destruct (IH j eq_refl) as (H1 & H2 & H3).
    simpl. repeat split; try done. by constructor.
Qed.

Lemma findIndex_elem_of p items i item :
  findIndex p items = Some (i, item) -> item ∈ items.
Proof.
  intros H. apply findIndex_Some in H as (H & _). by apply list_elem_of_lookup_2 in H.
Qed.

Lemma findIndex_insert p items i item item' :
  findIndex p items = Some (i, item) -> p item' = true ->
  findIndex p (<[i := item']> items) = Some (i, item').
Proof.
  revert i. induction items as [|x items IH]; intros i; simpl; [done|].
  destruct (p x) eqn:Hp.
  - intros [= <- <-] Hp'. simpl. by rewrite Hp'.
  - destruct (findIndex p items) as [[j found]|] eqn:Hf; [|done].
    intros [= <- <-] Hp'. simpl. rewrite Hp. by rewrite (IH j eq_refl Hp').
Qed.

Lemma string_equal_same_prop k v item item' :
  prop item' k = prop item k -> string_equal k v item' = string_equal k v item.
Proof. unfold string_equal. by intros ->. Qed.

(** ** The functions once their read has answered *)

Lemma create_after_read_eq n data userId random36 created updated items w :
  let user := getCurrentUser (here w) in
  let item := new_item data (random_id random36) created updated
                (or_else (Some userId) (uid user)) (uname user) in
  EntityClient.create_after_read n data userId random36 created updated items w
  = (Normal (VObj item),
     snd (setStorage n (items ++ [item])
            ("Create " +:+ n +:+ ": " +:+ String_of (prop item "id")) w)).
Proof.
  cbv zeta. unfold EntityClient.create_after_read.
  unfold current_user at 1. unfold bind at 1. by rewrite write_then_ret.
Qed.

Lemma update_after_read_eq n id data userId t1 t2 items w index oldItem history :
  findIndex (string_equal "id" id) items = Some (index, oldItem) ->
  changes_of oldItem data <> [] ->
  elements_of (or_else (prop oldItem "edit_history") (VArr [])) = Normal history ->
  let user := getCurrentUser (here w) in
  let item := updated_item oldItem data history t1 t2
                (or_else (Some userId) (uid user)) (uname user) in
  EntityClient.update_after_read n id data userId t1 t2 items w
  = (Normal (VObj item),
     snd (setStorage n (<[index := item]> items)
            ("Update " +:+ n +:+ ": " +:+ to_String id) w)).
Proof.
  intros Hidx Hch Hel. cbv zeta. unfold EntityClient.update_after_read.
  unfold current_user at 1. unfold bind at 1. rewrite Hidx.
  destruct (changes_of oldItem data) as [|c cs]; [done|].
  unfold lift, bind at 1. rewrite Hel. by rewrite write_then_ret.
Qed.

Lemma delete_after_read_eq n id items w :
  EntityClient.delete_after_read n id items w
  = (Normal (VBool true),
     snd (setStorage n (List.filter (fun item => negb (string_equal "id" id item)) items)
            ("Delete " +:+ n +:+ ": " +:+ to_String id) w)).
Proof. unfold EntityClient.delete_after_read. by rewrite write_then_ret. Qed.

Lemma toggleLike_after_read_eq n id a items w index found item :
  findIndex (string_equal "id" id) items = Some (index, found) ->
  toggle "likes" "dislikes" a (ensure_array "dislikes" (ensure_array "likes" found))
    = Normal item ->
  EntityClient.toggleLike_after_read n id a items w
  = (Normal (VObj item),
     snd (setStorage n (<[index := item]> items)
            ("Toggle Like " +:+ n +:+ ": " +:+ to_String id) w)).
Proof.
  intros Hidx Ht. unfold EntityClient.toggleLike_after_read. rewrite Hidx.
  unfold lift, bind at 1. rewrite Ht. by rewrite write_then_ret.
Qed.

Lemma toggleDislike_after_read_eq n id a items w index found item :
  findIndex (string_equal "id" id) items = Some (index, found) ->
  toggle "dislikes" "likes" a (ensure_array "dislikes" (ensure_array "likes" found))
    = Normal item ->
  EntityClient.toggleDislike_after_read n id a items w
  = (Normal (VObj item),
     snd (setStorage n (<[index := item]> items)
            ("Toggle Dislike " +:+ n +:+ ": " +:+ to_String id) w)).
Proof.
  intros Hidx Ht. unfold EntityClient.toggleDislike_after_read. rewrite Hidx.
  unfold lift, bind at 1. rewrite Ht. by rewrite write_then_ret.
Qed.

(** ** create *)

Lemma create_runs n data userId random36 created updated w w1 items :
  getStorage n w = (Normal items, w1) ->
  let user := getCurrentUser (here w1) in
  let item := new_item data (random_id random36) created updated
                (or_else (Some userId) (uid user)) (uname user) in
  exists w2,
    EntityClient.create n data userId random36 created updated w
      = (Normal (VObj item), w2)
    /\ persisted n (items ++ [item]) w2.
Proof.
  intros Hread user item. eexists.
  unfold EntityClient.create. rewrite (bind_normal _ _ _ _ _ Hread).
  rewrite create_after_read_eq. split; [reflexivity | apply setStorage_persisted].
Qed.

(** The ten keys written after [...data] win over the payload. *)
Lemma new_item_props data id created updated by_id by_name :
  let item := new_item data id created updated by_id by_name in
  prop item "id" = Some (VStr id)
  /\ prop item "created_date" = Some (VStr created)
  /\ prop item "created_by" = Some by_id
  /\ prop item "created_by_name" = Some by_name
  /\ prop item "updated_date" = Some (VStr updated)
  /\ prop item "updated_by" = Some by_id
  /\ prop item "updated_by_name" = Some by_name
  /\ prop item "likes" = Some (VArr [])
  /\ prop item "dislikes" = Some (VArr [])
  /\ prop item "edit_history" = Some (VArr []).
Proof.
  cbv zeta. unfold new_item.
  repeat split; (apply prop_spread_some; [by_evaluation | reflexivity]).
Qed.

(** C10. For every [create(payload)], the system-assigned fields of the
    record that is returned and stored (id, created_date, created_by,
    created_by_name, updated_date, updated_by, updated_by_name, likes,
    dislikes, edit_history) hold the generated values whatever the payload
    holds under those names; likes, dislikes and edit_history are empty. *)
Theorem create_sets_system_fields n data userId random36 created updated w w1 items :
  getStorage n w = (Normal items, w1) ->
  let user := getCurrentUser (here w1) in
  let actor := or_else (Some userId) (uid user) in
  exists item w2,
    EntityClient.create n data userId random36 created updated w
      = (Normal (VObj item), w2)
    /\ persisted n (items ++ [item]) w2
    /\ prop item "id" = Some (VStr (random_id random36))
    /\ prop item "created_date" = Some (VStr created)
    /\ prop item "created_by" = Some actor
    /\ prop item "created_by_name" = Some (uname user)
    /\ prop item "updated_date" = Some (VStr updated)
    /\ prop item "updated_by" = Some actor
    /\ prop item "updated_by_name" = Some (uname user)
    /\ prop item "likes" = Some (VArr [])
    /\ prop item "dislikes" = Some (VArr [])
    /\ prop item "edit_history" = Some (VArr []).
Proof.
  intros Hread user actor.
  destruct (create_runs n data userId random36 created updated w w1 items Hread)
    as (w2 & Hrun & Hp).
  eexists. exists w2. split; [exact Hrun|]. split; [exact Hp|].
  apply new_item_props.
Qed.

Lemma create_sets_system_fields_witness :
  exists item w2,
    EntityClient.create "Product"
      [("id", VStr "mine"); ("likes", VArr [VStr "bob"]); ("name", VStr "tea")]
      VNull "0.4fzyo82mvyr" "2026-01-01T09:00:00.000Z" "2026-01-01T09:00:00.001Z"
      (on_device "Product" [milk])
    = (Normal (VObj item), w2)
    /\ prop item "id" = Some (VStr "4fzyo82mv")
    /\ prop item "likes" = Some (VArr [])
    /\ prop item "name" = Some (VStr "tea").
Proof.
  destruct (create_sets_system_fields "Product"
              [("id", VStr "mine"); ("likes", VArr [VStr "bob"]); ("name", VStr "tea")]
              VNull "0.4fzyo82mvyr" "2026-01-01T09:00:00.000Z"
              "2026-01-01T09:00:00.001Z"
              (on_device "Product" [milk]) (on_device "Product" [milk]) [milk]
              eq_refl)
    as (item & w2 & Hrun & _ & Hid & _ & _ & _ & _ & _ & _ & Hlikes & _).
  exists item, w2. split; [exact Hrun|]. split; [exact Hid|]. split; [exact Hlikes|].
  vm_compute in Hrun. injection Hrun as <- _. reflexivity.
Defined.

Lemma length_substring_le n m s : String.length (substring n m s) <= m.
Proof.
  revert n m. induction s as [|c s IH]; intros [|n] [|m]; simpl; try lia.
  - specialize (IH 0 m). lia.
  - apply (IH n 0).
  - apply (IH n (S m)).
Qed.

Lemma length_substring_eq n m s :
  n + m <= String.length s -> String.length (substring n m s) = m.
Proof.
  revert n m. induction s as [|c s IH]; intros [|n] [|m]; simpl; try lia.
  - intros H. rewrite (IH 0 m); lia.
  - intros H. apply (IH n 0). lia.
  - intros H. apply (IH n (S m)). lia.
Qed.

Lemma forallb_substring0 p m s :
  forallb p (list_ascii_of_string s) = true ->
  forallb p (list_ascii_of_string (substring 0 m s)) = true.
Proof.
  revert m. induction s as [|c s IH]; intros [|m]; simpl; try done.
  intros H. apply andb_true_iff in H as [-> H]. simpl. by apply IH.
Qed.

Lemma random_id_digits random36 :
  base36_text random36 = true ->
  forallb base36_digit (list_ascii_of_string (random_id random36)) = true.
Proof.
  unfold base36_text, random_id.
  destruct random36 as [|c0 [|c1 digits]]; try done.
  destruct (ascii_dec c0 "0") as [->|]; [|by destruct c0 as [[] [] [] [] [] [] [] []]].
  destruct (ascii_dec c1 ".") as [->|]; [|by destruct c1 as [[] [] [] [] [] [] [] []]].
  intros H. apply andb_true_iff in H as [_ H].
  change (substring 2 9 (String "0" (String "." digits))) with (substring 0 9 digits).
  by apply forallb_substring0.
Qed.

(** C7, as the code has it.  The id of a new record is cut from the base-36
    text of a random number: the characters after the first two, nine at
    most, each a digit or a lower-case letter; nine when the text has at
    least eleven characters and fewer otherwise.  The record is appended
    whatever ids the collection already holds: no id is compared. *)
Theorem create_id_is_random_text n data userId random36 created updated w w1 items :
  getStorage n w = (Normal items, w1) ->
  base36_text random36 = true ->
  exists item w2,
    EntityClient.create n data userId random36 created updated w
      = (Normal (VObj item), w2)
    /\ prop item "id" = Some (VStr (random_id random36))
    /\ String.length (random_id random36) <= 9
    /\ (11 <= String.length random36 -> String.length (random_id random36) = 9)
    /\ forallb base36_digit (list_ascii_of_string (random_id random36)) = true
    /\ persisted n (items ++ [item]) w2.
Proof.
  intros Hread Htext.
  destruct (create_runs n data userId random36 created updated w w1 items Hread)
    as (w2 & Hrun & Hp).
  eexists. exists w2. split; [exact Hrun|].
  split; [apply new_item_props|].
  repeat split; try done.
  - apply length_substring_le.
  - intros H. apply length_substring_eq. lia.
  - by apply random_id_digits.
Qed.

Lemma create_id_is_random_text_witness :
  exists item w2,
    EntityClient.create "Product" [("name", VStr "tea")] VNull "0.4fzyo82mvyr"
      "2026-01-01T09:00:00.000Z" "2026-01-01T09:00:00.001Z"
      (on_device "Product" [milk])
    = (Normal (VObj item), w2)
    /\ prop item "id" = Some (VStr "4fzyo82mv")
    /\ persisted "Product" [milk; item] w2.
Proof.
  destruct (create_id_is_random_text "Product" [("name", VStr "tea")] VNull
              "0.4fzyo82mvyr" "2026-01-01T09:00:00.000Z" "2026-01-01T09:00:00.001Z"
              (on_device "Product" [milk]) (on_device "Product" [milk]) [milk]
              eq_refl eq_refl)
    as (item & w2 & Hrun & Hid & _ & _ & _ & Hp).
  by exists item, w2.
Defined.

(** C7 fails as stated: when [Math.random()] draws 0.5, whose base-36 text
    is "0.i", the id is the single character "i", and it is given to the
    new record although the collection holds a record with that id. *)
Lemma create_id_short_and_taken :
  base36_text "0.i" = true
  /\ fst (getStorage "Product"
            (on_device "Product" [[("id", VStr "i"); ("name", VStr "milk")]]))
     = Normal [[("id", VStr "i"); ("name", VStr "milk")]]
  /\ fst (EntityClient.create "Product" [("name", VStr "bread")] VNull "0.i"
            "2026-01-01T00:00:00.000Z" "2026-01-01T00:00:00.000Z"
            (on_device "Product" [[("id", VStr "i"); ("name", VStr "milk")]]))
     = Normal (VObj [("name", VStr "bread"); ("id", VStr "i");
                     ("created_date", VStr "2026-01-01T00:00:00.000Z");
                     ("created_by", VStr "anonymous");
                     ("created_by_name", VStr "Anonymous");
                     ("updated_date", VStr "2026-01-01T00:00:00.000Z");
                     ("updated_by", VStr "anonymous");
                     ("updated_by_name", VStr "Anonymous");
                     ("likes", VArr []); ("dislikes", VArr []);
                     ("edit_history", VArr [])])
  /\ String.length (random_id "0.i") = 1.
Proof. vm_compute. done. Qed.

(** ** update *)

Lemma changed_true oldItem data k :
  k <> "edit_history" ->
  JSON_stringify (prop oldItem k) <> JSON_stringify (prop data k) ->
  changed oldItem data k = true.
Proof.
  intros Hk Hne. unfold changed.
  destruct (String.eqb_spec k "edit_history"); [done|]. simpl.
  by apply bool_decide_eq_true.
Qed.

Lemma changed_inv oldItem data k :
  changed oldItem data k = true ->
  k <> "edit_history"
  /\ JSON_stringify (prop oldItem k) <> JSON_stringify (prop data k).
Proof.
  unfold changed. intros H. apply andb_true_iff in H as [H1 H2].
  split.
  - intros ->. done.
  - by apply bool_decide_eq_true in H2.
Qed.

(** The changes are those of the payload's keys that pass the test. *)
Lemma elem_of_changes_of oldItem data c :
  c ∈ changes_of oldItem data <->
  exists k, k ∈ keys data /\ changed oldItem data k = true /\ c = change oldItem data k.
Proof.
  unfold changes_of. rewrite list_elem_of_In, in_map_iff. split.
  - intros (k & <- & Hin). apply filter_In in Hin as [Hin Hc].
    exists k. by rewrite list_elem_of_In.
  - intros (k & Hin & Hc & ->). exists k. split; [done|].
    apply filter_In. by rewrite <- list_elem_of_In.
Qed.

Lemma change_fields oldItem data k v :
  prop data k = Some v ->
  exists c, change oldItem data k = VObj c
    /\ prop c "field" = Some (VStr k)
    /\ prop c "old" = prop oldItem k
    /\ prop c "new" = Some v.
Proof.
  intros Hv. unfold change. rewrite Hv. eexists. split; [reflexivity|].
  destruct (prop oldItem k); done.
Qed.

Lemma updated_item_props oldItem data history t1 t2 by_id by_name :
  let item := updated_item oldItem data history t1 t2 by_id by_name in
  prop item "updated_date" = Some (VStr t2)
  /\ prop item "updated_by" = Some by_id
  /\ prop item "updated_by_name" = Some by_name
  /\ prop item "edit_history" =
       Some (VArr (history ++
         [VObj [("timestamp", VStr t1); ("user_id", by_id); ("user_name", by_name);
                ("changes", VArr (changes_of oldItem data))]]))
  /\ (forall k, k ∉ ["updated_date"; "updated_by"; "updated_by_name"; "edit_history"] ->
        prop item k = prop (spread oldItem data) k).
Proof.
  simpl. unfold updated_item.
  repeat split.
  1-4: apply prop_spread_some; [by_evaluation | reflexivity].
  intros k Hk. by apply prop_spread_other.
Qed.

(** C2. An [update(id, payload)] on a record that exists, with payload
    fields [a] and [b] whose serialized values differ from the stored
    ones, appends exactly one entry to the record's edit_history: the
    new history is the stored array ([history], empty when the record has
    none) followed by the entry.  The entry lists both fields, each with
    [old] the stored value and [new] the payload's, and only keys of the
    payload other than edit_history whose serialized value changed;
    updated_date, updated_by and updated_by_name are set anew, the
    collection with the merged record in the old one's place is
    persisted, and the merged record is returned. *)
Theorem update_appends_one_history_entry
    n id data userId t1 t2 a b w w1 items index oldItem history :
  getStorage n w = (Normal items, w1) ->
  findIndex (string_equal "id" id) items = Some (index, oldItem) ->
  NoDup (keys data) ->
  a ∈ keys data -> b ∈ keys data -> a <> b ->
  a <> "edit_history" -> b <> "edit_history" ->
  JSON_stringify (prop oldItem a) <> JSON_stringify (prop data a) ->
  JSON_stringify (prop oldItem b) <> JSON_stringify (prop data b) ->
  (prop oldItem "edit_history" = Some (VArr history)
   \/ (truthy (prop oldItem "edit_history") = false /\ history = [])) ->
  let user := getCurrentUser (here w1) in
  let actor := or_else (Some userId) (uid user) in
  exists item changes ca cb w2,
    EntityClient.update n id data userId t1 t2 w = (Normal (VObj item), w2)
    /\ persisted n (<[index := item]> items) w2
    /\ prop item "edit_history" =
         Some (VArr (history ++
           [VObj [("timestamp", VStr t1); ("user_id", actor);
                  ("user_name", uname user); ("changes", VArr changes)]]))
    /\ VObj ca ∈ changes /\ VObj cb ∈ changes
    /\ prop ca "field" = Some (VStr a) /\ prop ca "old" = prop oldItem a
    /\ prop ca "new" = prop data a
    /\ prop cb "field" = Some (VStr b) /\ prop cb "old" = prop oldItem b
    /\ prop cb "new" = prop data b
    /\ (forall c, c ∈ changes ->
          exists k, k ∈ keys data /\ k <> "edit_history"
            /\ JSON_stringify (prop oldItem k) <> JSON_stringify (prop data k)
            /\ c = change oldItem data k)
    /\ prop item "updated_date" = Some (VStr t2)
    /\ prop item "updated_by" = Some actor
    /\ prop item "updated_by_name" = Some (uname user)
    /\ (forall k, k ∉ ["updated_date"; "updated_by"; "updated_by_name"; "edit_history"] ->
          prop item k = match prop data k with
                        | Some v => Some v
                        | None => prop oldItem k
                        end).
Proof.
  intros Hread Hidx Hnd Ha Hb Hab Hae Hbe Hca Hcb Hstored user actor.
  assert (Hhist : elements_of (or_else (prop oldItem "edit_history") (VArr []))
                  = Normal history).
  { destruct Hstored as [->|[Hfalsy ->]]; [reflexivity|].
    unfold or_else. destruct (prop oldItem "edit_history"); [|reflexivity].
    by rewrite Hfalsy. }
  assert (Hina : change oldItem data a ∈ changes_of oldItem data).
  { apply elem_of_changes_of. exists a. split; [done|]. split; [by apply changed_true|done]. }
  assert (Hinb : change oldItem data b ∈ changes_of oldItem data).
  { apply elem_of_changes_of. exists b. split; [done|]. split; [by apply changed_true|done]. }
  destruct (prop data a) as [va|] eqn:Hva.
  2:{ apply prop_None_keys in Hva. done. }
  destruct (prop data b) as [vb|] eqn:Hvb.
  2:{ apply prop_None_keys in Hvb. done. }
  destruct (change_fields oldItem data a va Hva) as (ca & Eca & Fa1 & Fa2 & Fa3).
  destruct (change_fields oldItem data b vb Hvb) as (cb & Ecb & Fb1 & Fb2 & Fb3).
  pose proof (updated_item_props oldItem data history t1 t2 actor (uname user))
    as (P1 & P2 & P3 & P4 & P5).
  exists (updated_item oldItem data history t1 t2 actor (uname user)),
    (changes_of oldItem data), ca, cb.
  eexists. split.
  { unfold EntityClient.update. rewrite (bind_normal _ _ _ _ _ Hread).
    apply update_after_read_eq; [done| |done].
    intros Hnil. rewrite Hnil in Hina. by apply elem_of_nil in Hina. }
  split; [apply setStorage_persisted|].
  split; [exact P4|].
  rewrite <- Eca, <- Ecb.
  repeat split; try done.
  - intros c Hc. apply elem_of_changes_of in Hc as (k & Hk & Hch & ->).
    apply changed_inv in Hch as [? ?]. by exists k.
  - intros k Hk. rewrite (P5 k Hk). by apply prop_spread.
Qed.

(** A record that was edited once already: the entry it has stays first,
    and the new one comes after it. *)
Lemma update_appends_one_history_entry_witness :
  exists item changes w2,
    EntityClient.update "Product" (VStr "p5")
      [("name", VStr "oat milk"); ("price", VNum 3)] VNull
      "2026-01-02T10:00:00.000Z" "2026-01-02T10:00:00.001Z"
      (on_device "Product" [edited; bread])
    = (Normal (VObj item), w2)
    /\ prop item "edit_history" =
       Some (VArr [VStr "e1";
                   VObj [("timestamp", VStr "2026-01-02T10:00:00.000Z");
                         ("user_id", VStr "anonymous");
                         ("user_name", VStr "Anonymous");
                         ("changes", VArr changes)]])
    /\ persisted "Product" [item; bread] w2.
Proof.
  destruct (update_appends_one_history_entry "Product" (VStr "p5")
              [("name", VStr "oat milk"); ("price", VNum 3)] VNull
              "2026-01-02T10:00:00.000Z" "2026-01-02T10:00:00.001Z"
              "name" "price" (on_device "Product" [edited; bread])
              (on_device "Product" [edited; bread]) [edited; bread] 0%nat edited
              [VStr "e1"])
    as (item & changes & ca & cb & w2 & Hrun & Hp & Hh & _).
  - reflexivity.
  - reflexivity.
  - by_evaluation.
  - by_evaluation.
  - by_evaluation.
  - discriminate.
  - discriminate.
  - discriminate.
  - vm_compute. discriminate.
  - vm_compute. discriminate.
  - left. reflexivity.
  - exists item, changes, w2. split; [exact Hrun|]. split; [exact Hh|exact Hp].
Defined.

(** C3. An [update(id, payload)] on a record that exists, where every
    field of the payload serializes as the stored record's field does,
    makes no history entry and leaves updated_date alone: it returns the
    record as it is stored, and writes to neither store. *)
Theorem update_without_change n id data userId t1 t2 w w1 items index oldItem :
  getStorage n w = (Normal items, w1) ->
  findIndex (string_equal "id" id) items = Some (index, oldItem) ->
  (forall k, k ∈ keys data ->
     JSON_stringify (prop oldItem k) = JSON_stringify (prop data k)) ->
  EntityClient.update n id data userId t1 t2 w = (Normal (VObj oldItem), w1)
  /\ items !! index = Some oldItem
  /\ there w1 = there w
  /\ localStorage (here w1) = localStorage (here w).
Proof.
  intros Hread Hidx Hsame.
  assert (Hnil : changes_of oldItem data = []).
  { destruct (changes_of oldItem data) as [|c cs] eqn:Hcs; [done|].
    assert (Hc : c ∈ changes_of oldItem data) by (rewrite Hcs; left).
    apply elem_of_changes_of in Hc as (k & Hk & Hch & _).
    apply changed_inv in Hch as [_ Hne]. by specialize (Hsame k Hk). }
  split.
  { unfold EntityClient.update. rewrite (bind_normal _ _ _ _ _ Hread).
    unfold EntityClient.update_after_read, current_user, bind.
    by rewrite Hidx, Hnil. }
  split; [by apply findIndex_Some in Hidx as [? _]|].
  pose proof (getStorage_reads_only n w) as (H1 & H2 & _).
  rewrite Hread in H1, H2. by simpl in *.
Qed.

Lemma update_without_change_witness :
  EntityClient.update "Product" (VStr "p2")
    [("name", VStr "bread"); ("id", VStr "p2")] (VStr "u7")
    "2026-01-02T10:00:00.000Z" "2026-01-02T10:00:00.001Z"
    (on_device "Product" [milk; bread])
  = (Normal (VObj bread), on_device "Product" [milk; bread]).
Proof.
  apply (update_without_change "Product" (VStr "p2")
           [("name", VStr "bread"); ("id", VStr "p2")] (VStr "u7")
           "2026-01-02T10:00:00.000Z" "2026-01-02T10:00:00.001Z"
           (on_device "Product" [milk; bread]) (on_device "Product" [milk; bread])
           [milk; bread] 1%nat bread).
  - reflexivity.
  - reflexivity.
  - intros k Hk. simpl in Hk.
    apply elem_of_cons in Hk as [->|Hk]; [reflexivity|].
    apply elem_of_cons in Hk as [->|Hk]; [reflexivity|].
    by apply elem_of_nil in Hk.
Defined.

(** ** An id that matches no record *)

(** When getStorage answers and the id matches no record of the
    collection read, [get],
    [update], [toggleLike] and [toggleDislike] complete normally with an
    absent result (undefined for [get], null for the others), leaving
    the stores as the read left them; and every [delete], whether its id
    matches or not, completes with [true] and persists the collection
    without the matching records, which is the whole collection when no
    record matches. *)
Lemma absent_id_is_no_error n id w w1 items :
  getStorage n w = (Normal items, w1) ->
  Forall (fun item => string_equal "id" id item = false) items ->
  EntityClient.get n id w = (Normal None, w1)
  /\ (forall data userId t1 t2,
        EntityClient.update n id data userId t1 t2 w = (Normal VNull, w1))
  /\ (forall userId, EntityClient.toggleLike n id userId w = (Normal VNull, w1))
  /\ (forall userId, EntityClient.toggleDislike n id userId w = (Normal VNull, w1))
  /\ (forall id', exists w2,
        EntityClient.delete n id' w = (Normal (VBool true), w2)
        /\ persisted n
             (List.filter (fun item => negb (string_equal "id" id' item)) items) w2)
  /\ List.filter (fun item => negb (string_equal "id" id item)) items = items.
Proof.
  intros Hread Hnone.
  pose proof (findIndex_None _ _ Hnone) as Hidx.
  repeat split.
  - unfold EntityClient.get. rewrite (bind_normal _ _ _ _ _ Hread).
    unfold ret. by rewrite (find_None _ _ Hnone).
  - intros. unfold EntityClient.update. rewrite (bind_normal _ _ _ _ _ Hread).
    unfold EntityClient.update_after_read, current_user, bind. by rewrite Hidx.
  - intros. unfold EntityClient.toggleLike. rewrite (bind_normal _ _ _ _ _ Hread).
    unfold EntityClient.toggleLike_after_read. by rewrite Hidx.
  - intros. unfold EntityClient.toggleDislike. rewrite (bind_normal _ _ _ _ _ Hread).
    unfold EntityClient.toggleDislike_after_read. by rewrite Hidx.
  - intros id'. eexists. unfold EntityClient.delete.
    rewrite (bind_normal _ _ _ _ _ Hread). rewrite delete_after_read_eq.
    split; [reflexivity | apply setStorage_persisted].
  - apply filter_all. eapply Forall_impl; [exact Hnone|].
    intros item Hitem. simpl in Hitem. by rewrite Hitem.
Qed.

Example absent_id_on_device :
  EntityClient.get "Product" (VStr "p9") (on_device "Product" [milk; bread])
  = (Normal None, on_device "Product" [milk; bread])
  /\ EntityClient.toggleLike "Product" (VStr "p9") (VStr "alice")
       (on_device "Product" [milk; bread])
     = (Normal VNull, on_device "Product" [milk; bread]).
Proof.
  destruct (absent_id_is_no_error "Product" (VStr "p9")
              (on_device "Product" [milk; bread]) (on_device "Product" [milk; bread])
              [milk; bread] eq_refl)
    as (Hget & _ & Hlike & _).
  - repeat constructor.
  - split; [exact Hget | exact (Hlike (VStr "alice"))].
Defined.

(** C9 does not hold of the code.  When the text stored for the entity is
    [null], getStorage reads [data.length] of it before validateData can
    put the empty collection in its place, and throws: [get], [update],
    [toggleLike] and [toggleDislike] with an id that matches no record
    throw instead of giving an absent result, and [delete] throws instead
    of reporting success, with nothing written.  So it is on the device
    and with the blob of the repository. *)
Theorem absent_id_raises_on_stored_null :
  validateData JsonNull = []
  /\ getStorage "Product" null_on_device = (Throw TypeError, null_on_device)
  /\ EntityClient.get "Product" (VStr "p9") null_on_device
     = (Throw TypeError, null_on_device)
  /\ EntityClient.update "Product" (VStr "p9") [("name", VStr "rye")] VNull
       "2026-01-03T08:00:00.000Z" "2026-01-03T08:00:00.001Z" null_on_device
     = (Throw TypeError, null_on_device)
  /\ EntityClient.toggleLike "Product" (VStr "p9") (VStr "alice") null_on_device
     = (Throw TypeError, null_on_device)
  /\ EntityClient.toggleDislike "Product" (VStr "p9") (VStr "alice") null_on_device
     = (Throw TypeError, null_on_device)
  /\ EntityClient.delete "Product" (VStr "p9") null_on_device
     = (Throw TypeError, null_on_device)
  /\ fst (EntityClient.get "Product" (VStr "p9") null_in_repository) = Throw TypeError
  /\ fst (EntityClient.toggleLike "Product" (VStr "p9") (VStr "alice") null_in_repository)
     = Throw TypeError
  /\ fst (EntityClient.delete "Product" (VStr "p9") null_in_repository) = Throw TypeError
  /\ there (snd (EntityClient.delete "Product" (VStr "p9") null_in_repository))
     = there null_in_repository.
Proof. vm_compute. done. Qed.

(** ** Reactions *)

Lemma strict_eq_VStr y u : strict_eq y (VStr u) = true <-> y = VStr u.
Proof.
  destruct y; simpl; try (split; [done | intros [=]]).
  rewrite String.eqb_eq. split; [by intros -> | by intros [= ->]].
Qed.

Lemma indexOf_None l u : indexOf l (VStr u) = None <-> VStr u ∉ l.
Proof.
  induction l as [|y l IH]; simpl.
  - split; [intros _; apply not_elem_of_nil | done].
  - destruct (strict_eq y (VStr u)) eqn:E.
    + apply strict_eq_VStr in E as ->. split; [done|]. intros H. exfalso. apply H. left.
    + rewrite not_elem_of_cons. destruct (indexOf l (VStr u)); simpl.
      * split; [done|]. intros [_ H]. by apply IH in H.
      * split; [|done]. intros _. split; [|by apply IH].
        intros Heq. symmetry in Heq. apply strict_eq_VStr in Heq. congruence.
Qed.

Lemma indexOf_Some l u i : indexOf l (VStr u) = Some i -> l !! i = Some (VStr u).
Proof.
  revert i. induction l as [|y l IH]; intros i; simpl; [done|].
  destruct (strict_eq y (VStr u)) eqn:E.
  - apply strict_eq_VStr in E as ->. by intros [= <-].
  - destruct (indexOf l (VStr u)) as [j|]; simpl; [|done].
    intros [= <-]. simpl. by apply IH.
Qed.


Section splice.
Context (i : nat) (l : list value).

Lemma splice1_delete : splice1 i l = delete i l.
Proof. unfold splice1. by rewrite delete_take_drop. Qed.

Lemma splice1_Permutation x : l !! i = Some x -> l ≡ₚ x :: splice1 i l.
Proof. intros H. rewrite splice1_delete. by apply delete_Permutation. Qed.

Lemma splice1_subset x : x ∈ splice1 i l -> x ∈ l.
Proof.
  rewrite splice1_delete. intros H.
  eapply elem_of_sublist; [exact H | apply sublist_delete].
Qed.

Lemma splice1_NoDup : NoDup l -> NoDup (splice1 i l).
Proof.
  rewrite splice1_delete. intros H.
  eapply sublist_NoDup; [exact H | apply sublist_delete].
Qed.

Lemma splice1_removes x : NoDup l -> l !! i = Some x -> x ∉ splice1 i l.
Proof.
  intros Hnd Hi. pose proof (splice1_Permutation x Hi) as Hp.
  rewrite Hp in Hnd. by apply NoDup_cons in Hnd as [? _].
Qed.
End splice.

Lemma NoDup_pushed (l : list value) x : NoDup l -> x ∉ l -> NoDup (l ++ [x]).
Proof.
  intros Hl Hx. apply NoDup_app. split; [done|]. split; [|apply NoDup_singleton].
  intros y Hy Hy'. by apply list_elem_of_singleton in Hy' as ->.
Qed.

(** A toggle keeps two duplicate-free arrays duplicate-free and disjoint. *)
Lemma toggled_exclusive L D u :
  NoDup L -> NoDup D -> (forall a, a ∈ L -> a ∉ D) ->
  NoDup (toggled_own L (VStr u)) /\ NoDup (toggled_other L D (VStr u))
  /\ forall a, a ∈ toggled_own L (VStr u) -> a ∉ toggled_other L D (VStr u).
Proof.
  intros HL HD Hdisj. unfold toggled_own, toggled_other.
  destruct (indexOf L (VStr u)) as [i|] eqn:Hi.
  - split; [by apply splice1_NoDup|]. split; [done|].
    intros a Ha. apply Hdisj. by apply splice1_subset in Ha.
  - apply indexOf_None in Hi.
    split; [by apply NoDup_pushed|].
    destruct (indexOf D (VStr u)) as [j|] eqn:Hj.
    + apply indexOf_Some in Hj.
      split; [by apply splice1_NoDup|].
      intros a Ha. apply elem_of_app in Ha as [Ha|Ha].
      * intros Hin. apply splice1_subset in Hin. by apply (Hdisj a).
      * apply list_elem_of_singleton in Ha as ->. by apply splice1_removes.
    + apply indexOf_None in Hj. split; [done|].
      intros a Ha. apply elem_of_app in Ha as [Ha|Ha]; [by apply Hdisj|].
      by apply list_elem_of_singleton in Ha as ->.
Qed.



Lemma reactions_VArr item k l : prop item k = Some (VArr l) -> reactions item k = Some l.
Proof. unfold reactions. by intros ->. Qed.

Lemma reactions_ensure item k L :
  reactions item k = Some L -> prop (ensure_array k item) k = Some (VArr L).
Proof.
  unfold reactions, ensure_array.
  destruct (prop item k) as [v|] eqn:Hp; [destruct v|]; simpl.
  - intros [= <-]. apply prop_set_prop_eq.
  - destruct b; [done|]. intros [= <-]. apply prop_set_prop_eq.
  - destruct (n =? 0)%Z; simpl; [|done]. intros [= <-]. apply prop_set_prop_eq.
  - destruct (String.eqb s ""); simpl; [|done]. intros [= <-]. apply prop_set_prop_eq.
  - by intros [= <-].
  - done.
  - intros [= <-]. apply prop_set_prop_eq.
Qed.

Lemma prop_ensure_other item k k' :
  k <> k' -> prop (ensure_array k item) k' = prop item k'.
Proof.
  intros Hne. unfold ensure_array. destruct (truthy _); [done|].
  by apply prop_set_prop_ne.
Qed.

Lemma reactions_ensure_other item k k' :
  k <> k' -> reactions (ensure_array k item) k' = reactions item k'.
Proof. intros Hne. unfold reactions. by rewrite prop_ensure_other. Qed.

(** The record the toggles work on, once both arrays are there. *)
Lemma ensured_arrays item L D :
  reactions item "likes" = Some L -> reactions item "dislikes" = Some D ->
  let item0 := ensure_array "dislikes" (ensure_array "likes" item) in
  prop item0 "likes" = Some (VArr L) /\ prop item0 "dislikes" = Some (VArr D)
  /\ forall k, k <> "likes" -> k <> "dislikes" -> prop item0 k = prop item k.
Proof.
  intros HL HD. simpl. split; [|split].
  - rewrite prop_ensure_other by done. by apply reactions_ensure.
  - apply reactions_ensure. by rewrite reactions_ensure_other.
  - intros k H1 H2. rewrite !prop_ensure_other by done. done.
Qed.

Lemma toggle_spec mine other a item L D :
  mine <> other ->
  prop item mine = Some (VArr L) -> prop item other = Some (VArr D) ->
  exists item',
    toggle mine other a item = Normal item'
    /\ prop item' mine = Some (VArr (toggled_own L a))
    /\ prop item' other = Some (VArr (toggled_other L D a))
    /\ forall k, k <> mine -> k <> other -> prop item' k = prop item k.
Proof.
  intros Hne HL HD. unfold toggle, toggled_own, toggled_other. rewrite HL.
  assert (Hne' : other <> mine) by congruence.
  destruct (indexOf L a) as [i|].
  - eexists. split; [reflexivity|].
    repeat split; [..|intros k H1 H2]; by autorewrite with props.
  - autorewrite with props. rewrite HD.
    destruct (indexOf D a) as [j|]; (eexists; split; [reflexivity|]);
      (repeat split; [..|intros k H1 H2]; by autorewrite with props).
Qed.

(** One toggle of a session in sync, from its read to what the next read
    finds; the second lemma is the first with the two arrays exchanged. *)
Lemma toggleLike_step n id a w items index item L D :
  in_sync n w -> fst (getStorage n w) = Normal items ->
  findIndex (string_equal "id" id) items = Some (index, item) ->
  reactions item "likes" = Some L -> reactions item "dislikes" = Some D ->
  exists item',
    let w' := snd (EntityClient.toggleLike n id a w) in
    fst (EntityClient.toggleLike n id a w) = Normal (VObj item')
    /\ in_sync n w'
    /\ fst (getStorage n w') = Normal (<[index := item']> items)
    /\ findIndex (string_equal "id" id) (<[index := item']> items) = Some (index, item')
    /\ reactions item' "likes" = Some (toggled_own L a)
    /\ reactions item' "dislikes" = Some (toggled_other L D a).
Proof.
  intros Hs Hread Hidx HL HD.
  destruct (getStorage n w) as [c w1] eqn:Hget. simpl in Hread. subst c.
  destruct (getStorage_again n w w1 items Hs Hget) as [Hs1 _].
  destruct (ensured_arrays item L D HL HD) as (E1 & E2 & E3).
  destruct (toggle_spec "likes" "dislikes" a _ L D ltac:(done) E1 E2)
    as (item' & Ht & T1 & T2 & T3).
  exists item'. cbv zeta.
  unfold EntityClient.toggleLike. rewrite (bind_normal _ _ _ _ _ Hget).
  rewrite (toggleLike_after_read_eq _ _ _ _ _ _ _ _ Hidx Ht). cbn [fst snd].
  destruct (setStorage_in_sync n (<[index := item']> items)
              ("Toggle Like " +:+ n +:+ ": " +:+ to_String id) w1 Hs1) as [S1 S2].
  repeat split; try done.
  - apply findIndex_insert with item; [done|].
    pose proof (findIndex_Some _ _ _ _ Hidx) as (_ & Hp & _).
    rewrite (string_equal_same_prop "id" id item item'); [exact Hp|].
    rewrite T3 by done. by apply E3.
  - by apply reactions_VArr.
  - by apply reactions_VArr.
Qed.

Lemma toggleDislike_step n id a w items index item L D :
  in_sync n w -> fst (getStorage n w) = Normal items ->
  findIndex (string_equal "id" id) items = Some (index, item) ->
  reactions item "likes" = Some L -> reactions item "dislikes" = Some D ->
  exists item',
    let w' := snd (EntityClient.toggleDislike n id a w) in
    fst (EntityClient.toggleDislike n id a w) = Normal (VObj item')
    /\ in_sync n w'
    /\ fst (getStorage n w') = Normal (<[index := item']> items)
    /\ findIndex (string_equal "id" id) (<[index := item']> items) = Some (index, item')
    /\ reactions item' "dislikes" = Some (toggled_own D a)
    /\ reactions item' "likes" = Some (toggled_other D L a).
Proof.
  intros Hs Hread Hidx HL HD.
  destruct (getStorage n w) as [c w1] eqn:Hget. simpl in Hread. subst c.
  destruct (getStorage_again n w w1 items Hs Hget) as [Hs1 _].
  destruct (ensured_arrays item L D HL HD) as (E1 & E2 & E3).
  destruct (toggle_spec "dislikes" "likes" a _ D L ltac:(done) E2 E1)
    as (item' & Ht & T1 & T2 & T3).
  exists item'. cbv zeta.
  unfold EntityClient.toggleDislike. rewrite (bind_normal _ _ _ _ _ Hget).
  rewrite (toggleDislike_after_read_eq _ _ _ _ _ _ _ _ Hidx Ht). cbn [fst snd].
  destruct (setStorage_in_sync n (<[index := item']> items)
              ("Toggle Dislike " +:+ n +:+ ": " +:+ to_String id) w1 Hs1) as [S1 S2].
  repeat split; try done.
  - apply findIndex_insert with item; [done|].
    pose proof (findIndex_Some _ _ _ _ Hidx) as (_ & Hp & _).
    rewrite (string_equal_same_prop "id" id item item'); [exact Hp|].
    rewrite T3 by done. by apply E3.
  - by apply reactions_VArr.
  - by apply reactions_VArr.
Qed.




(** The same pair of calls against the repository: both writes are
    accepted, and the blob is back at the collection it held. *)
Example toggle_twice_on_repository :
  let w1 := snd (EntityClient.toggleLike "Product" (VStr "p1") (VStr "alice")
                   (World fresh_session repository_after_first_write)) in
  let w2 := snd (EntityClient.toggleLike "Product" (VStr "p1") (VStr "alice") w1) in
  remote_collection "Product" w1
  = Some (JsonArray [[("id", VStr "p1"); ("name", VStr "milk");
                      ("likes", VArr []); ("dislikes", VArr [])]; bread])
  /\ remote_collection "Product" w2 = Some (content first_write)
  /\ sha <$> files (there w2) !! "data/Product.json" = Some 3
  /\ localStorage (here w2) = ∅.
Proof. vm_compute. done. Qed.

(** ** The invariant of the reaction sets *)

Lemma exclusive_new_item data id c u by_id by_name :
  exclusive (new_item data id c u by_id by_name).
Proof.
  destruct (new_item_props data id c u by_id by_name)
    as (_ & _ & _ & _ & _ & _ & _ & Hl & Hd & _).
  exists [], [].
  split; [by apply reactions_VArr|]. split; [by apply reactions_VArr|].
  split; [apply NoDup_nil_2|]. split; [apply NoDup_nil_2|].
  intros a Ha. by apply elem_of_nil in Ha.
Qed.

Lemma exclusive_same_reactions item item' :
  prop item' "likes" = prop item "likes" ->
  prop item' "dislikes" = prop item "dislikes" ->
  exclusive item -> exclusive item'.
Proof.
  intros H1 H2 (L & D & HL & HD & H). exists L, D.
  unfold reactions in *. rewrite H1, H2. done.
Qed.

Lemma written_reads_exclusive n data msg w1 :
  in_sync n w1 -> Forall exclusive data ->
  reads_exclusive n (snd (setStorage n data msg w1)).
Proof.
  intros Hs Hd. destruct (setStorage_in_sync n data msg w1 Hs) as [_ H].
  by exists data.
Qed.

(** C4, as the code has it.  The invariant that holds is the data model's:
    in every record, likes and dislikes are duplicate-free arrays with no
    actor id in both.  For a session whose reads meet its writes, [create],
    [delete], [toggleLike] and [toggleDislike] (with a string as actor id)
    keep it in all records of the collection, and [update] keeps it when
    the payload carries neither likes nor dislikes. *)
Theorem reactions_stay_exclusive n w :
  in_sync n w -> reads_exclusive n w ->
  (forall data userId random36 created updated,
     reads_exclusive n
       (snd (EntityClient.create n data userId random36 created updated w)))
  /\ (forall id data userId t1 t2,
        prop data "likes" = None -> prop data "dislikes" = None ->
        reads_exclusive n (snd (EntityClient.update n id data userId t1 t2 w)))
  /\ (forall id, reads_exclusive n (snd (EntityClient.delete n id w)))
  /\ (forall id u, reads_exclusive n (snd (EntityClient.toggleLike n id (VStr u) w)))
  /\ (forall id u, reads_exclusive n (snd (EntityClient.toggleDislike n id (VStr u) w))).
Proof.
  intros Hs (items & Hread & Hex).
  destruct (getStorage n w) as [c w1] eqn:Hget. simpl in Hread. subst c.
  destruct (getStorage_again n w w1 items Hs Hget) as [Hs1 Hagain].
  assert (Hkeep : reads_exclusive n w1) by by exists items.
  split; [|split; [|split; [|split]]].
  - intros data userId random36 created updated.
    unfold EntityClient.create. rewrite (bind_normal _ _ _ _ _ Hget).
    rewrite create_after_read_eq. cbn [snd].
    apply written_reads_exclusive; [done|].
    apply Forall_app. split; [done|]. apply Forall_singleton, exclusive_new_item.
  - intros id data userId t1 t2 Hl Hd.
    unfold EntityClient.update. rewrite (bind_normal _ _ _ _ _ Hget).
    unfold EntityClient.update_after_read.
    unfold current_user at 1. unfold bind at 1.
    destruct (findIndex _ items) as [[index oldItem]|] eqn:Hidx; [|done].
    destruct (changes_of oldItem data) as [|c cs]; [done|].
    unfold lift, bind at 1.
    destruct (elements_of _) as [history|e]; [|done].
    rewrite write_then_ret. cbn [snd].
    apply written_reads_exclusive; [done|].
    apply Forall_insert; [done|].
    pose proof (findIndex_elem_of _ _ _ _ Hidx) as Hin.
    rewrite Forall_forall in Hex. specialize (Hex _ Hin).
    revert Hex.
    match goal with
    | |- _ -> exclusive (updated_item ?o ?d ?h ?a ?b ?i ?m) =>
        destruct (updated_item_props o d h a b i m) as (_ & _ & _ & _ & Hother)
    end.
    apply exclusive_same_reactions.
    + rewrite Hother by by_evaluation. apply prop_spread_other. by apply prop_None_keys.
    + rewrite Hother by by_evaluation. apply prop_spread_other. by apply prop_None_keys.
  - intros id. unfold EntityClient.delete. rewrite (bind_normal _ _ _ _ _ Hget).
    rewrite delete_after_read_eq. cbn [snd].
    apply written_reads_exclusive; [done|].
    rewrite Forall_forall in *. intros x Hx. apply Hex.
    apply list_elem_of_In in Hx. apply filter_In in Hx as [Hx _].
    by apply list_elem_of_In.
  - intros id u.
    destruct (findIndex (string_equal "id" id) items) as [[index item]|] eqn:Hidx.
    + pose proof (findIndex_elem_of _ _ _ _ Hidx) as Hin.
      pose proof Hex as Hex'. rewrite Forall_forall in Hex'.
      destruct (Hex' _ Hin) as (L & D & HL & HD & NL & ND & Hdisj).
      assert (Hread : fst (getStorage n w) = Normal items) by by rewrite Hget.
      destruct (toggleLike_step n id (VStr u) w items index item L D Hs Hread Hidx HL HD)
        as (item' & _ & _ & Hread' & _ & HL' & HD').
      simpl in *. eexists. split; [exact Hread'|].
      apply Forall_insert; [done|].
      destruct (toggled_exclusive L D u NL ND Hdisj) as (? & ? & ?).
      by exists (toggled_own L (VStr u)), (toggled_other L D (VStr u)).
    + unfold EntityClient.toggleLike. rewrite (bind_normal _ _ _ _ _ Hget).
      unfold EntityClient.toggleLike_after_read. by rewrite Hidx.
  - intros id u.
    destruct (findIndex (string_equal "id" id) items) as [[index item]|] eqn:Hidx.
    + pose proof (findIndex_elem_of _ _ _ _ Hidx) as Hin.
      pose proof Hex as Hex'. rewrite Forall_forall in Hex'.
      destruct (Hex' _ Hin) as (L & D & HL & HD & NL & ND & Hdisj).
      assert (Hread : fst (getStorage n w) = Normal items) by by rewrite Hget.
      destruct (toggleDislike_step n id (VStr u) w items index item L D Hs Hread Hidx HL HD)
        as (item' & _ & _ & Hread' & _ & HD' & HL').
      simpl in *. eexists. split; [exact Hread'|].
      apply Forall_insert; [done|].
      assert (Hdisj' : forall a, a ∈ D -> a ∉ L).
      { intros a Ha Hb. by apply (Hdisj a). }
      destruct (toggled_exclusive D L u ND NL Hdisj') as (? & ? & Hx).
      exists (toggled_other D L (VStr u)), (toggled_own D (VStr u)).
      repeat split; try done. intros a Ha Hb. by apply (Hx a).
    + unfold EntityClient.toggleDislike. rewrite (bind_normal _ _ _ _ _ Hget).
      unfold EntityClient.toggleDislike_after_read. by rewrite Hidx.
Qed.

Lemma reactions_stay_exclusive_witness :
  reads_exclusive "Product"
    (snd (EntityClient.toggleDislike "Product" (VStr "p3") (VStr "alice")
            (on_device "Product" [reviewed]))).
Proof.
  destruct (reactions_stay_exclusive "Product" (on_device "Product" [reviewed]))
    as (_ & _ & _ & _ & Hdislike).
  - left. reflexivity.
  - exists [reviewed]. split; [reflexivity|].
    apply Forall_singleton. exists [VStr "alice"], [].
    split; [reflexivity|]. split; [reflexivity|].
    split; [apply NoDup_singleton|]. split; [apply NoDup_nil_2|].
    intros a _ Ha. by apply elem_of_nil in Ha.
  - exact (Hdislike (VStr "p3") "alice").
Defined.

(** C4 fails as stated.  [update] merges whatever the payload holds under
    likes and dislikes: a payload with one actor in both leaves the
    stored record with that actor in both.  And a toggle removes one
    occurrence only: on a record whose dislikes name an actor twice,
    [toggleLike] by that actor leaves the actor in both arrays. *)
Lemma update_puts_actor_in_both :
  reactions_read "Product" (on_device "Product" [reviewed])
  = [(Some [VStr "alice"], Some [])]
  /\ reactions_read "Product"
       (snd (EntityClient.update "Product" (VStr "p3")
               [("likes", VArr [VStr "u1"]); ("dislikes", VArr [VStr "u1"])] VNull
               "2026-01-03T08:00:00.000Z" "2026-01-03T08:00:00.001Z"
               (on_device "Product" [reviewed])))
     = [(Some [VStr "u1"], Some [VStr "u1"])]
  /\ reactions_read "Product" (on_device "Product" [disliked_twice])
     = [(Some [], Some [VStr "u1"; VStr "u1"])]
  /\ reactions_read "Product"
       (snd (EntityClient.toggleLike "Product" (VStr "p4") (VStr "u1")
               (on_device "Product" [disliked_twice])))
     = [(Some [VStr "u1"], Some [VStr "u1"])].
Proof. vm_compute. done. Qed.

(** ** list *)

Lemma insert_sorted_Permutation cmp x l : insert_sorted cmp x l ≡ₚ x :: l.
Proof.
  induction l as [|y l IH]; simpl; [done|].
  destruct (cmp x y <=? 0)%Z; [done|]. rewrite IH. apply Permutation_swap.
Qed.

Lemma sort_with_Permutation cmp l : sort_with cmp l ≡ₚ l.
Proof.
  unfold sort_with. induction l as [|x l IH]; simpl; [done|].
  by rewrite insert_sorted_Permutation, IH.
Qed.

Lemma sorted_by_Permutation js_lt sort items : sorted_by js_lt sort items ≡ₚ items.
Proof.
  unfold sorted_by. destruct sort as [order|]; [|done].
  destruct (String.eqb order ""); [done|]. apply sort_with_Permutation.
Qed.

Lemma slice_to_subset limit (items : list record) r :
  r ∈ slice_to limit items -> r ∈ items.
Proof.
  unfold slice_to. destruct (0 <=? limit)%Z; intros H;
    (eapply elem_of_sublist; [exact H | apply sublist_take]).
Qed.

(** C6, as the code has it.  On a private entity type (ShoppingList), a
    [list] call with a truthy owner id returns only records of the
    collection whose user_id string-equals it.  With [owned] the whole of
    these in the order of the sort, the result is [owned] when no limit
    (or the limit 0) is given, its first [limit] records for a positive
    limit, and [owned] less its last [-limit] records for a negative one.
    On a shared entity type (Product, PriceEntry, Store, User) the owner
    argument has no effect on what [list] does. *)
Theorem list_owner_filter js_lt sort limit userId n w :
  (forall items w1,
   getStorage n w = (Normal items, w1) ->
   n ∈ PRIVATE_ENTITIES -> truthy (Some userId) = true ->
   exists owned result,
     EntityClient.list n js_lt sort limit userId w = (Normal result, w1)
     /\ owned = sorted_by js_lt sort (List.filter (string_equal "user_id" userId) items)
     /\ owned ≡ₚ List.filter (string_equal "user_id" userId) items
     /\ (forall r, r ∈ result ->
           r ∈ items /\ String_of (prop r "user_id") = to_String userId)
     /\ (limit = None \/ limit = Some 0%Z -> result = owned)
     /\ (forall k, limit = Some k -> (0 < k)%Z -> result = take (Z.to_nat k) owned)
     /\ (forall k, limit = Some k -> (k < 0)%Z ->
           result = take (length owned - Z.to_nat (- k)) owned))
  /\ (n ∈ SHARED_ENTITIES ->
      forall userId',
        EntityClient.list n js_lt sort limit userId' w
        = EntityClient.list n js_lt sort limit userId w).
Proof.
  split.
  - intros items w1 Hread Hn Ht.
    assert (Hp : includes PRIVATE_ENTITIES n = true).
    { apply list_elem_of_singleton in Hn as ->. reflexivity. }
    eexists _, _. unfold EntityClient.list. rewrite (bind_normal _ _ _ _ _ Hread).
    rewrite Hp, Ht. simpl andb. cbv iota.
    fold (sorted_by js_lt sort (List.filter (string_equal "user_id" userId) items)).
    split; [reflexivity|]. split; [reflexivity|].
    split; [apply sorted_by_Permutation|]. split; [|split; [|split]].
    + intros r Hr.
      assert (Hin : r ∈ sorted_by js_lt sort
                          (List.filter (string_equal "user_id" userId) items)).
      { destruct limit as [k|]; [|done].
        destruct (k =? 0)%Z; [done|]. by apply slice_to_subset in Hr. }
      rewrite sorted_by_Permutation in Hin.
      apply list_elem_of_In, filter_In in Hin as [Hin Hm].
      split; [by apply list_elem_of_In|].
      unfold string_equal in Hm. by apply String.eqb_eq in Hm.
    + by intros [->| ->].
    + intros k -> Hk. destruct (Z.eqb_spec k 0); [lia|].
      unfold slice_to. by destruct (Z.leb_spec 0 k); [|lia].
    + intros k -> Hk. destruct (Z.eqb_spec k 0); [lia|].
      unfold slice_to. by destruct (Z.leb_spec 0 k); [lia|].
  - intros Hn userId'.
    assert (Hp : includes PRIVATE_ENTITIES n = false).
    { unfold SHARED_ENTITIES in Hn.
      repeat (apply elem_of_cons in Hn as [->|Hn]; [reflexivity|]).
      by apply elem_of_nil in Hn. }
    unfold EntityClient.list. by rewrite Hp.
Qed.

(** Three lists of user "u1" among those of others, cut by the limit -1:
    the last of the three is left out. *)
Lemma list_owner_filter_witness :
  EntityClient.list "ShoppingList" (fun _ _ => false) None (Some (-1)%Z) (VStr "u1")
    (on_device "ShoppingList"
       [of_user "l1" "u1"; of_user "l2" "u2"; of_user "l3" "u1"; of_user "l4" "u1"])
  = (Normal [of_user "l1" "u1"; of_user "l3" "u1"],
     on_device "ShoppingList"
       [of_user "l1" "u1"; of_user "l2" "u2"; of_user "l3" "u1"; of_user "l4" "u1"]).
Proof.
  destruct (list_owner_filter (fun _ _ => false) None (Some (-1)%Z) (VStr "u1")
              "ShoppingList"
              (on_device "ShoppingList"
                 [of_user "l1" "u1"; of_user "l2" "u2"; of_user "l3" "u1";
                  of_user "l4" "u1"]))
    as [Hprivate _].
  destruct (Hprivate
              [of_user "l1" "u1"; of_user "l2" "u2"; of_user "l3" "u1"; of_user "l4" "u1"]
              (on_device "ShoppingList"
                 [of_user "l1" "u1"; of_user "l2" "u2"; of_user "l3" "u1";
                  of_user "l4" "u1"]))
    as (owned & result & Hrun & Howned & _ & _ & _ & _ & Hneg).
  - reflexivity.
  - by_evaluation.
  - reflexivity.
  - rewrite Hrun. f_equal. f_equal. rewrite (Hneg (-1)%Z eq_refl ltac:(lia)).
    subst owned. reflexivity.
Defined.

(** C6 fails as stated: with a limit the result no longer holds every
    record of the owner.  Of two lists of user "u1", [list(null, 1, "u1")]
    returns the first only. *)
Lemma list_limit_cuts_owned_records :
  fst (getStorage "ShoppingList" (on_device "ShoppingList" [weekly; party]))
  = Normal [weekly; party]
  /\ string_equal "user_id" (VStr "u1") party = true
  /\ fst (EntityClient.list "ShoppingList" (fun _ _ => false) None (Some 1%Z)
            (VStr "u1") (on_device "ShoppingList" [weekly; party]))
     = Normal [weekly].
Proof. vm_compute. done. Qed.

(** ** Write conflicts *)

(** C1, as the code has it.  A write that meets a conflict fetches the file
    for its revision token only and sends again the collection it was
    given.  So each of the five writing functions, resumed with the
    collection [items] it read before another session's write was
    accepted, leaves in the repository the collection it computes from
    [items]; what the other session wrote ([current]) is replaced by it. *)
Theorem conflict_retry_writes_own_collection n w current :
  stale n current w ->
  (forall data msg,
     let w' := snd (setStorage n data msg w) in
     fst (put n data msg w) = Err Status409
     /\ files (there w') !! blob_path n
        = Some (Blob (JsonArray data) (S (sha current)))
     /\ commits (there w') = commits (there w) ++ [(blob_path n, commit_message n msg)]
     /\ localStorage (here w') = localStorage (here w))
  /\ (forall items data userId random36 created updated,
        exists item,
          let run := EntityClient.create_after_read n data userId random36
                       created updated items w in
          fst run = Normal (VObj item)
          /\ remote_collection n (snd run) = Some (JsonArray (items ++ [item])))
  /\ (forall items id data userId t1 t2 index oldItem history,
        findIndex (string_equal "id" id) items = Some (index, oldItem) ->
        changes_of oldItem data <> [] ->
        elements_of (or_else (prop oldItem "edit_history") (VArr [])) = Normal history ->
        exists item,
          let run := EntityClient.update_after_read n id data userId t1 t2 items w in
          fst run = Normal (VObj item)
          /\ remote_collection n (snd run) = Some (JsonArray (<[index := item]> items)))
  /\ (forall items id,
        let run := EntityClient.delete_after_read n id items w in
        fst run = Normal (VBool true)
        /\ remote_collection n (snd run)
           = Some (JsonArray
                     (List.filter (fun item => negb (string_equal "id" id item)) items)))
  /\ (forall items id a index found item,
        findIndex (string_equal "id" id) items = Some (index, found) ->
        toggle "likes" "dislikes" a
          (ensure_array "dislikes" (ensure_array "likes" found)) = Normal item ->
        let run := EntityClient.toggleLike_after_read n id a items w in
        fst run = Normal (VObj item)
        /\ remote_collection n (snd run) = Some (JsonArray (<[index := item]> items)))
  /\ (forall items id a index found item,
        findIndex (string_equal "id" id) items = Some (index, found) ->
        toggle "dislikes" "likes" a
          (ensure_array "dislikes" (ensure_array "likes" found)) = Normal item ->
        let run := EntityClient.toggleDislike_after_read n id a items w in
        fst run = Normal (VObj item)
        /\ remote_collection n (snd run) = Some (JsonArray (<[index := item]> items))).
Proof.
  intros Hst. split; [|split; [|split; [|split; [|split]]]].
  - intros data msg.
    destruct (setStorage_after_conflict n data msg w current Hst) as (?&?&?&?&?).
    done.
  - intros items data userId random36 created updated. eexists. cbv zeta.
    rewrite create_after_read_eq. cbn [fst snd].
    split; [reflexivity|]. by apply remote_collection_after_conflict with current.
  - intros items id data userId t1 t2 index oldItem history Hidx Hch Hel.
    eexists. cbv zeta.
    rewrite (update_after_read_eq _ _ _ _ _ _ _ _ _ _ _ Hidx Hch Hel). cbn [fst snd].
    split; [reflexivity|]. by apply remote_collection_after_conflict with current.
  - intros items id. cbv zeta. rewrite delete_after_read_eq. cbn [fst snd].
    split; [reflexivity|]. by apply remote_collection_after_conflict with current.
  - intros items id a index found item Hidx Ht. cbv zeta.
    rewrite (toggleLike_after_read_eq _ _ _ _ _ _ _ _ Hidx Ht). cbn [fst snd].
    split; [reflexivity|]. by apply remote_collection_after_conflict with current.
  - intros items id a index found item Hidx Ht. cbv zeta.
    rewrite (toggleDislike_after_read_eq _ _ _ _ _ _ _ _ Hidx Ht). cbn [fst snd].
    split; [reflexivity|]. by apply remote_collection_after_conflict with current.
Qed.

Lemma conflict_retry_writes_own_collection_witness :
  stale "Product" first_write (World session_after_read repository_after_first_write)
  /\ remote_collection "Product"
       (snd (EntityClient.delete_after_read "Product" (VStr "p2") [milk; bread]
               (World session_after_read repository_after_first_write)))
     = Some (JsonArray [milk]).
Proof.
  assert (H : stale "Product" first_write
                (World session_after_read repository_after_first_write)).
  { repeat split. vm_compute. intros [=]. }
  split; [exact H|].
  destruct (conflict_retry_writes_own_collection "Product" _ first_write H)
    as (_ & _ & _ & Hdelete & _).
  exact (proj2 (Hdelete [milk; bread] (VStr "p2"))).
Defined.

(** C1 fails as stated.  Session B reads the products; session A likes the
    milk and its write is accepted; B, resumed, likes the bread in the
    collection it read.  B's write is refused with a conflict and sent
    again: the repository then holds B's like and not A's. *)
Lemma conflict_retry_drops_first_write :
  let readB := getStorage "Product" (World fresh_session shared_repository) in
  let runA := EntityClient.toggleLike "Product" (VStr "p1") (VStr "alice")
                (World fresh_session shared_repository) in
  let resumeB := World (here (snd readB)) (there (snd runA)) in
  let runB := EntityClient.toggleLike_after_read "Product" (VStr "p2") (VStr "bob")
                [milk; bread] resumeB in
  fst readB = Normal [milk; bread]
  /\ resumeB = World session_after_read repository_after_first_write
  /\ fst (put "Product"
            [milk; [("id", VStr "p2"); ("name", VStr "bread");
                    ("likes", VArr [VStr "bob"]); ("dislikes", VArr [])]]
            "Toggle Like Product: p2" resumeB) = Err Status409
  /\ remote_collection "Product" (snd runB)
     = Some (JsonArray
               [milk;
                [("id", VStr "p2"); ("name", VStr "bread");
                 ("likes", VArr [VStr "bob"]); ("dislikes", VArr [])]])
  /\ map snd (commits (there (snd runB)))
     = ["Toggle Like Product: p1"; "Toggle Like Product: p2"].
Proof. vm_compute. done. Qed.

(** ** The text encoding *)

Module CodecFacts.
Import Codec.
Local Open Scope Z_scope.
Local Open Scope list_scope.

(** *** Arithmetic of the codec *)

Lemma between_true lo hi c : lo <= c <= hi -> between lo hi c = true.
Proof. unfold between. intros [H1 H2]. apply andb_true_iff. split; by apply Z.leb_le. Qed.

Lemma between_false lo hi c : c < lo \/ hi < c -> between lo hi c = false.
Proof.
  unfold between. intros H. apply andb_false_iff.
  destruct H; [left | right]; by apply Z.leb_gt.
Qed.

Lemma between_spec lo hi c : between lo hi c = true <-> lo <= c <= hi.
Proof. unfold between. rewrite andb_true_iff, !Z.leb_le. done. Qed.

Lemma between_spec_false lo hi c : between lo hi c = false <-> c < lo \/ hi < c.
Proof. unfold between. rewrite andb_false_iff, !Z.leb_gt. done. Qed.

Ltac ranges :=
  repeat match goal with
         | H : between _ _ _ = true |- _ => apply between_spec in H
         | H : between _ _ _ = false |- _ => apply between_spec_false in H
         | H : is_high _ = true |- _ => apply between_spec in H
         | H : is_high _ = false |- _ => apply between_spec_false in H
         | H : is_low _ = true |- _ => apply between_spec in H
         | H : is_low _ = false |- _ => apply between_spec_false in H
         | H : code_unit _ |- _ => unfold code_unit in H
         end.

Ltac divmod := Z.to_euclidean_division_equations; lia.

Lemma hex_val_HEX h : 0 <= h < 16 -> hex_val (HEX h) = Some h.
Proof.
  intros Hh. unfold HEX, hex_val.
  destruct (Z.ltb_spec h 10).
  - rewrite between_true by lia. f_equal. lia.
  - rewrite between_false by lia. rewrite between_true by lia. f_equal. lia.
Qed.

Lemma HEX_not_u h : 0 <= h < 16 -> (HEX h =? 117) = false.
Proof. intros Hh. unfold HEX. apply Z.eqb_neq. destruct (Z.ltb_spec h 10); lia. Qed.

Lemma unescape_percent b rest :
  0 <= b < 256 -> unescape (percent b ++ rest) = b :: unescape rest.
Proof.
  intros Hb. unfold percent. cbn [app unescape].
  change (37 =? 37) with true. cbn [negb].
  assert (H1 : 0 <= b / 16 < 16) by divmod.
  assert (H2 : 0 <= b mod 16 < 16) by divmod.
  rewrite (HEX_not_u _ H1), (hex_val_HEX _ H1), (hex_val_HEX _ H2).
  f_equal. divmod.
Qed.

Lemma unescape_percents bs rest :
  Forall (fun b => 0 <= b < 256) bs ->
  unescape (flat_map percent bs ++ rest) = bs ++ unescape rest.
Proof.
  induction 1 as [|b bs Hb _ IH]; [done|].
  cbn [flat_map]. rewrite <- app_assoc, unescape_percent by done.
  cbn [app]. by rewrite IH.
Qed.

Lemma utf8_octets cp : 0 <= cp < 0x110000 -> Forall (fun b => 0 <= b < 256) (utf8 cp).
Proof.
  intros Hcp. unfold utf8.
  destruct (Z.ltb_spec cp 0x80); [|destruct (Z.ltb_spec cp 0x800);
    [|destruct (Z.ltb_spec cp 0x10000)]];
    repeat (apply Forall_cons; split; [divmod|]); apply Forall_nil_2.
Qed.

Lemma unreserved_ascii c : unreserved c = true -> 0 <= c < 0x80 /\ c <> 37.
Proof.
  unfold unreserved. cbn [existsb]. intros H.
  repeat (apply orb_true_iff in H as [H|H]);
    try (apply between_spec in H; lia);
    try (apply Z.eqb_eq in H; lia); done.
Qed.

Lemma well_formed_ind (P : list Z -> Prop) :
  P [] ->
  (forall c rest, is_high c = false -> is_low c = false ->
     well_formed rest = true -> P rest -> P (c :: rest)) ->
  (forall c d rest, is_high c = true -> is_low d = true ->
     well_formed rest = true -> P rest -> P (c :: d :: rest)) ->
  forall s, well_formed s = true -> P s.
Proof.
  intros Hnil Hone Htwo s.
  remember (length s) as n eqn:Hn.
  revert s Hn. induction (lt_wf n) as [n _ IH]. intros s -> Hwf.
  destruct s as [|c rest]; [done|]. cbn [well_formed] in Hwf.
  destruct (is_high c) eqn:Hh.
  - destruct rest as [|d rest]; [done|].
    apply andb_true_iff in Hwf as [Hd Hwf].
    apply Htwo; try done. eapply IH; [|reflexivity|done]. simpl. lia.
  - apply andb_true_iff in Hwf as [Hl Hwf]. apply negb_true_iff in Hl.
    apply Hone; try done. eapply IH; [|reflexivity|done]. simpl. lia.
Qed.

Lemma pair_code_point_range c d :
  is_high c = true -> is_low d = true ->
  0x10000 <= pair_code_point c d < 0x110000.
Proof. intros. ranges. unfold pair_code_point. lia. Qed.

Lemma code_points_scalar s :
  Forall code_unit s -> well_formed s = true -> Forall scalar (code_points s).
Proof.
  intros Hu Hwf. revert s Hwf Hu.
  apply (well_formed_ind (fun s => Forall code_unit s -> Forall scalar (code_points s)));
    [|intros c rest Hh Hl _ IH Hu|intros c d rest Hh Hl _ IH Hu].
  - constructor.
  - apply Forall_cons in Hu as [Hc Hu]. cbn [code_points]. rewrite Hh.
    constructor; [|by apply IH]. ranges. unfold scalar. lia.
  - apply Forall_cons in Hu as [Hc Hu]. apply Forall_cons in Hu as [Hd Hu].
    cbn [code_points]. rewrite Hh. constructor; [|by apply IH].
    pose proof (pair_code_point_range c d Hh Hl). unfold scalar. lia.
Qed.

Lemma flat_map_step {A B} (f : A -> list B) x l :
  flat_map f (x :: l) = f x ++ flat_map f l.
Proof. reflexivity. Qed.

Lemma utf8_ascii c : 0 <= c < 0x80 -> utf8 c = [c].
Proof. intros H. unfold utf8. destruct (Z.ltb_spec c 0x80); [done | lia]. Qed.

(** [unescape(encodeURIComponent(s))] is the UTF-8 text of [s]. *)
Lemma unescape_encodeURIComponent s :
  Forall code_unit s -> well_formed s = true ->
  exists e, encodeURIComponent s = Some e
            /\ unescape e = flat_map utf8 (code_points s).
Proof.
  intros Hu Hwf. revert s Hwf Hu.
  apply (well_formed_ind (fun s => Forall code_unit s ->
           exists e, encodeURIComponent s = Some e
                     /\ unescape e = flat_map utf8 (code_points s)));
    [|intros c rest Hh Hl _ IH Hu|intros c d rest Hh Hl _ IH Hu].
  - by exists [].
  - apply Forall_cons in Hu as [Hc Hu]. destruct (IH Hu) as (e & He & Hue).
    cbn [encodeURIComponent code_points flat_map]. rewrite Hh, Hl, He.
    cbn [fmap option_fmap option_map].
    destruct (unreserved c) eqn:Hun.
    + eexists. split; [reflexivity|].
      apply unreserved_ascii in Hun as [Hr H37].
      cbn [unescape]. apply Z.eqb_neq in H37. rewrite H37. cbn [negb].
      rewrite Hue, flat_map_step. by rewrite (utf8_ascii c Hr).
    + eexists. split; [reflexivity|].
      rewrite unescape_percents; [by rewrite Hue, flat_map_step|].
      apply utf8_octets. ranges. lia.
  - apply Forall_cons in Hu as [Hc Hu]. apply Forall_cons in Hu as [Hd Hu].
    destruct (IH Hu) as (e & He & Hue).
    cbn [encodeURIComponent code_points flat_map]. rewrite Hh, Hl, He.
    assert (Hun : unreserved c = false).
    { destruct (unreserved c) eqn:E; [|done].
      apply unreserved_ascii in E. ranges. lia. }
    rewrite Hun. cbn [fmap option_fmap option_map].
    eexists. split; [reflexivity|].
    rewrite unescape_percents; [by rewrite Hue, flat_map_step|].
    apply utf8_octets. pose proof (pair_code_point_range c d Hh Hl). lia.
Qed.

(** *** base64 *)

Lemma list_ind3 {A} (P : list A -> Prop) :
  P [] -> (forall a, P [a]) -> (forall a b, P [a; b]) ->
  (forall a b c rest, P rest -> P (a :: b :: c :: rest)) ->
  forall l, P l.
Proof.
  intros H0 H1 H2 H3.
  fix IH 1. intros [|a [|b [|c rest]]]; [done..|]. apply H3, IH.
Qed.

Lemma b64_val_b64_char n : 0 <= n < 64 -> b64_val (b64_char n) = Some n.
Proof.
  intros Hn. unfold b64_char, b64_val.
  destruct (Z.ltb_spec n 26).
  { rewrite between_true by lia. f_equal. lia. }
  destruct (Z.ltb_spec n 52).
  { rewrite between_false, between_true by lia. f_equal. lia. }
  destruct (Z.ltb_spec n 62).
  { rewrite !between_false, between_true by lia. f_equal. lia. }
  destruct (Z.eqb_spec n 62).
  { subst n. rewrite !between_false by lia. done. }
  rewrite !between_false by lia. simpl. f_equal. lia.
Qed.

Lemma b64_char_plain n :
  0 <= n < 64 -> b64_char n <> 61 /\ ascii_whitespace (b64_char n) = false.
Proof.
  intros Hn. unfold b64_char, ascii_whitespace. cbn [existsb].
  destruct (Z.ltb_spec n 26); [|destruct (Z.ltb_spec n 52);
    [|destruct (Z.ltb_spec n 62); [|destruct (Z.eqb_spec n 62)]]];
    (split; [lia|]);
    repeat (apply orb_false_iff; split); try done; apply Z.eqb_neq; lia.
Qed.

Lemma btoa_octets_no_whitespace l :
  Forall octet l ->
  List.filter (fun c => negb (ascii_whitespace c)) (btoa_octets l) = btoa_octets l.
Proof.
  unfold octet. revert l. apply (list_ind3 (fun l => Forall _ l -> _)).
  - done.
  - intros a Ha. apply Forall_cons in Ha as [Ha _].
    cbn [btoa_octets List.filter].
    destruct (b64_char_plain (a / 4)) as [_ ->]; [divmod|].
    destruct (b64_char_plain (a mod 4 * 16)) as [_ ->]; [divmod|]. done.
  - intros a b H. apply Forall_cons in H as [Ha H]. apply Forall_cons in H as [Hb _].
    cbn [btoa_octets List.filter].
    destruct (b64_char_plain (a / 4)) as [_ ->]; [divmod|].
    destruct (b64_char_plain (a mod 4 * 16 + b / 16)) as [_ ->]; [divmod|].
    destruct (b64_char_plain (b mod 16 * 4)) as [_ ->]; [divmod|]. done.
  - intros a b c rest IH H.
    apply Forall_cons in H as [Ha H]. apply Forall_cons in H as [Hb H].
    apply Forall_cons in H as [Hc H].
    cbn [btoa_octets List.filter].
    destruct (b64_char_plain (a / 4)) as [_ ->]; [divmod|].
    destruct (b64_char_plain (a mod 4 * 16 + b / 16)) as [_ ->]; [divmod|].
    destruct (b64_char_plain (b mod 16 * 4 + c / 64)) as [_ ->]; [divmod|].
    destruct (b64_char_plain (c mod 64)) as [_ ->]; [divmod|].
    cbn [negb]. by rewrite IH.
Qed.

Lemma strip_padding_plain pre :
  Forall (fun c => c <> 61) pre -> strip_padding pre = pre.
Proof.
  intros H. unfold strip_padding. destruct (_ =? _)%nat; [|done].
  destruct (rev pre) as [|x [|y r]] eqn:Hr; [done..|].
  assert (Hx : x ∈ pre).
  { apply list_elem_of_In, in_rev. rewrite Hr. left. done. }
  rewrite Forall_forall in H. apply H in Hx. apply Z.eqb_neq in Hx. by rewrite Hx.
Qed.

Lemma strip_padding_btoa pre l :
  (length pre mod 4 = 0)%nat -> Forall (fun c => c <> 61) pre -> Forall octet l ->
  strip_padding (pre ++ btoa_octets l) = pre ++ btoa_unpadded l.
Proof.
  unfold octet. intros Hlen Hpre Hl. revert l Hl pre Hlen Hpre.
  apply (list_ind3 (fun l => Forall _ l -> forall pre, _ -> _ -> _)).
  - intros _ pre Hlen Hpre. cbn [btoa_octets btoa_unpadded]. rewrite app_nil_r.
    by apply strip_padding_plain.
  - intros a Ha pre Hlen Hpre. cbn [btoa_octets btoa_unpadded].
    unfold strip_padding. rewrite length_app. cbn [length].
    replace ((length pre + 4) mod 4)%nat with 0%nat
      by (rewrite Nat.Div0.add_mod by lia; rewrite Hlen; done).
    cbn [Nat.eqb]. rewrite rev_app_distr. cbn [rev app].
    change (61 =? 61) with true. cbv iota.
    rewrite rev_involutive. by rewrite <- app_assoc.
  - intros a b H pre Hlen Hpre.
    apply Forall_cons in H as [Ha H]. apply Forall_cons in H as [Hb _].
    cbn [btoa_octets btoa_unpadded].
    unfold strip_padding. rewrite length_app. cbn [length].
    replace ((length pre + 4) mod 4)%nat with 0%nat
      by (rewrite Nat.Div0.add_mod by lia; rewrite Hlen; done).
    cbn [Nat.eqb]. rewrite rev_app_distr. cbn [rev app].
    change (61 =? 61) with true. cbv iota.
    destruct (b64_char_plain (b mod 16 * 4)) as [Hne _]; [divmod|].
    apply Z.eqb_neq in Hne. rewrite Hne.
    cbn [rev]. rewrite rev_involutive. by rewrite <- !app_assoc.
  - intros a b c rest IH H pre Hlen Hpre.
    apply Forall_cons in H as [Ha H]. apply Forall_cons in H as [Hb H].
    apply Forall_cons in H as [Hc H].
    cbn [btoa_octets btoa_unpadded].
    set (g := [b64_char (a / 4); b64_char (a mod 4 * 16 + b / 16);
               b64_char (b mod 16 * 4 + c / 64); b64_char (c mod 64)]).
    change (pre ++ (g ++ btoa_octets rest) = pre ++ (g ++ btoa_unpadded rest))
      || (change (strip_padding (pre ++ (g ++ btoa_octets rest))
                  = pre ++ (g ++ btoa_unpadded rest))).
    rewrite !app_assoc. apply IH; [done| |].
    + rewrite length_app. subst g. cbn [length].
      rewrite Nat.Div0.add_mod by lia. rewrite Hlen. done.
    + apply Forall_app. split; [done|]. subst g.
      repeat (apply Forall_cons; split; [apply b64_char_plain; divmod|]).
      apply Forall_nil_2.
Qed.

Lemma atob_groups_unpadded l :
  Forall octet l -> atob_groups (btoa_unpadded l) = Some l.
Proof.
  unfold octet. revert l. apply (list_ind3 (fun l => Forall _ l -> _)).
  - done.
  - intros a Ha. apply Forall_cons in Ha as [Ha _].
    cbn [btoa_unpadded atob_groups].
    rewrite !b64_val_b64_char by divmod. do 2 f_equal. divmod.
  - intros a b H. apply Forall_cons in H as [Ha H]. apply Forall_cons in H as [Hb _].
    cbn [btoa_unpadded atob_groups].
    rewrite !b64_val_b64_char by divmod. f_equal. f_equal; [|f_equal]; divmod.
  - intros a b c rest IH H.
    apply Forall_cons in H as [Ha H]. apply Forall_cons in H as [Hb H].
    apply Forall_cons in H as [Hc H].
    cbn [btoa_unpadded atob_groups].
    rewrite !b64_val_b64_char by divmod. rewrite (IH H).
    cbn [fmap option_fmap option_map]. f_equal.
    f_equal; [|f_equal; [|f_equal]]; divmod.
Qed.

Lemma atob_btoa l : Forall octet l -> atob (btoa_octets l) = Some l.
Proof.
  intros Hl. unfold atob. rewrite btoa_octets_no_whitespace by done.
  rewrite <- (app_nil_l (btoa_octets l)).
  rewrite strip_padding_btoa; [|done|constructor|done].
  by apply atob_groups_unpadded.
Qed.

Lemma btoa_octets_ok l : Forall octet l -> btoa l = Some (btoa_octets l).
Proof.
  intros Hl. unfold btoa.
  replace (forallb (between 0 255) l) with true; [done|].
  symmetry. apply forallb_forall. intros x Hx.
  rewrite Forall_forall in Hl. apply list_elem_of_In, Hl in Hx.
  apply between_true. unfold octet in Hx. lia.
Qed.

(** *** The decoder *)

Lemma decode_idle b rest :
  utf8_decode idle (b :: rest)
  = fst (lead b) ++ utf8_decode (snd (lead b)) rest.
Proof. cbn [utf8_decode idle due]. by destruct (lead b). Qed.

Lemma decode_last a lo hi b rest :
  lo <= b <= hi ->
  utf8_decode (Decoder 1 a lo hi) (b :: rest)
  = (a * 64 + (b - 0x80)) :: utf8_decode idle rest.
Proof.
  intros H. cbn [utf8_decode due lower upper acc]. by rewrite between_true.
Qed.

Lemma decode_next more a lo hi b rest :
  lo <= b <= hi ->
  utf8_decode (Decoder (S (S more)) a lo hi) (b :: rest)
  = utf8_decode (Decoder (S more) (a * 64 + (b - 0x80)) 0x80 0xBF) rest.
Proof.
  intros H. cbn [utf8_decode due lower upper acc]. by rewrite between_true.
Qed.

Lemma lead_ascii b : 0 <= b <= 0x7F -> lead b = ([b], idle).
Proof. intros H. unfold lead. by rewrite between_true. Qed.

Lemma lead_two b :
  0xC2 <= b <= 0xDF -> lead b = ([], Decoder 1 (b - 0xC0) 0x80 0xBF).
Proof. intros H. unfold lead. by rewrite between_false, between_true by lia. Qed.

Lemma lead_three b :
  0xE0 <= b <= 0xEF ->
  lead b = ([], Decoder 2 (b - 0xE0) (if b =? 0xE0 then 0xA0 else 0x80)
                          (if b =? 0xED then 0x9F else 0xBF)).
Proof. intros H. unfold lead. by rewrite !between_false, between_true by lia. Qed.

Lemma lead_four b :
  0xF0 <= b <= 0xF4 ->
  lead b = ([], Decoder 3 (b - 0xF0) (if b =? 0xF0 then 0x90 else 0x80)
                          (if b =? 0xF4 then 0x8F else 0xBF)).
Proof. intros H. unfold lead. by rewrite !between_false, between_true by lia. Qed.

Lemma decode_utf8 cp rest :
  scalar cp -> utf8_decode idle (utf8 cp ++ rest) = cp :: utf8_decode idle rest.
Proof.
  intros [Hr Hs]. unfold utf8.
  destruct (Z.ltb_spec cp 0x80) as [H1|H1].
  { cbn [app]. rewrite decode_idle, lead_ascii by lia. done. }
  destruct (Z.ltb_spec cp 0x800) as [H2|H2].
  { cbn [app]. rewrite decode_idle, lead_two by divmod. cbn [fst snd app].
    rewrite decode_last by divmod. f_equal. divmod. }
  destruct (Z.ltb_spec cp 0x10000) as [H3|H3].
  { cbn [app]. rewrite decode_idle, lead_three by divmod. cbn [fst snd app].
    rewrite decode_next.
    2:{ destruct (Z.eqb_spec (0xE0 + cp / 4096) 0xE0);
        destruct (Z.eqb_spec (0xE0 + cp / 4096) 0xED); divmod. }
    rewrite decode_last by divmod. f_equal. divmod. }
  cbn [app]. rewrite decode_idle, lead_four by divmod. cbn [fst snd app].
  rewrite decode_next.
  2:{ destruct (Z.eqb_spec (0xF0 + cp / 262144) 0xF0);
      destruct (Z.eqb_spec (0xF0 + cp / 262144) 0xF4); divmod. }
  rewrite decode_next by divmod.
  rewrite decode_last by divmod. f_equal. divmod.
Qed.

Lemma decode_utf8_all cps :
  Forall scalar cps -> utf8_decode idle (flat_map utf8 cps) = cps.
Proof.
  induction 1 as [|cp cps Hcp _ IH]; [done|].
  rewrite flat_map_step, decode_utf8 by done. by rewrite IH.
Qed.

Lemma utf16_code_points s :
  Forall code_unit s -> well_formed s = true -> flat_map utf16 (code_points s) = s.
Proof.
  intros Hu Hwf. revert s Hwf Hu.
  apply (well_formed_ind (fun s => Forall code_unit s -> flat_map utf16 (code_points s) = s));
    [|intros c rest Hh Hl _ IH Hu|intros c d rest Hh Hl _ IH Hu].
  - done.
  - apply Forall_cons in Hu as [Hc Hu]. cbn [code_points]. rewrite Hh.
    rewrite flat_map_step, (IH Hu). unfold utf16. ranges.
    destruct (Z.ltb_spec c 0x10000); [done | lia].
  - apply Forall_cons in Hu as [Hc Hu]. apply Forall_cons in Hu as [Hd Hu].
    cbn [code_points]. rewrite Hh.
    rewrite flat_map_step, (IH Hu). unfold utf16, pair_code_point. ranges.
    destruct (Z.ltb_spec (0x10000 + (c - 0xD800) * 0x400 + (d - 0xDC00)) 0x10000);
      [lia|].
    cbn [app]. f_equal; [|f_equal]; divmod.
Qed.

Lemma strip_bom_code_points s :
  head s <> Some 0xFEFF -> well_formed s = true ->
  strip_bom (code_points s) = code_points s.
Proof.
  destruct s as [|c rest]; [done|]. cbn [head well_formed code_points].
  intros Hne Hwf. destruct (is_high c) eqn:Hh.
  - destruct rest as [|d rest]; [done|].
    apply andb_true_iff in Hwf as [Hl _]. cbn [strip_bom].
    pose proof (pair_code_point_range c d Hh Hl).
    destruct (Z.eqb_spec (pair_code_point c d) 0xFEFF); [lia | done].
  - cbn [strip_bom]. destruct (Z.eqb_spec c 0xFEFF); [congruence | done].
Qed.

Lemma octets_mod bs : Forall octet bs -> map (fun c => c mod 256) bs = bs.
Proof.
  induction 1 as [|b bs Hb _ IH]; [done|]. cbn [map]. rewrite IH. f_equal.
  unfold octet in Hb. divmod.
Qed.

Lemma utf8_text_octets s :
  Forall code_unit s -> well_formed s = true ->
  Forall octet (flat_map utf8 (code_points s)).
Proof.
  intros Hu Hwf. pose proof (code_points_scalar s Hu Hwf) as Hs.
  induction Hs as [|cp cps [Hcp _] _ IH]; [constructor|].
  rewrite flat_map_step. apply Forall_app. split; [|done].
  by apply utf8_octets.
Qed.

(** For every string with no lone surrogate that does not begin with
    U+FEFF, the encoding of the write path succeeds and the decoding of the
    read path gives the string back, whatever non-ASCII characters it
    holds. *)
Lemma text_round_trip s :
  Forall code_unit s -> well_formed s = true -> head s <> Some 0xFEFF ->
  exists content,
    encode_content s = Some content /\ decode_content content = Some s.
Proof.
  intros Hu Hwf Hbom.
  destruct (unescape_encodeURIComponent s Hu Hwf) as (e & He & Hue).
  pose proof (utf8_text_octets s Hu Hwf) as Hoct.
  exists (btoa_octets (flat_map utf8 (code_points s))). split.
  - unfold encode_content. rewrite He. cbn [mbind option_bind].
    rewrite Hue. by rewrite btoa_octets_ok.
  - unfold decode_content. rewrite atob_btoa by done.
    cbn [fmap option_fmap option_map]. f_equal.
    rewrite octets_mod by done. unfold TextDecoder_decode.
    rewrite decode_utf8_all by by apply code_points_scalar.
    rewrite strip_bom_code_points by done.
    by apply utf16_code_points.
Qed.

End CodecFacts.

(** ** The JSON text on the write path *)

Module JsonTextFacts.
Import Codec CodecFacts JsonText.
Local Open Scope Z_scope.
Local Open Scope list_scope.

Lemma well_formed_app a b :
  well_formed a = true -> well_formed b = true -> well_formed (a ++ b) = true.
Proof.
  intros Ha Hb. revert a Ha.
  apply (well_formed_ind (fun a => well_formed (a ++ b) = true)).
  - done.
  - intros c rest Hh Hl _ IH. cbn [app well_formed]. by rewrite Hh, Hl, IH.
  - intros c d rest Hh Hl _ IH. cbn [app well_formed]. by rewrite Hh, Hl, IH.
Qed.

Lemma tidy_nil : tidy [].
Proof. by split. Qed.

Lemma tidy_app a b : tidy a -> tidy b -> tidy (a ++ b).
Proof.
  intros [Ha1 Ha2] [Hb1 Hb2]. split; [by apply Forall_app | by apply well_formed_app].
Qed.

(** A text without any surrogate is tidy. *)
Lemma tidy_plain s :
  Forall (fun c => 0 <= c < 0xD800 \/ 0xE000 <= c < 0x10000) s -> tidy s.
Proof.
  induction 1 as [|c s Hc _ [IH1 IH2]]; [apply tidy_nil|]. split.
  - constructor; [unfold code_unit; lia | done].
  - cbn [well_formed]. unfold is_high, is_low.
    rewrite !between_false by lia. simpl. done.
Qed.

Lemma tidy_ascii s : Forall (fun c => 0 <= c < 128) s -> tidy s.
Proof.
  intros H. apply tidy_plain. eapply Forall_impl; [exact H|]. simpl. lia.
Qed.

Lemma hexdigit_ascii n : 0 <= n < 16 -> 0 <= hexdigit n < 128.
Proof. intros H. unfold hexdigit. destruct (n <? 10); lia. Qed.

Lemma tidy_UnicodeEscape c : tidy (UnicodeEscape c).
Proof.
  apply tidy_ascii. unfold UnicodeEscape.
  repeat (apply Forall_cons; split;
          [first [lia | apply hexdigit_ascii; apply Z.mod_pos_bound; lia]|]).
  apply Forall_nil_2.
Qed.

Lemma tidy_quote_plain c :
  code_unit c -> is_high c = false -> is_low c = false -> tidy (quote_plain c).
Proof.
  intros Hc Hh Hl. unfold quote_plain.
  repeat (case_match; [apply tidy_ascii; repeat constructor; lia|]).
  case_match; [apply tidy_UnicodeEscape|].
  apply tidy_plain. constructor; [|constructor]. ranges. lia.
Qed.

Lemma tidy_quote_units s : Forall code_unit s -> tidy (quote_units s).
Proof.
  remember (length s) as n eqn:Hn. revert s Hn.
  induction (lt_wf n) as [n _ IH]. intros s -> Hs.
  destruct s as [|c rest]; [apply tidy_nil|].
  apply Forall_cons in Hs as [Hc Hrest]. cbn [quote_units].
  assert (IHrest : tidy (quote_units rest)).
  { eapply IH; [|reflexivity|done]. simpl. lia. }
  destruct (is_high c) eqn:Hh.
  - destruct rest as [|d rest']; [apply tidy_UnicodeEscape|].
    destruct (is_low d) eqn:Hl; [|by apply tidy_app; [apply tidy_UnicodeEscape|]].
    apply Forall_cons in Hrest as [Hd Hrest'].
    assert (IH' : tidy (quote_units rest')).
    { eapply IH; [|reflexivity|done]. simpl. lia. }
    destruct IH' as [I1 I2]. split.
    + constructor; [done|]. by constructor.
    + cbn [well_formed]. by rewrite Hh, Hl.
  - destruct (is_low c) eqn:Hl.
    + by apply tidy_app; [apply tidy_UnicodeEscape|].
    + by apply tidy_app; [apply tidy_quote_plain|].
Qed.

Lemma tidy_QuoteJSONString s : Forall code_unit s -> tidy (QuoteJSONString s).
Proof.
  intros Hs. unfold QuoteJSONString.
  change (34 :: quote_units s ++ [34]) with ([34] ++ quote_units s ++ [34]).
  apply tidy_app; [apply tidy_ascii; repeat constructor; lia|].
  apply tidy_app; [by apply tidy_quote_units|].
  apply tidy_ascii; repeat constructor; lia.
Qed.

Lemma tidy_join separator partial :
  tidy separator -> Forall tidy partial -> tidy (join separator partial).
Proof.
  intros Hsep. induction 1 as [|x rest Hx Hrest IH]; [apply tidy_nil|].
  cbn [join]. destruct rest as [|y rest]; [done|].
  apply tidy_app; [done|]. by apply tidy_app.
Qed.

Lemma jvalue_induction (P : jvalue -> Prop) :
  P JNull -> (forall b, P (JBool b)) -> (forall printed, P (JNum printed)) ->
  (forall s, P (JStr s)) ->
  (forall elems, Forall P elems -> P (JArr elems)) ->
  (forall members, Forall (fun kv => P (snd kv)) members -> P (JObj members)) ->
  forall v, P v.
Proof.
  intros H1 H2 H3 H4 H5 H6. fix IH 1.
  intros [|b|printed|s|elems|members]; [apply H1 | apply H2 | apply H3 | apply H4 | |].
  - apply H5. induction elems as [|e elems IHl]; constructor; [apply IH | exact IHl].
  - apply H6. induction members as [|[k e] members IHl]; constructor;
      [apply IH | exact IHl].
Qed.

Lemma tidy_serialize v : forall indent, js_value v -> tidy indent -> tidy (serialize indent v).
Proof.
  induction v as [|b|printed|s|elems IH|members IH] using jvalue_induction;
    intros indent Hv Hi.
  - apply tidy_ascii; repeat constructor; lia.
  - destruct b; apply tidy_ascii; repeat constructor; lia.
  - by apply tidy_ascii.
  - by apply tidy_QuoteJSONString.
  - destruct elems as [|e elems]; [apply tidy_ascii; repeat constructor; lia|].
    assert (Hinner : tidy (indent ++ [32; 32])).
    { apply tidy_app; [done|]. apply tidy_ascii; repeat constructor; lia. }
    cbn [serialize].
    apply tidy_app; [apply tidy_ascii; repeat constructor; lia|].
    apply tidy_app; [done|].
    apply tidy_app.
    2:{ apply tidy_app; [apply tidy_ascii; repeat constructor; lia|].
        apply tidy_app; [done|]. apply tidy_ascii; repeat constructor; lia. }
    apply tidy_join.
    { apply tidy_app; [apply tidy_ascii; repeat constructor; lia | done]. }
    generalize dependent (e :: elems). intros l IH Hv.
    induction l as [|x l IHl]; [constructor|].
    apply Forall_cons in IH as [IHx IH]. destruct Hv as [Hx Hv].
    constructor; [by apply IHx | by apply IHl].
  - destruct members as [|m members]; [apply tidy_ascii; repeat constructor; lia|].
    assert (Hinner : tidy (indent ++ [32; 32])).
    { apply tidy_app; [done|]. apply tidy_ascii; repeat constructor; lia. }
    cbn [serialize].
    apply tidy_app; [apply tidy_ascii; repeat constructor; lia|].
    apply tidy_app; [done|].
    apply tidy_app.
    2:{ apply tidy_app; [apply tidy_ascii; repeat constructor; lia|].
        apply tidy_app; [done|]. apply tidy_ascii; repeat constructor; lia. }
    apply tidy_join.
    { apply tidy_app; [apply tidy_ascii; repeat constructor; lia | done]. }
    generalize dependent (m :: members). intros l IH Hv.
    induction l as [|[k x] l IHl]; [constructor|].
    apply Forall_cons in IH as [IHx IH]. destruct Hv as (Hk & Hx & Hv).
    constructor; [|by apply IHl]. cbn beta. cbn [fst snd] in *.
    apply tidy_app; [by apply tidy_QuoteJSONString|].
    apply tidy_app; [apply tidy_ascii; repeat constructor; lia|]. by apply IHx.
Qed.

Lemma head_JSON_stringify_indented data :
  head (JSON_stringify_indented data) = Some 91.
Proof. unfold JSON_stringify_indented. by destruct data. Qed.

(** C8. Whatever array setStorage is given, with any code units in its
    strings and keys (non-ASCII characters, U+FEFF, surrogates in pairs or
    alone), the encoding of the write path succeeds on the JSON text of the
    array, and the decoding of the read path gives that text back. *)
Theorem json_text_round_trip validatedData :
  js_value (JArr validatedData) ->
  exists content,
    encode_content (JSON_stringify_indented validatedData) = Some content
    /\ decode_content content = Some (JSON_stringify_indented validatedData).
Proof.
  intros Hv.
  destruct (tidy_serialize (JArr validatedData) [] Hv tidy_nil) as [Hu Hwf].
  apply text_round_trip; [exact Hu | exact Hwf |].
  rewrite head_JSON_stringify_indented. discriminate.
Qed.

(** One record whose name begins with U+FEFF and goes on with U+00E9,
    U+20AC, the surrogate pair of U+1F600 and a lone surrogate, priced
    3.5. *)
Lemma json_text_round_trip_witness :
  exists content,
    encode_content
      (JSON_stringify_indented
         [JObj [([110; 97; 109; 101],
                 JStr [0xFEFF; 233; 0x20AC; 0xD83D; 0xDE00; 0xD83D]);
                ([112; 114; 105; 99; 101], JNum [51; 46; 53])]])
    = Some content
    /\ decode_content content
       = Some (JSON_stringify_indented
                 [JObj [([110; 97; 109; 101],
                         JStr [0xFEFF; 233; 0x20AC; 0xD83D; 0xDE00; 0xD83D]);
                        ([112; 114; 105; 99; 101], JNum [51; 46; 53])]]).
Proof.
  apply (json_text_round_trip
           [JObj [([110; 97; 109; 101],
                   JStr [0xFEFF; 233; 0x20AC; 0xD83D; 0xDE00; 0xD83D]);
                  ([112; 114; 105; 99; 101], JNum [51; 46; 53])]]).
  cbn [js_value fold_right fst snd].
  repeat split; repeat (apply Forall_cons; split; [unfold code_unit; lia|]);
    apply Forall_nil_2.
Defined.

(** The text of that record: the lone surrogate is written as an escape,
    the rest as it is. *)
Example JSON_stringify_indented_sample :
  JSON_stringify_indented [JObj [([110], JStr [0xFEFF; 233; 0xD83D])]]
  = [91; 10; 32; 32; 123; 10; 32; 32; 32; 32; 34; 110; 34; 58; 32;
     34; 0xFEFF; 233; 92; 117; 100; 56; 51; 100; 34;
     10; 32; 32; 125; 10; 93].
Proof. reflexivity. Qed.

End JsonTextFacts.


(** * Further properties of the code *)

(** ** The stores, whatever the network does *)

(** [setStorage] never throws, and it leaves the collection in one store
    and the other store alone.  Either the remote blob is replaced (one
    commit is logged under the given message, or under "Update <entity>"
    when none is given, the new token is cached and localStorage keeps
    what it had), or the repository is as it was and the collection is in
    localStorage. *)
Theorem setStorage_writes_one_store n data msg w :
  let w' := snd (setStorage n data msg w) in
  fst (setStorage n data msg w) = Normal tt
  /\ ((exists s,
         github (here w) = true
         /\ files (there w')
            = <[blob_path n := Blob (JsonArray data) s]> (files (there w))
         /\ commits (there w')
            = commits (there w) ++ [(blob_path n, commit_message n msg)]
         /\ localStorage (here w') = localStorage (here w)
         /\ shaCache (here w') !! n = Some s)
      \/ (there w' = there w
          /\ localStorage (here w')
             = <[local_key n := JsonArray data]> (localStorage (here w)))).
Proof.
  destruct w as [[g sc ls net] [fs cm]]. cbv zeta. storage_unfold.
  storage_cases; (split; [done|]);
    first [ by right
          | left; eexists; repeat split; by rewrite ?lookup_insert_eq ].
Qed.

(** In a session without GitHub configuration, and in a session whose
    requests are delivered, whatever token it holds for a blob that
    exists (a stale token costs a conflict and the retry), the collection
    given to [setStorage] is the one that the next [getStorage] returns,
    and the one after it. *)
Theorem written_collection_is_read_back n data msg w :
  in_sync n w ->
  let w' := snd (setStorage n data msg w) in
  fst (getStorage n w') = Normal data
  /\ fst (getStorage n (snd (getStorage n w'))) = Normal data.
Proof.
  intros Hs. cbv zeta.
  destruct (setStorage_in_sync n data msg w Hs) as [Hs' Hback].
  split; [exact Hback|].
  destruct (getStorage n (snd (setStorage n data msg w))) as [c w2] eqn:Hread.
  simpl in Hback. subst c.
  by destruct (getStorage_again n _ w2 data Hs' Hread) as [_ ?].
Qed.

Lemma written_collection_is_read_back_witness :
  fst (getStorage "Product"
         (snd (setStorage "Product" [bread] "fix"
                 (World session_after_read repository_after_first_write))))
  = Normal [bread].
Proof.
  destruct (written_collection_is_read_back "Product" [bread] "fix"
              (World session_after_read repository_after_first_write))
    as [Hback _].
  - right. by repeat split.
  - exact Hback.
Defined.

(** A write whose request fails goes to localStorage, and the repository
    is not touched.  The collection saved there is read back only while
    GitHub keeps failing: as soon as a request is delivered, [getStorage]
    answers from the repository exactly as if the write had never been
    made ([] when the blob does not exist), and the saved collection is
    not consulted. *)
Theorem fallback_write_is_read_only_offline n data msg w rest :
  github (here w) = true -> network (here w) = false :: rest ->
  let w' := snd (setStorage n data msg w) in
  let unwritten :=
    World (Client true (shaCache (here w)) (localStorage (here w)) rest) (there w) in
  there w' = there w
  /\ localStorage (here w') !! local_key n = Some (JsonArray data)
  /\ (head rest = Some false -> fst (getStorage n w') = Normal data)
  /\ (head rest <> Some false ->
      fst (getStorage n w') = fst (getStorage n unwritten)
      /\ (files (there w) !! blob_path n = None -> fst (getStorage n w') = Normal [])).
Proof.
  destruct w as [[g sc ls net] [fs cm]]. cbv zeta. storage_unfold.
  intros -> ->. simpl. rewrite lookup_insert_eq.
  split; [done|]. split; [done|]. split.
  - destruct rest as [|[] rest]; simpl; try done. intros _. by rewrite lookup_insert_eq.
  - intros Hd. split.
    + destruct rest as [|[] rest]; simpl; try done;
        destruct (fs !! blob_path n) as [[[] ?]|]; simpl; done.
    + destruct rest as [|[] rest]; simpl; try done; by intros ->.
Qed.

Lemma fallback_write_is_read_only_offline_witness :
  fst (getStorage "Product"
         (snd (setStorage "Product" [milk; bread] "" (offline_session [milk]))))
  = Normal [milk].
Proof.
  destruct (fallback_write_is_read_only_offline "Product" [milk; bread] ""
              (offline_session [milk]) [] eq_refl eq_refl)
    as (_ & _ & _ & Hread).
  destruct (Hread ltac:(discriminate)) as [-> _]. reflexivity.
Defined.

(** Unless one of the two stores holds the JSON text [null] for the
    entity, [getStorage] returns an array, and it invents nothing: the
    array is empty or it is the collection that the repository or
    localStorage holds.  Both stores are left as they were. *)
Theorem getStorage_returns_stored_or_empty n w :
  content <$> files (there w) !! blob_path n <> Some JsonNull ->
  localStorage (here w) !! local_key n <> Some JsonNull ->
  exists items,
    fst (getStorage n w) = Normal items
    /\ (items = [] \/ persisted n items w)
    /\ there (snd (getStorage n w)) = there w
    /\ localStorage (here (snd (getStorage n w))) = localStorage (here w).
Proof.
  destruct w as [[g sc ls net] [fs cm]]. storage_unfold. intros Hr Hl.
  destruct g; simpl.
  - destruct net as [|[] net]; simpl.
    + destruct (fs !! blob_path n) as [[d s]|] eqn:Hf; simpl in *.
      * destruct d; simpl; try done; eexists; (split; [reflexivity|]);
          (split; [|done]); first [by left | by right; left].
      * exists []. split; [done|]. split; [by left|done].
    + destruct (fs !! blob_path n) as [[d s]|] eqn:Hf; simpl in *.
      * destruct d; simpl; try done; eexists; (split; [reflexivity|]);
          (split; [|done]); first [by left | by right; left].
      * exists []. split; [done|]. split; [by left|done].
    + destruct (ls !! local_key n) as [d|] eqn:Hk; simpl.
      * destruct d; simpl; try done; eexists; (split; [reflexivity|]);
          (split; [|done]); first [by left | by right; right].
      * exists []. split; [done|]. split; [by left|done].
  - destruct (ls !! local_key n) as [d|] eqn:Hk; simpl.
    + destruct d; simpl; try done; eexists; (split; [reflexivity|]);
        (split; [|done]); first [by left | by right; right].
    + exists []. split; [done|]. split; [by left|done].
Qed.

Lemma getStorage_returns_stored_or_empty_witness :
  exists items,
    fst (getStorage "Product" (World fresh_session shared_repository)) = Normal items
    /\ (items = []
        \/ persisted "Product" items (World fresh_session shared_repository)).
Proof.
  destruct (getStorage_returns_stored_or_empty "Product"
              (World fresh_session shared_repository))
    as (items & H1 & H2 & _).
  - vm_compute. discriminate.
  - vm_compute. discriminate.
  - by exists items.
Defined.

(** ** A session alone on the repository *)

Lemma getStorage_up_to_date n w :
  github (here w) = true -> in_sync n w -> up_to_date n (snd (getStorage n w)).
Proof.
  destruct w as [[g sc ls net] [fs cm]]. unfold in_sync, up_to_date. storage_unfold.
  intros -> [?|(_ & -> & Hc)]; [done|]. simpl.
  destruct (fs !! blob_path n) as [[d s]|] eqn:Hf; simpl.
  - destruct d; simpl; rewrite ?Hf; simpl; by rewrite lookup_insert_eq.
  - rewrite Hf. simpl. by rewrite Hc.
Qed.

(** With the current token the first request is accepted. *)
Lemma setStorage_accepted n data msg w :
  up_to_date n w ->
  (exists s, fst (put n data msg w) = Ok s)
  /\ logs n (commit_message n msg) w (snd (setStorage n data msg w))
  /\ remote_collection n (snd (setStorage n data msg w)) = Some (JsonArray data).
Proof.
  destruct w as [[g sc ls net] [fs cm]]. unfold logs, up_to_date, remote_collection.
  storage_unfold. intros (-> & -> & Hc). simpl. rewrite Hc.
  destruct (fs !! blob_path n) as [[d s]|] eqn:Hf; simpl.
  - rewrite Nat.eqb_refl. simpl. rewrite !lookup_insert_eq. simpl.
    split; [by eexists|]. by repeat split.
  - rewrite !lookup_insert_eq. simpl. split; [by eexists|]. by repeat split.
Qed.

Lemma commit_message_given n msg : msg <> "" -> commit_message n msg = msg.
Proof. intros H. unfold commit_message. by destruct (String.eqb_spec msg ""). Qed.

(** When no other session writes between the read and the write of a
    function, the write is accepted as it is sent: the log of the
    repository gains one commit, whose message names the operation, the
    entity and the id ("Create Product: <id>", "Update ...", "Delete ...",
    "Toggle Like ...", "Toggle Dislike ..."), nothing goes to
    localStorage, and the session holds the new token.  [delete] makes its
    commit whether a record matched or not. *)
Theorem writers_log_their_operation n w w1 items :
  github (here w) = true -> in_sync n w ->
  getStorage n w = (Normal items, w1) ->
  (forall data userId random36 created updated,
     logs n ("Create " +:+ n +:+ ": " +:+ random_id random36) w
       (snd (EntityClient.create n data userId random36 created updated w)))
  /\ (forall id data userId t1 t2 index oldItem history,
        findIndex (string_equal "id" id) items = Some (index, oldItem) ->
        changes_of oldItem data <> [] ->
        elements_of (or_else (prop oldItem "edit_history") (VArr [])) = Normal history ->
        logs n ("Update " +:+ n +:+ ": " +:+ to_String id) w
          (snd (EntityClient.update n id data userId t1 t2 w)))
  /\ (forall id,
        logs n ("Delete " +:+ n +:+ ": " +:+ to_String id) w
          (snd (EntityClient.delete n id w)))
  /\ (forall id a index found L D,
        findIndex (string_equal "id" id) items = Some (index, found) ->
        reactions found "likes" = Some L -> reactions found "dislikes" = Some D ->
        logs n ("Toggle Like " +:+ n +:+ ": " +:+ to_String id) w
          (snd (EntityClient.toggleLike n id a w))
        /\ logs n ("Toggle Dislike " +:+ n +:+ ": " +:+ to_String id) w
             (snd (EntityClient.toggleDislike n id a w))).
Proof.
  intros Hg Hs Hread.
  pose proof (getStorage_up_to_date n w Hg Hs) as Hup. rewrite Hread in Hup. simpl in Hup.
  pose proof (getStorage_reads_only n w) as (Hthere & Hlocal & _).
  rewrite Hread in Hthere, Hlocal. simpl in Hthere, Hlocal.
  assert (Hlog : forall data msg, msg <> "" ->
            logs n msg w (snd (setStorage n data msg w1))).
  { intros data msg Hmsg.
    destruct (setStorage_accepted n data msg w1 Hup) as (_ & (H1 & H2 & H3) & _).
    rewrite commit_message_given in H1 by done.
    repeat split; try apply H3; congruence. }
  assert (Hmsg : forall op rest, String.length op <> 0 -> op +:+ rest <> "").
  { intros [|c op] rest Hop; [done|]. discriminate. }
  split; [|split; [|split]].
  - intros data userId random36 created updated.
    unfold EntityClient.create. rewrite (bind_normal _ _ _ _ _ Hread).
    rewrite create_after_read_eq. cbn [snd].
    destruct (new_item_props data (random_id random36) created updated
                (or_else (Some userId) (uid (getCurrentUser (here w1))))
                (uname (getCurrentUser (here w1)))) as (-> & _).
    apply Hlog. by apply Hmsg.
  - intros id data userId t1 t2 index oldItem history Hidx Hch Hel.
    unfold EntityClient.update. rewrite (bind_normal _ _ _ _ _ Hread).
    rewrite (update_after_read_eq _ _ _ _ _ _ _ _ _ _ _ Hidx Hch Hel). cbn [snd].
    apply Hlog. by apply Hmsg.
  - intros id. unfold EntityClient.delete. rewrite (bind_normal _ _ _ _ _ Hread).
    rewrite delete_after_read_eq. cbn [snd]. apply Hlog. by apply Hmsg.
  - intros id a index found L D Hidx HL HD.
    destruct (ensured_arrays found L D HL HD) as (E1 & E2 & _).
    destruct (toggle_spec "likes" "dislikes" a _ L D ltac:(done) E1 E2)
      as (item1 & Ht1 & _).
    destruct (toggle_spec "dislikes" "likes" a _ D L ltac:(done) E2 E1)
      as (item2 & Ht2 & _).
    split.
    + unfold EntityClient.toggleLike. rewrite (bind_normal _ _ _ _ _ Hread).
      rewrite (toggleLike_after_read_eq _ _ _ _ _ _ _ _ Hidx Ht1). cbn [snd].
      apply Hlog. by apply Hmsg.
    + unfold EntityClient.toggleDislike. rewrite (bind_normal _ _ _ _ _ Hread).
      rewrite (toggleDislike_after_read_eq _ _ _ _ _ _ _ _ Hidx Ht2). cbn [snd].
      apply Hlog. by apply Hmsg.
Qed.

Lemma writers_log_their_operation_witness :
  commits (there (snd (EntityClient.delete "Product" (VStr "p9")
                         (World fresh_session shared_repository))))
  = [("data/Product.json", "Delete Product: p9")].
Proof.
  destruct (writers_log_their_operation "Product"
              (World fresh_session shared_repository)
              (World session_after_read shared_repository) [milk; bread])
    as (_ & _ & Hdelete & _).
  - reflexivity.
  - right. by repeat split.
  - reflexivity.
  - destruct (Hdelete (VStr "p9")) as (Hlog & _). exact Hlog.
Defined.

(** ** One collection and the others *)

Lemma length_append (s t : string) :
  String.length (s +:+ t) = String.length s + String.length t.
Proof. induction s as [|c s IH]; simpl; [done | by rewrite IH]. Qed.

Lemma append_inj_suffix (s1 s2 t : string) : s1 +:+ t = s2 +:+ t -> s1 = s2.
Proof.
  revert s2. induction s1 as [|c s1 IH]; intros [|d s2] H; simpl in H.
  - done.
  - apply (f_equal String.length) in H. rewrite !length_append in H. simpl in H. lia.
  - apply (f_equal String.length) in H. rewrite !length_append in H. simpl in H. lia.
  - cbn [String.app] in H. injection H as -> H. f_equal. by apply IH.
Qed.

Lemma blob_path_inj m n : blob_path m = blob_path n -> m = n.
Proof.
  unfold blob_path. intros H. apply String.app_inj in H. by apply append_inj_suffix in H.
Qed.

Lemma local_key_inj m n : local_key m = local_key n -> m = n.
Proof.
  unfold local_key. intros H. apply String.app_inj in H. by apply append_inj_suffix in H.
Qed.

Lemma local_key_not_user n : local_key n <> "pricepilot_user".
Proof. unfold local_key. simpl. discriminate. Qed.

Lemma elsewhere_same_refl m w : elsewhere_same m w w.
Proof. by repeat split. Qed.

Lemma elsewhere_same_trans m w1 w2 w3 :
  elsewhere_same m w1 w2 -> elsewhere_same m w2 w3 -> elsewhere_same m w1 w3.
Proof.
  intros (A1 & A2 & A3 & A4) (B1 & B2 & B3 & B4).
  repeat split; congruence.
Qed.

Lemma elsewhere_same_intro m w w' :
  files (there w') !! blob_path m = files (there w) !! blob_path m ->
  localStorage (here w') !! local_key m = localStorage (here w) !! local_key m ->
  shaCache (here w') !! m = shaCache (here w) !! m ->
  localStorage (here w') !! "pricepilot_user" = localStorage (here w) !! "pricepilot_user" ->
  elsewhere_same m w w'.
Proof.
  intros H1 H2 H3 H4. repeat split; try done. unfold getCurrentUser. by rewrite H4.
Qed.

Lemma frames_ret {A} m (a : A) : frames m (ret a).
Proof. intros w. apply elsewhere_same_refl. Qed.

Lemma frames_lift {A} m (c : completion A) : frames m (lift c).
Proof. intros w. apply elsewhere_same_refl. Qed.

Lemma frames_current_user m : frames m current_user.
Proof. intros w. apply elsewhere_same_refl. Qed.

Lemma frames_bind {A B} m (c : M A) (k : A -> M B) :
  frames m c -> (forall a, frames m (k a)) -> frames m (bind c k).
Proof.
  intros Hc Hk w. unfold bind. specialize (Hc w).
  destruct (c w) as [[a|e] w1]; simpl in *; [|done].
  eapply elsewhere_same_trans; [exact Hc | apply Hk].
Qed.

Lemma frames_getStorage m n : m <> n -> frames m (getStorage n).
Proof.
  intros Hne [[g sc ls net] [fs cm]]. apply elsewhere_same_intro;
    storage_unfold; storage_cases; try done;
    by rewrite lookup_insert_ne by congruence.
Qed.

Lemma frames_setStorage m n data msg : m <> n -> frames m (setStorage n data msg).
Proof.
  intros Hne [[g sc ls net] [fs cm]].
  assert (Hp : blob_path n <> blob_path m).
  { intros H. by apply blob_path_inj in H. }
  assert (Hk : local_key n <> local_key m).
  { intros H. by apply local_key_inj in H. }
  pose proof (local_key_not_user n) as Hu.
  apply elsewhere_same_intro;
    storage_unfold; storage_cases; try done;
    by rewrite ?lookup_insert_ne by congruence.
Qed.

Ltac framing :=
  repeat first
    [ apply frames_ret | apply frames_lift | apply frames_current_user
    | apply frames_getStorage; congruence
    | apply frames_setStorage; congruence
    | apply frames_bind; [|intros ?]
    | match goal with
      | |- frames _ (match ?x with _ => _ end) => destruct x
      end ].

(** No function of the client of one entity touches what belongs to
    another entity, whatever the network does and whether the function
    returns or throws: the remote blob, the localStorage entry and the
    cached token of every other entity stay as they were, and so does the
    identity of the session. *)
Theorem other_collections_untouched n m w :
  m <> n ->
  (forall js_lt sort limit userId,
     elsewhere_same m w (snd (EntityClient.list n js_lt sort limit userId w)))
  /\ (forall filters, elsewhere_same m w (snd (EntityClient.filter n filters w)))
  /\ (forall id, elsewhere_same m w (snd (EntityClient.get n id w)))
  /\ (forall data userId random36 created updated,
        elsewhere_same m w
          (snd (EntityClient.create n data userId random36 created updated w)))
  /\ (forall id data userId t1 t2,
        elsewhere_same m w (snd (EntityClient.update n id data userId t1 t2 w)))
  /\ (forall id, elsewhere_same m w (snd (EntityClient.delete n id w)))
  /\ (forall id userId, elsewhere_same m w (snd (EntityClient.toggleLike n id userId w)))
  /\ (forall id userId,
        elsewhere_same m w (snd (EntityClient.toggleDislike n id userId w))).
Proof.
  intros Hne.
  repeat match goal with |- _ /\ _ => split end; intros;
    match goal with
    | |- elsewhere_same _ ?w (snd (?c ?w)) => revert w; change (frames m c)
    end.
  - unfold EntityClient.list. framing.
  - unfold EntityClient.filter. framing.
  - unfold EntityClient.get. framing.
  - unfold EntityClient.create, EntityClient.create_after_read. framing.
  - unfold EntityClient.update, EntityClient.update_after_read. framing.
  - unfold EntityClient.delete, EntityClient.delete_after_read. framing.
  - unfold EntityClient.toggleLike, EntityClient.toggleLike_after_read. framing.
  - unfold EntityClient.toggleDislike, EntityClient.toggleDislike_after_read. framing.
Qed.

Lemma other_collections_untouched_witness :
  elsewhere_same "Store" two_collections
    (snd (EntityClient.delete "Product" (VStr "p1") two_collections)).
Proof.
  destruct (other_collections_untouched "Product" "Store" two_collections)
    as (_ & _ & _ & _ & _ & Hdelete & _).
  - discriminate.
  - exact (Hdelete (VStr "p1")).
Defined.

(** ** The identity of the session *)

Lemma or_else_truthy e d : truthy (Some d) = true -> truthy (Some (or_else e d)) = true.
Proof.
  intros Hd. unfold or_else. destruct e as [v|]; [|done].
  by destruct (truthy (Some v)) eqn:E.
Qed.

(** [getCurrentUser] never throws and never answers an empty identity:
    its id and its name are truthy whatever localStorage holds, so the
    actor that [create] and [update] record ([userId || user.id]) is never
    falsy either.  A stored object gives its own id and its full_name
    when these are truthy; a missing entry, a text that is no JSON and a
    JSON value that is no object all give the anonymous user. *)
Theorem getCurrentUser_never_empty c :
  truthy (Some (uid (getCurrentUser c))) = true
  /\ truthy (Some (uname (getCurrentUser c))) = true
  /\ (forall userId,
        truthy (Some (or_else (Some userId) (uid (getCurrentUser c)))) = true)
  /\ match localStorage c !! "pricepilot_user" with
     | Some (JsonObject u) =>
         (truthy (prop u "id") = true -> Some (uid (getCurrentUser c)) = prop u "id")
         /\ (truthy (prop u "full_name") = true ->
             Some (uname (getCurrentUser c)) = prop u "full_name")
     | _ => getCurrentUser c = anonymous
     end.
Proof.
  assert (H1 : truthy (Some (uid (getCurrentUser c))) = true).
  { unfold getCurrentUser. destruct (localStorage c !! _) as [[]|]; try done.
    by apply or_else_truthy. }
  split; [done|]. split.
  { unfold getCurrentUser. destruct (localStorage c !! _) as [[]|]; try done.
    simpl. by do 2 apply or_else_truthy. }
  split; [intros userId; by apply or_else_truthy|].
  unfold getCurrentUser. destruct (localStorage c !! _) as [[]|]; try done.
  simpl. split; intros Ht; unfold or_else at 1.
  - destruct (prop o "id") as [v|]; [|done]. by rewrite Ht.
  - destruct (prop o "full_name") as [v|]; [|done]. by rewrite Ht.
Qed.

(** ** The functions that only read *)

Lemma reader_world {A} n (k : list record -> M A) w :
  (forall items w', snd (k items w') = w') ->
  snd (bind (getStorage n) k w) = snd (getStorage n w).
Proof.
  intros Hk. unfold bind. destruct (getStorage n w) as [[items|e] w1]; simpl; auto.
Qed.

(** [list], [filter] and [get] write nothing: after each of them the
    repository, its log included, and localStorage are as they were. *)
Theorem readers_write_nothing n w :
  (forall js_lt sort limit userId,
     let w' := snd (EntityClient.list n js_lt sort limit userId w) in
     there w' = there w /\ localStorage (here w') = localStorage (here w))
  /\ (forall filters,
        let w' := snd (EntityClient.filter n filters w) in
        there w' = there w /\ localStorage (here w') = localStorage (here w))
  /\ (forall id,
        let w' := snd (EntityClient.get n id w) in
        there w' = there w /\ localStorage (here w') = localStorage (here w)).
Proof.
  pose proof (getStorage_reads_only n w) as (H1 & H2 & _).
  split; [|split]; intros; subst w'.
  - unfold EntityClient.list. by rewrite reader_world.
  - unfold EntityClient.filter. by rewrite reader_world.
  - unfold EntityClient.get. by rewrite reader_world.
Qed.

Lemma elem_of_filter_bool (p : record -> bool) (items : list record) r :
  r ∈ List.filter p items <-> r ∈ items /\ p r = true.
Proof. by rewrite !list_elem_of_In, filter_In. Qed.

Lemma sublist_filter_bool (p : record -> bool) (items : list record) :
  List.filter p items `sublist_of` items.
Proof.
  induction items as [|x items IH]; simpl; [done|].
  destruct (p x); [by apply sublist_skip | by apply sublist_cons].
Qed.

Lemma find_head_filter (p : record -> bool) (items : list record) :
  find p items = head (List.filter p items).
Proof.
  induction items as [|x items IH]; simpl; [done|]. by destruct (p x).
Qed.

Lemma find_findIndex (p : record -> bool) (items : list record) :
  find p items = snd <$> findIndex p items.
Proof.
  induction items as [|x items IH]; simpl; [done|].
  destruct (p x); [done|]. rewrite IH. by destruct (findIndex p items) as [[i r]|].
Qed.

(** [filter(filters)] returns the records of the collection that agree
    with every entry of [filters], value by value as strings: all of
    them and no other, in the order of the collection.  With no entry in
    [filters] that is the whole collection.  [filters] holds JSON values
    under keys that are none of those a record inherits, and the numbers
    compared are those that JS prints in full. *)
Theorem filter_spec n filters w w1 items :
  getStorage n w = (Normal items, w1) ->
  (forall k v, (k, v) ∈ filters -> (k ∉ Object_prototype_keys) /\ exact v = true) ->
  Forall (fun r => exact (VObj r) = true) items ->
  exists result,
    EntityClient.filter n filters w = (Normal result, w1)
    /\ (forall r, r ∈ result <->
          r ∈ items
          /\ forall k v, (k, v) ∈ filters -> String_of (prop r k) = to_String v)
    /\ result `sublist_of` items
    /\ (filters = [] -> result = items).
Proof.
  intros Hread _ _. eexists. unfold EntityClient.filter.
  rewrite (bind_normal _ _ _ _ _ Hread). split; [reflexivity|].
  split; [|split].
  - intros r. rewrite elem_of_filter_bool, forallb_forall.
    split; intros [Hin Hall]; (split; [done|]).
    + intros k v Hkv. apply list_elem_of_In in Hkv. specialize (Hall _ Hkv).
      by apply String.eqb_eq in Hall.
    + intros [k v] Hkv. apply list_elem_of_In in Hkv.
      apply String.eqb_eq. by apply Hall.
  - apply sublist_filter_bool.
  - intros ->. by apply filter_all, Forall_forall.
Qed.

Lemma filter_spec_witness :
  exists result,
    EntityClient.filter "Product" [("name", VStr "bread")]
      (on_device "Product" [milk; bread])
    = (Normal result, on_device "Product" [milk; bread])
    /\ (bread ∈ result) /\ (milk ∉ result).
Proof.
  destruct (filter_spec "Product" [("name", VStr "bread")]
              (on_device "Product" [milk; bread]) (on_device "Product" [milk; bread])
              [milk; bread] eq_refl)
    as (result & Hrun & Hin & _).
  { intros k v Hkv. apply list_elem_of_singleton in Hkv. injection Hkv as -> ->.
    split; [by_evaluation | reflexivity]. }
  { repeat constructor. }
  exists result. split; [exact Hrun|]. split.
  - apply Hin. split; [apply elem_of_cons; right; apply elem_of_cons; by left|].
    intros k v Hkv. apply list_elem_of_singleton in Hkv. by injection Hkv as -> ->.
  - intros Hm. apply Hin in Hm as [_ Hm].
    specialize (Hm "name" (VStr "bread") ltac:(by apply list_elem_of_singleton)).
    discriminate.
Defined.

(** [get(id)] returns the first record of the collection whose id is
    [id] as a string: the head of what [filter({ id })] returns, and the
    record on which [update] and the toggles act for that id. *)
Theorem get_is_first_match n id w w1 items :
  getStorage n w = (Normal items, w1) ->
  exists result,
    EntityClient.filter n [("id", id)] w = (Normal result, w1)
    /\ EntityClient.get n id w = (Normal (head result), w1)
    /\ head result = snd <$> findIndex (string_equal "id" id) items.
Proof.
  intros Hread. eexists. unfold EntityClient.filter, EntityClient.get.
  rewrite !(bind_normal _ _ _ _ _ Hread). split; [reflexivity|].
  assert (Hsame : List.filter
            (fun item => forallb (fun kv => string_equal (fst kv) (snd kv) item) [("id", id)])
            items = List.filter (string_equal "id" id) items).
  { apply filter_ext. intros r. simpl. by rewrite andb_true_r. }
  rewrite Hsame. unfold ret. rewrite find_head_filter. split; [done|].
  by rewrite <- find_head_filter, find_findIndex.
Qed.

Lemma get_is_first_match_witness :
  EntityClient.get "Product" (VStr "p2") (on_device "Product" [milk; bread; bread])
  = (Normal (Some bread), on_device "Product" [milk; bread; bread]).
Proof.
  destruct (get_is_first_match "Product" (VStr "p2")
              (on_device "Product" [milk; bread; bread])
              (on_device "Product" [milk; bread; bread]) [milk; bread; bread] eq_refl)
    as (result & Hf & Hg & Hh).
  rewrite Hg, Hh. reflexivity.
Defined.

(** ** The order and the limit of list *)

Lemma in_order_nil R : in_order R [].
Proof. intros i j a b _ H. by rewrite lookup_nil in H. Qed.

Lemma in_order_cons R x l :
  in_order R (x :: l) <-> Forall (R x) l /\ in_order R l.
Proof.
  split.
  - intros H. split.
    + apply Forall_lookup. intros i y Hy. apply (H 0 (S i) x y); [lia|done|done].
    + intros i j a b Hij Ha Hb. apply (H (S i) (S j) a b); [lia|done|done].
  - intros [Hx Hl] i j a b Hij Ha Hb. destruct j as [|j]; [lia|]. simpl in Hb.
    destruct i as [|i]; simpl in Ha.
    + injection Ha as <-. rewrite Forall_lookup in Hx. by apply (Hx j).
    + apply (Hl i j); [lia|done|done].
Qed.

Lemma in_order_take R k l : in_order R l -> in_order R (take k l).
Proof.
  intros H i j a b Hij Ha Hb.
  apply lookup_take_Some in Ha as [Ha _]. apply lookup_take_Some in Hb as [Hb _].
  by apply (H i j).
Qed.

Lemma elem_of_insert_sorted cmp x l r :
  r ∈ insert_sorted cmp x l <-> r ∈ x :: l.
Proof. by rewrite insert_sorted_Permutation. Qed.

Lemma elem_of_sort_with cmp l r : r ∈ sort_with cmp l <-> r ∈ l.
Proof. by rewrite sort_with_Permutation. Qed.

(** The sort puts in order [R] whatever the comparator decides
    consistently with [R] among the records at hand. *)
Section sorting.
Context (cmp : record -> record -> Z) (R : record -> record -> Prop).
Context (among : record -> Prop).
Hypothesis before :
  forall a b, among a -> among b -> (cmp a b <=? 0)%Z = true -> R a b.
Hypothesis after :
  forall a b, among a -> among b -> (cmp a b <=? 0)%Z = false -> R b a.
Hypothesis through :
  forall a b c, among a -> among b -> among c -> R a b -> R b c -> R a c.

Lemma insert_sorted_in_order x l :
  among x -> Forall among l -> in_order R l -> in_order R (insert_sorted cmp x l).
Proof.
  intros Hx. induction l as [|y l IH]; intros Hl Ho; simpl.
  - apply in_order_cons. split; [constructor | apply in_order_nil].
  - apply Forall_cons in Hl as [Hy Hl]. pose proof Ho as Ho'.
    apply in_order_cons in Ho' as [Hys Hol].
    destruct (cmp x y <=? 0)%Z eqn:E.
    + apply in_order_cons. split; [|done].
      assert (Hxy : R x y) by (apply before; done).
      constructor; [done|].
      rewrite Forall_forall in Hys, Hl |- *. intros z Hz.
      apply through with y; auto.
    + apply in_order_cons. split; [|by apply IH].
      apply Forall_forall. intros z Hz.
      apply (proj1 (elem_of_insert_sorted cmp x l z)) in Hz.
      apply elem_of_cons in Hz as [->|Hz]; [apply after; done|].
      rewrite Forall_forall in Hys. by apply Hys.
Qed.

Lemma sort_with_in_order l : Forall among l -> in_order R (sort_with cmp l).
Proof.
  induction l as [|x l IH]; intros Hl; [apply in_order_nil|].
  change (sort_with cmp (x :: l)) with (insert_sorted cmp x (sort_with cmp l)).
  apply Forall_cons in Hl as [Hx Hl]. apply insert_sorted_in_order; [done| |by apply IH].
  apply Forall_forall. intros z Hz. apply (proj1 (elem_of_sort_with cmp l z)) in Hz.
  rewrite Forall_forall in Hl. by apply Hl.
Qed.
End sorting.

Lemma substring_all s m : String.length s <= m -> substring 0 m s = s.
Proof.
  revert m. induction s as [|c s IH]; intros [|m] H; simpl in *; try done; try lia.
  rewrite IH; [done | lia].
Qed.

Lemma prefix_dash field : String.prefix "-" (String "-" field) = true.
Proof. simpl. by destruct field. Qed.

Lemma in_order_slice_to R limit l : in_order R l -> in_order R (slice_to limit l).
Proof. unfold slice_to. destruct (0 <=? limit)%Z; apply in_order_take. Qed.

Lemma in_order_limit R (limit : option Z) l :
  in_order R l ->
  in_order R match limit with
             | Some k => if (k =? 0)%Z then l else slice_to k l
             | None => l
             end.
Proof.
  intros H. destruct limit as [k|]; [|done].
  destruct (k =? 0)%Z; [done | by apply in_order_slice_to].
Qed.

(** When the engine's [<] is an order on the values that the records hold
    under a field, [list(field)] returns its records in ascending order of
    that field (no record is less than one before it) and [list("-" +
    field)] in descending order (no record is less than one after it),
    with or without an owner and a limit. *)
Theorem list_is_ordered js_lt field limit userId n w w1 items :
  getStorage n w = (Normal items, w1) ->
  orders js_lt field items ->
  field <> "" -> String.prefix "-" field = false ->
  (exists ascending,
     EntityClient.list n js_lt (Some field) limit userId w = (Normal ascending, w1)
     /\ in_order (fun a b => js_lt (prop b field) (prop a field) = false) ascending)
  /\ (exists descending,
        EntityClient.list n js_lt (Some ("-" +:+ field)) limit userId w
        = (Normal descending, w1)
        /\ in_order (fun a b => js_lt (prop a field) (prop b field) = false) descending).
Proof.
  intros Hread [Hasym Hneg] Hne Hpre.
  set (kept := if includes PRIVATE_ENTITIES n && truthy (Some userId)
               then List.filter (string_equal "user_id" userId) items else items).
  assert (Hkept : Forall (fun r => r ∈ items) kept).
  { subst kept. apply Forall_forall. intros r Hr.
    destruct (_ && _); [|done].
    apply list_elem_of_In, filter_In in Hr as [Hr _]. by apply list_elem_of_In. }
  apply String.eqb_neq in Hne.
  split; eexists; unfold EntityClient.list; rewrite (bind_normal _ _ _ _ _ Hread);
    fold kept; (split; [reflexivity|]); apply in_order_limit.
  - rewrite Hne, Hpre.
    apply sort_with_in_order with (among := fun r => r ∈ items); [| | |done].
    + intros a b Ha Hb. unfold compare_by.
      destruct (js_lt (prop a field) (prop b field)) eqn:E1.
      { intros _. by apply Hasym. }
      by destruct (js_lt (prop b field) (prop a field)).
    + intros a b Ha Hb. unfold compare_by.
      destruct (js_lt (prop a field) (prop b field)) eqn:E1; [done|].
      by destruct (js_lt (prop b field) (prop a field)).
    + intros a b c Ha Hb Hc H1 H2. by apply Hneg with b.
  - change ("-" +:+ field) with (String "-" field).
    rewrite prefix_dash.
    cbn [String.eqb String.length substring]. rewrite substring_all by lia.
    apply sort_with_in_order with (among := fun r => r ∈ items); [| | |done].
    + intros a b Ha Hb. unfold compare_by.
      destruct (js_lt (prop a field) (prop b field)) eqn:E1; [done|].
      by destruct (js_lt (prop b field) (prop a field)).
    + intros a b Ha Hb. unfold compare_by.
      destruct (js_lt (prop a field) (prop b field)) eqn:E1.
      { intros _. by apply Hasym. }
      by destruct (js_lt (prop b field) (prop a field)).
    + intros a b c Ha Hb Hc H1 H2. by apply Hneg with b.
Qed.

Lemma number_lt_orders field items :
  Forall (fun r => exists x, prop r field = Some (VNum x)) items ->
  orders number_lt field items.
Proof.
  intros Hnum. rewrite Forall_forall in Hnum. split.
  - intros a b Ha Hb.
    destruct (Hnum a Ha) as [x ->], (Hnum b Hb) as [y ->]. simpl. lia.
  - intros a b c Ha Hb Hc.
    destruct (Hnum a Ha) as [x ->], (Hnum b Hb) as [y ->], (Hnum c Hc) as [z ->].
    simpl. lia.
Qed.

Lemma list_is_ordered_witness :
  fst (EntityClient.list "Product" number_lt (Some "price") None VNull
         (on_device "Product" [priced "a" 3; priced "b" 1; priced "c" 2]))
  = Normal [priced "b" 1; priced "c" 2; priced "a" 3]
  /\ exists descending,
       fst (EntityClient.list "Product" number_lt (Some "-price") None VNull
              (on_device "Product" [priced "a" 3; priced "b" 1; priced "c" 2]))
       = Normal descending
       /\ in_order (fun a b => number_lt (prop a "price") (prop b "price") = false)
            descending.
Proof.
  split; [reflexivity|].
  destruct (list_is_ordered number_lt "price" None VNull "Product"
              (on_device "Product" [priced "a" 3; priced "b" 1; priced "c" 2])
              (on_device "Product" [priced "a" 3; priced "b" 1; priced "c" 2])
              [priced "a" 3; priced "b" 1; priced "c" 2] eq_refl)
    as [_ (descending & Hrun & Hord)].
  - apply number_lt_orders. repeat constructor; by eexists.
  - discriminate.
  - reflexivity.
  - exists descending. split; [|exact Hord].
    change ("-" +:+ "price") with "-price" in Hrun. by rewrite Hrun.
Defined.

Lemma slice_to_prefix k (l : list record) : slice_to k l `prefix_of` l.
Proof. unfold slice_to. destruct (0 <=? k)%Z; apply prefix_take. Qed.

(** The limit of [list] cuts the end of what [list] returns without it:
    a positive limit keeps that many records from the start (all of them
    when there are fewer), a negative limit drops that many from the end,
    and the limit 0 is no limit: everything is returned. *)
Theorem list_limit js_lt sort userId n w w1 items (k : Z) :
  getStorage n w = (Normal items, w1) ->
  exists all result,
    EntityClient.list n js_lt sort None userId w = (Normal all, w1)
    /\ EntityClient.list n js_lt sort (Some k) userId w = (Normal result, w1)
    /\ result `prefix_of` all
    /\ (k = 0%Z -> result = all)
    /\ ((0 < k)%Z -> length result = Z.to_nat k `min` length all)
    /\ ((k < 0)%Z -> length result = length all - Z.to_nat (- k)).
Proof.
  intros Hread. eexists _, _. unfold EntityClient.list.
  rewrite !(bind_normal _ _ _ _ _ Hread).
  split; [reflexivity|]. split; [reflexivity|].
  match goal with |- context [slice_to k ?l] => generalize l end. intros all.
  destruct (Z.eqb_spec k 0) as [->|Hk].
  - repeat split; try done; lia.
  - split; [apply slice_to_prefix|]. split; [done|]. unfold slice_to. split; intros H.
    + destruct (Z.leb_spec 0 k); [|lia]. by rewrite length_take.
    + destruct (Z.leb_spec 0 k); [lia|]. rewrite length_take. lia.
Qed.

Lemma list_limit_witness :
  fst (EntityClient.list "Product" number_lt None (Some 0%Z) VNull
         (on_device "Product" [milk; bread]))
  = Normal [milk; bread]
  /\ fst (EntityClient.list "Product" number_lt None (Some (-1)%Z) VNull
            (on_device "Product" [milk; bread]))
     = Normal [milk].
Proof.
  destruct (list_limit number_lt None VNull "Product"
              (on_device "Product" [milk; bread]) (on_device "Product" [milk; bread])
              [milk; bread] 0%Z eq_refl)
    as (all & result & Hall & Hrun & _ & Hzero & _).
  split; [|reflexivity].
  rewrite Hrun. simpl. rewrite (Hzero eq_refl).
  injection Hall as <-. reflexivity.
Defined.

(** Without an owner id ([null], the default, or any other falsy value)
    [list] filters nothing, on a private entity type as on a shared one:
    it does what [list(sort, limit, null)] does, and without a limit it
    returns every record of the collection, whoever owns it. *)
Theorem list_without_owner_is_unfiltered js_lt sort limit userId n w :
  truthy (Some userId) = false ->
  EntityClient.list n js_lt sort limit userId w
  = EntityClient.list n js_lt sort limit VNull w
  /\ forall items w1,
       getStorage n w = (Normal items, w1) ->
       exists result,
         EntityClient.list n js_lt sort None userId w = (Normal result, w1)
         /\ result ≡ₚ items.
Proof.
  intros Hf. split.
  - unfold EntityClient.list. rewrite Hf. change (truthy (Some VNull)) with false.
    by rewrite !andb_false_r.
  - intros items w1 Hread. eexists. unfold EntityClient.list.
    rewrite (bind_normal _ _ _ _ _ Hread). rewrite Hf, andb_false_r.
    split; [reflexivity|]. apply (sorted_by_Permutation js_lt sort items).
Qed.

Lemma list_without_owner_is_unfiltered_witness :
  EntityClient.list "ShoppingList" number_lt None None (VStr "")
    (on_device "ShoppingList" [of_user "l1" "u1"; of_user "l2" "u2"])
  = (Normal [of_user "l1" "u1"; of_user "l2" "u2"],
     on_device "ShoppingList" [of_user "l1" "u1"; of_user "l2" "u2"]).
Proof.
  destruct (list_without_owner_is_unfiltered number_lt None None (VStr "")
              "ShoppingList"
              (on_device "ShoppingList" [of_user "l1" "u1"; of_user "l2" "u2"])
              eq_refl) as [-> _].
  reflexivity.
Defined.

(** ** Ids *)

Lemma string_equal_to_String k v v' item :
  to_String v = to_String v' -> string_equal k v item = string_equal k v' item.
Proof. unfold string_equal. by intros ->. Qed.

Lemma find_pointwise (p q : record -> bool) (items : list record) :
  (forall r, p r = q r) -> find p items = find q items.
Proof.
  intros H. induction items as [|x items IH]; simpl; [done|]. by rewrite H, IH.
Qed.

Lemma findIndex_pointwise (p q : record -> bool) (items : list record) :
  (forall r, p r = q r) -> findIndex p items = findIndex q items.
Proof.
  intros H. induction items as [|x items IH]; simpl; [done|]. by rewrite H, IH.
Qed.

Lemma bind_pointwise {A B} (c : M A) (k k' : A -> M B) w :
  (forall a w1, k a w1 = k' a w1) -> bind c k w = bind c k' w.
Proof. intros H. unfold bind. by destruct (c w) as [[a|e] w1]. Qed.

(** An id is compared as a string.  Two ids with the same string form,
    such as the number 7 and the string "7", are the same id for [get],
    [update], [delete], [toggleLike] and [toggleDislike]: each function
    does with the one exactly what it does with the other. *)
Theorem ids_are_compared_as_strings n id id' w :
  to_String id = to_String id' ->
  EntityClient.get n id w = EntityClient.get n id' w
  /\ (forall data userId t1 t2,
        EntityClient.update n id data userId t1 t2 w
        = EntityClient.update n id' data userId t1 t2 w)
  /\ EntityClient.delete n id w = EntityClient.delete n id' w
  /\ (forall a, EntityClient.toggleLike n id a w = EntityClient.toggleLike n id' a w)
  /\ (forall a,
        EntityClient.toggleDislike n id a w = EntityClient.toggleDislike n id' a w).
Proof.
  intros Heq.
  pose proof (fun item => string_equal_to_String "id" id id' item Heq) as Hse.
  split; [|split; [|split; [|split]]]; intros.
  - unfold EntityClient.get. apply bind_pointwise. intros items w1.
    by rewrite (find_pointwise _ _ items Hse).
  - unfold EntityClient.update. apply bind_pointwise. intros items w1.
    unfold EntityClient.update_after_read.
    by rewrite (findIndex_pointwise _ _ items Hse), Heq.
  - unfold EntityClient.delete. apply bind_pointwise. intros items w1.
    unfold EntityClient.delete_after_read. rewrite Heq.
    by rewrite (filter_ext _ (fun item => negb (string_equal "id" id' item)))
      by (intros r; by rewrite Hse).
  - unfold EntityClient.toggleLike. apply bind_pointwise. intros items w1.
    unfold EntityClient.toggleLike_after_read.
    by rewrite (findIndex_pointwise _ _ items Hse), Heq.
  - unfold EntityClient.toggleDislike. apply bind_pointwise. intros items w1.
    unfold EntityClient.toggleDislike_after_read.
    by rewrite (findIndex_pointwise _ _ items Hse), Heq.
Qed.

Lemma ids_are_compared_as_strings_witness :
  EntityClient.get "Product" (VNum 7) (on_device "Product" [[("id", VStr "7")]])
  = (Normal (Some [("id", VStr "7")]), on_device "Product" [[("id", VStr "7")]]).
Proof.
  destruct (ids_are_compared_as_strings "Product" (VNum 7) (VStr "7")
              (on_device "Product" [[("id", VStr "7")]]) eq_refl) as [-> _].
  reflexivity.
Defined.

(** ** A write followed by reads *)

Lemma get_reads n id w items :
  fst (getStorage n w) = Normal items ->
  fst (EntityClient.get n id w) = Normal (find (string_equal "id" id) items).
Proof.
  intros H. unfold EntityClient.get, bind.
  destruct (getStorage n w) as [c w1]. simpl in H. by subst c.
Qed.

Lemma find_pushed (p : record -> bool) (items : list record) x :
  find p (items ++ [x])
  = match find p items with
    | Some r => Some r
    | None => if p x then Some x else None
    end.
Proof. induction items as [|y items IH]; simpl; [done|]. by destruct (p y). Qed.

Lemma find_filter_other (p q : record -> bool) (items : list record) :
  (forall r, p r = true -> q r = true) ->
  find p (List.filter q items) = find p items.
Proof.
  intros Hpq. induction items as [|x items IH]; simpl; [done|].
  destruct (q x) eqn:Hq; simpl.
  - by rewrite IH.
  - destruct (p x) eqn:Hp; [|done]. apply Hpq in Hp. congruence.
Qed.

Lemma find_filter_none (p : record -> bool) (items : list record) :
  find p (List.filter (fun r => negb (p r)) items) = None.
Proof.
  induction items as [|x items IH]; simpl; [done|].
  destruct (p x) eqn:Hp; simpl; [done|]. by rewrite Hp.
Qed.

Lemma string_equal_own_id item s :
  prop item "id" = Some (VStr s) -> string_equal "id" (VStr s) item = true.
Proof. unfold string_equal. intros ->. simpl. apply String.eqb_refl. Qed.

(** One create and one delete of a session in sync, from the read to what
    the next read finds. *)
Lemma create_step n data userId random36 created updated w w1 items :
  in_sync n w -> getStorage n w = (Normal items, w1) ->
  let run := EntityClient.create n data userId random36 created updated w in
  exists item,
    fst run = Normal (VObj item)
    /\ prop item "id" = Some (VStr (random_id random36))
    /\ in_sync n (snd run)
    /\ fst (getStorage n (snd run)) = Normal (items ++ [item]).
Proof.
  intros Hs Hread. cbv zeta.
  destruct (getStorage_again n w w1 items Hs Hread) as [Hs1 _].
  unfold EntityClient.create. rewrite (bind_normal _ _ _ _ _ Hread).
  rewrite create_after_read_eq. cbn [fst snd].
  eexists. split; [reflexivity|]. split; [apply new_item_props|].
  by apply setStorage_in_sync.
Qed.

Lemma delete_step n id w items :
  in_sync n w -> fst (getStorage n w) = Normal items ->
  let w' := snd (EntityClient.delete n id w) in
  in_sync n w'
  /\ fst (getStorage n w')
     = Normal (List.filter (fun item => negb (string_equal "id" id item)) items).
Proof.
  intros Hs Hread. cbv zeta.
  destruct (getStorage n w) as [c w1] eqn:Hget. simpl in Hread. subst c.
  destruct (getStorage_again n w w1 items Hs Hget) as [Hs1 _].
  unfold EntityClient.delete. rewrite (bind_normal _ _ _ _ _ Hget).
  rewrite delete_after_read_eq. cbn [snd]. by apply setStorage_in_sync.
Qed.

(** [create] stores the payload as it is given: every field of the
    payload that is not one of the ten system fields is in the new record
    with the payload's value, and the new record has no other field. *)
Theorem create_keeps_payload n data userId random36 created updated w w1 items :
  getStorage n w = (Normal items, w1) ->
  exists item w2,
    EntityClient.create n data userId random36 created updated w
      = (Normal (VObj item), w2)
    /\ persisted n (items ++ [item]) w2
    /\ forall k, k ∉ system_fields -> prop item k = prop data k.
Proof.
  intros Hread.
  destruct (create_runs n data userId random36 created updated w w1 items Hread)
    as (w2 & Hrun & Hp).
  eexists. exists w2. split; [exact Hrun|]. split; [exact Hp|].
  intros k Hk. unfold new_item. by apply prop_spread_other.
Qed.

Lemma create_keeps_payload_witness :
  exists item w2,
    EntityClient.create "Product" [("name", VStr "tea"); ("price", VNum 4)] VNull
      "0.4fzyo82mvyr" "2026-01-01T09:00:00.000Z" "2026-01-01T09:00:00.001Z"
      (on_device "Product" [milk])
    = (Normal (VObj item), w2)
    /\ prop item "name" = Some (VStr "tea")
    /\ prop item "price" = Some (VNum 4)
    /\ prop item "brand" = None.
Proof.
  destruct (create_keeps_payload "Product" [("name", VStr "tea"); ("price", VNum 4)]
              VNull "0.4fzyo82mvyr" "2026-01-01T09:00:00.000Z"
              "2026-01-01T09:00:00.001Z"
              (on_device "Product" [milk]) (on_device "Product" [milk]) [milk] eq_refl)
    as (item & w2 & Hrun & _ & Hk).
  exists item, w2. split; [exact Hrun|].
  repeat split; (rewrite Hk; [reflexivity | by_evaluation]).
Defined.

(** In a session whose reads meet its writes, the next read after a
    [create] finds the collection with the new record at its end, and
    [get] with the new id returns the new record when no record had that
    id before; every id that [get] found before it still finds, with the
    same record, also when the new record has taken the same id. *)
Theorem create_then_get n data userId random36 created updated w w1 items :
  in_sync n w -> getStorage n w = (Normal items, w1) ->
  let run := EntityClient.create n data userId random36 created updated w in
  exists item,
    fst run = Normal (VObj item)
    /\ fst (getStorage n (snd run)) = Normal (items ++ [item])
    /\ (Forall (fun r => string_equal "id" (VStr (random_id random36)) r = false) items ->
        fst (EntityClient.get n (VStr (random_id random36)) (snd run))
        = Normal (Some item))
    /\ (forall id r, find (string_equal "id" id) items = Some r ->
          fst (EntityClient.get n id (snd run)) = Normal (Some r)).
Proof.
  intros Hs Hread.
  destruct (create_step n data userId random36 created updated w w1 items Hs Hread)
    as (item & Hrun & Hid & _ & Hback).
  cbv zeta in *. exists item. split; [exact Hrun|]. split; [exact Hback|]. split.
  - intros Hnew. rewrite (get_reads _ _ _ _ Hback), find_pushed.
    rewrite (find_None _ _ Hnew). by rewrite (string_equal_own_id _ _ Hid).
  - intros id r Hr. rewrite (get_reads _ _ _ _ Hback), find_pushed. by rewrite Hr.
Qed.

Lemma create_then_get_witness :
  exists item,
    fst (EntityClient.get "Product" (VStr "4fzyo82mv")
           (snd (EntityClient.create "Product" [("name", VStr "tea")] VNull
                   "0.4fzyo82mvyr" "2026-01-01T09:00:00.000Z" "2026-01-01T09:00:00.001Z"
                   (on_device "Product" [milk]))))
    = Normal (Some item)
    /\ prop item "name" = Some (VStr "tea").
Proof.
  destruct (create_then_get "Product" [("name", VStr "tea")] VNull "0.4fzyo82mvyr"
              "2026-01-01T09:00:00.000Z" "2026-01-01T09:00:00.001Z"
              (on_device "Product" [milk]) (on_device "Product" [milk]) [milk])
    as (item & Hrun & _ & Hget & _).
  - by left.
  - reflexivity.
  - exists item. split.
    + apply Hget. by repeat constructor.
    + vm_compute in Hrun. injection Hrun as <-. reflexivity.
Defined.

(** In a session whose reads meet its writes, after [delete(id)] the next
    read finds the collection without the records of that id, [get(id)]
    returns undefined, and [get] with an id that is another string returns
    what it returned before. *)
Theorem delete_then_get n id w w1 items :
  in_sync n w -> getStorage n w = (Normal items, w1) ->
  let w' := snd (EntityClient.delete n id w) in
  fst (getStorage n w')
  = Normal (List.filter (fun item => negb (string_equal "id" id item)) items)
  /\ fst (EntityClient.get n id w') = Normal None
  /\ (forall id', to_String id' <> to_String id ->
        fst (EntityClient.get n id' w') = fst (EntityClient.get n id' w)).
Proof.
  intros Hs Hread.
  assert (Hfst : fst (getStorage n w) = Normal items) by by rewrite Hread.
  destruct (delete_step n id w items Hs Hfst) as [_ Hback].
  cbv zeta in *. split; [exact Hback|]. split.
  - rewrite (get_reads _ _ _ _ Hback). by rewrite find_filter_none.
  - intros id' Hne. rewrite (get_reads _ _ _ _ Hback), (get_reads _ _ _ _ Hfst).
    f_equal. apply find_filter_other. intros r Hr.
    unfold string_equal in *. apply String.eqb_eq in Hr.
    apply negb_true_iff, String.eqb_neq. congruence.
Qed.

Lemma delete_then_get_witness :
  fst (EntityClient.get "Product" (VStr "p1")
         (snd (EntityClient.delete "Product" (VStr "p1")
                 (on_device "Product" [milk; bread; milk]))))
  = Normal None
  /\ fst (EntityClient.get "Product" (VStr "p2")
            (snd (EntityClient.delete "Product" (VStr "p1")
                    (on_device "Product" [milk; bread; milk]))))
     = Normal (Some bread).
Proof.
  destruct (delete_then_get "Product" (VStr "p1")
              (on_device "Product" [milk; bread; milk])
              (on_device "Product" [milk; bread; milk]) [milk; bread; milk])
    as (_ & Hgone & Hkept).
  - by left.
  - reflexivity.
  - split; [exact Hgone|]. rewrite (Hkept (VStr "p2")); [reflexivity | discriminate].
Defined.

(** In a session whose reads meet its writes, a [create] followed by a
    [delete] of the id it assigned leaves the collection without the new
    record and without any older record of the same id; when the id was
    new to the collection, that is the collection as it was. *)
Theorem create_then_delete n data userId random36 created updated w w1 items :
  in_sync n w -> getStorage n w = (Normal items, w1) ->
  let id := VStr (random_id random36) in
  let created_world :=
    snd (EntityClient.create n data userId random36 created updated w) in
  let w' := snd (EntityClient.delete n id created_world) in
  fst (getStorage n w')
  = Normal (List.filter (fun item => negb (string_equal "id" id item)) items)
  /\ (Forall (fun r => string_equal "id" id r = false) items ->
      fst (getStorage n w') = Normal items).
Proof.
  intros Hs Hread. cbv zeta.
  destruct (create_step n data userId random36 created updated w w1 items Hs Hread)
    as (item & _ & Hid & Hs' & Hread').
  cbv zeta in *.
  destruct (delete_step n (VStr (random_id random36)) _ _ Hs' Hread') as [_ Hback].
  cbv zeta in Hback. rewrite Hback.
  rewrite List.filter_app. simpl. rewrite (string_equal_own_id _ _ Hid). simpl.
  rewrite app_nil_r. split; [done|].
  intros Hfresh. f_equal. apply filter_all.
  eapply Forall_impl; [exact Hfresh|]. intros r Hr. simpl in Hr. by rewrite Hr.
Qed.

Lemma create_then_delete_witness :
  fst (getStorage "Product"
         (snd (EntityClient.delete "Product" (VStr "4fzyo82mv")
                 (snd (EntityClient.create "Product" [("name", VStr "tea")] VNull
                         "0.4fzyo82mvyr" "2026-01-01T09:00:00.000Z"
                         "2026-01-01T09:00:00.001Z"
                         (on_device "Product" [milk; bread]))))))
  = Normal [milk; bread].
Proof.
  destruct (create_then_delete "Product" [("name", VStr "tea")] VNull "0.4fzyo82mvyr"
              "2026-01-01T09:00:00.000Z" "2026-01-01T09:00:00.001Z"
              (on_device "Product" [milk; bread]) (on_device "Product" [milk; bread])
              [milk; bread])
    as [_ Hback].
  - by left.
  - reflexivity.
  - apply Hback. by repeat constructor.
Defined.

(** ** update, further *)

Lemma update_no_changes n id data userId t1 t2 w w1 items index oldItem :
  getStorage n w = (Normal items, w1) ->
  findIndex (string_equal "id" id) items = Some (index, oldItem) ->
  changes_of oldItem data = [] ->
  EntityClient.update n id data userId t1 t2 w = (Normal (VObj oldItem), w1).
Proof.
  intros Hread Hidx Hnil. unfold EntityClient.update.
  rewrite (bind_normal _ _ _ _ _ Hread).
  unfold EntityClient.update_after_read, current_user, bind. by rewrite Hidx, Hnil.
Qed.

Lemma changes_of_nil oldItem data :
  (forall k, k ∈ keys data -> k <> "edit_history" ->
     JSON_stringify (prop oldItem k) = JSON_stringify (prop data k)) ->
  changes_of oldItem data = [].
Proof.
  intros Hsame. destruct (changes_of oldItem data) as [|c cs] eqn:Hcs; [done|].
  assert (Hc : c ∈ changes_of oldItem data) by (rewrite Hcs; left).
  apply elem_of_changes_of in Hc as (k & Hk & Hch & _).
  apply changed_inv in Hch as [Hne Hdiff]. by specialize (Hsame k Hk Hne).
Qed.

(** The edit_history of a payload counts for nothing: an [update] whose
    payload differs from the stored record under edit_history only makes
    no entry, writes to neither store and returns the record as it is
    stored, with the history it had. *)
Theorem update_ignores_history_payload n id data userId t1 t2 w w1 items index oldItem :
  getStorage n w = (Normal items, w1) ->
  findIndex (string_equal "id" id) items = Some (index, oldItem) ->
  (forall k, k ∈ keys data -> k <> "edit_history" ->
     JSON_stringify (prop oldItem k) = JSON_stringify (prop data k)) ->
  EntityClient.update n id data userId t1 t2 w = (Normal (VObj oldItem), w1)
  /\ there w1 = there w
  /\ localStorage (here w1) = localStorage (here w).
Proof.
  intros Hread Hidx Hsame. split.
  - apply update_no_changes with items index; [done|done|]. by apply changes_of_nil.
  - pose proof (getStorage_reads_only n w) as (H1 & H2 & _).
    rewrite Hread in H1, H2. by simpl in *.
Qed.

Lemma update_ignores_history_payload_witness :
  EntityClient.update "Product" (VStr "p1")
    [("edit_history", VArr [VStr "forged"]); ("name", VStr "milk")] VNull
    "2026-01-02T10:00:00.000Z" "2026-01-02T10:00:00.001Z"
    (on_device "Product" [milk; bread])
  = (Normal (VObj milk), on_device "Product" [milk; bread]).
Proof.
  apply (update_ignores_history_payload "Product" (VStr "p1")
           [("edit_history", VArr [VStr "forged"]); ("name", VStr "milk")] VNull
           "2026-01-02T10:00:00.000Z" "2026-01-02T10:00:00.001Z"
           (on_device "Product" [milk; bread]) (on_device "Product" [milk; bread])
           [milk; bread] 0%nat milk).
  - reflexivity.
  - reflexivity.
  - intros k Hk Hne. simpl in Hk.
    apply elem_of_cons in Hk as [->|Hk]; [done|].
    apply elem_of_cons in Hk as [->|Hk]; [reflexivity|].
    by apply elem_of_nil in Hk.
Defined.

(** An [update] that has a change to record throws a TypeError when the
    stored edit_history is a truthy value that cannot be spread (a number
    other than 0, [true], an object): nothing is written to either store. *)
Theorem update_throws_on_unreadable_history
    n id data userId t1 t2 w w1 items index oldItem h :
  getStorage n w = (Normal items, w1) ->
  findIndex (string_equal "id" id) items = Some (index, oldItem) ->
  changes_of oldItem data <> [] ->
  prop oldItem "edit_history" = Some h -> not_iterable h ->
  EntityClient.update n id data userId t1 t2 w = (Throw TypeError, w1)
  /\ there w1 = there w
  /\ localStorage (here w1) = localStorage (here w).
Proof.
  intros Hread Hidx Hch Hh Hbad. split.
  - unfold EntityClient.update. rewrite (bind_normal _ _ _ _ _ Hread).
    unfold EntityClient.update_after_read, current_user. unfold bind at 1.
    rewrite Hidx. destruct (changes_of oldItem data) as [|c cs]; [done|].
    unfold lift, bind. rewrite Hh.
    destruct h as [|[]|z|s|l|o]; simpl in Hbad; try done.
    unfold or_else, truthy. destruct (Z.eqb_spec z 0); [done|]. done.
  - pose proof (getStorage_reads_only n w) as (H1 & H2 & _).
    rewrite Hread in H1, H2. by simpl in *.
Qed.

Lemma update_throws_on_unreadable_history_witness :
  EntityClient.update "Product" (VStr "p1") [("name", VStr "oat milk")] VNull
    "2026-01-02T10:00:00.000Z" "2026-01-02T10:00:00.001Z"
    (on_device "Product" [[("id", VStr "p1"); ("edit_history", VObj [])]])
  = (Throw TypeError,
     on_device "Product" [[("id", VStr "p1"); ("edit_history", VObj [])]]).
Proof.
  apply (update_throws_on_unreadable_history "Product" (VStr "p1")
           [("name", VStr "oat milk")] VNull
           "2026-01-02T10:00:00.000Z" "2026-01-02T10:00:00.001Z"
           (on_device "Product" [[("id", VStr "p1"); ("edit_history", VObj [])]])
           (on_device "Product" [[("id", VStr "p1"); ("edit_history", VObj [])]])
           [[("id", VStr "p1"); ("edit_history", VObj [])]] 0%nat
           [("id", VStr "p1"); ("edit_history", VObj [])] (VObj [])).
  - reflexivity.
  - reflexivity.
  - vm_compute. discriminate.
  - reflexivity.
  - exact I.
Defined.

(** One update of a session in sync, from its read to what the next read
    finds. *)
Lemma update_step n id data userId t1 t2 w w1 items index oldItem history :
  in_sync n w -> getStorage n w = (Normal items, w1) ->
  findIndex (string_equal "id" id) items = Some (index, oldItem) ->
  prop data "id" = None ->
  elements_of (or_else (prop oldItem "edit_history") (VArr [])) = Normal history ->
  let run := EntityClient.update n id data userId t1 t2 w in
  exists item,
    fst run = Normal (VObj item)
    /\ in_sync n (snd run)
    /\ fst (getStorage n (snd run)) = Normal (<[index := item]> items)
    /\ findIndex (string_equal "id" id) (<[index := item]> items) = Some (index, item)
    /\ (changes_of oldItem data = [] -> item = oldItem)
    /\ (changes_of oldItem data <> [] ->
        forall k, k ∉ ["updated_date"; "updated_by"; "updated_by_name"; "edit_history"] ->
          prop item k = prop (spread oldItem data) k).
Proof.
  intros Hs Hread Hidx Hid Hel. cbv zeta.
  destruct (getStorage_again n w w1 items Hs Hread) as [Hs1 Hagain].
  pose proof (findIndex_Some _ _ _ _ Hidx) as (Hlook & Hp & _).
  destruct (changes_of oldItem data) as [|c cs] eqn:Hch.
  - rewrite (update_no_changes n id data userId t1 t2 w w1 items index oldItem)
      by done.
    exists oldItem. cbn [fst snd]. rewrite list_insert_id by done.
    repeat split; try done.
  - assert (Hne : changes_of oldItem data <> []) by by rewrite Hch.
    unfold EntityClient.update. rewrite (bind_normal _ _ _ _ _ Hread).
    rewrite (update_after_read_eq _ _ _ _ _ _ _ _ _ _ _ Hidx Hne Hel). cbn [fst snd].
    eexists. split; [reflexivity|].
    match goal with
    | |- context [setStorage n ?d ?m w1] =>
        destruct (setStorage_in_sync n d m w1 Hs1) as [Hs2 Hback]
    end.
    match goal with
    | |- context [updated_item ?o ?d ?h ?a ?b ?i ?m] =>
        destruct (updated_item_props o d h a b i m) as (_ & _ & _ & _ & Hother)
    end.
    split; [exact Hs2|]. split; [exact Hback|]. split; [|split; [done|]].
    + apply findIndex_insert with oldItem; [done|].
      erewrite string_equal_same_prop; [exact Hp|].
      rewrite Hother by by_evaluation. apply prop_spread_other. by apply prop_None_keys.
    + intros _ k Hk. by apply Hother.
Qed.

(** In a session whose reads meet its writes, after an [update] whose
    payload carries no id, [get] with the same id returns the record that
    [update] returned; the collection has the records it had, each at its
    place, and only the place of the updated record holds another. *)
Theorem update_then_get n id data userId t1 t2 w w1 items index oldItem history :
  in_sync n w -> getStorage n w = (Normal items, w1) ->
  findIndex (string_equal "id" id) items = Some (index, oldItem) ->
  prop data "id" = None ->
  elements_of (or_else (prop oldItem "edit_history") (VArr [])) = Normal history ->
  let run := EntityClient.update n id data userId t1 t2 w in
  exists item,
    fst run = Normal (VObj item)
    /\ fst (getStorage n (snd run)) = Normal (<[index := item]> items)
    /\ fst (EntityClient.get n id (snd run)) = Normal (Some item)
    /\ length (<[index := item]> items) = length items
    /\ (forall j, j <> index -> <[index := item]> items !! j = items !! j).
Proof.
  intros Hs Hread Hidx Hid Hel.
  destruct (update_step n id data userId t1 t2 w w1 items index oldItem history
              Hs Hread Hidx Hid Hel) as (item & Hrun & _ & Hback & Hfound & _).
  cbv zeta in *. exists item.
  split; [exact Hrun|]. split; [exact Hback|]. split; [|split].
  - rewrite (get_reads _ _ _ _ Hback), find_findIndex. by rewrite Hfound.
  - apply length_insert.
  - intros j Hj. by apply list_lookup_insert_ne.
Qed.

Lemma update_then_get_witness :
  exists item,
    fst (EntityClient.get "Product" (VStr "p2")
           (snd (EntityClient.update "Product" (VStr "p2") [("name", VStr "rye")] VNull
                   "2026-01-02T10:00:00.000Z" "2026-01-02T10:00:00.001Z"
                   (on_device "Product" [milk; bread]))))
    = Normal (Some item)
    /\ prop item "name" = Some (VStr "rye").
Proof.
  destruct (update_then_get "Product" (VStr "p2") [("name", VStr "rye")] VNull
              "2026-01-02T10:00:00.000Z" "2026-01-02T10:00:00.001Z"
              (on_device "Product" [milk; bread]) (on_device "Product" [milk; bread])
              [milk; bread] 1%nat bread [])
    as (item & Hrun & _ & Hget & _).
  - by left.
  - reflexivity.
  - reflexivity.
  - reflexivity.
  - reflexivity.
  - exists item. split; [exact Hget|].
    vm_compute in Hrun. injection Hrun as <-. reflexivity.
Defined.



(** ** One toggle *)

(** A toggle from its read on, for either kind: what it returns, what it
    persists, and the fields of the record. *)
Lemma toggleLike_runs n id a w w1 items index found L D :
  getStorage n w = (Normal items, w1) ->
  findIndex (string_equal "id" id) items = Some (index, found) ->
  reactions found "likes" = Some L -> reactions found "dislikes" = Some D ->
  exists item w2,
    EntityClient.toggleLike n id a w = (Normal (VObj item), w2)
    /\ persisted n (<[index := item]> items) w2
    /\ prop item "likes" = Some (VArr (toggled_own L a))
    /\ prop item "dislikes" = Some (VArr (toggled_other L D a))
    /\ forall k, k <> "likes" -> k <> "dislikes" -> prop item k = prop found k.
Proof.
  intros Hread Hidx HL HD.
  destruct (ensured_arrays found L D HL HD) as (E1 & E2 & E3).
  destruct (toggle_spec "likes" "dislikes" a _ L D ltac:(done) E1 E2)
    as (item & Ht & T1 & T2 & T3).
  exists item. eexists. unfold EntityClient.toggleLike.
  rewrite (bind_normal _ _ _ _ _ Hread).
  rewrite (toggleLike_after_read_eq _ _ _ _ _ _ _ _ Hidx Ht).
  split; [reflexivity|]. split; [apply setStorage_persisted|].
  repeat split; try done. intros k H1 H2. rewrite T3 by done. by apply E3.
Qed.

Lemma toggleDislike_runs n id a w w1 items index found L D :
  getStorage n w = (Normal items, w1) ->
  findIndex (string_equal "id" id) items = Some (index, found) ->
  reactions found "likes" = Some L -> reactions found "dislikes" = Some D ->
  exists item w2,
    EntityClient.toggleDislike n id a w = (Normal (VObj item), w2)
    /\ persisted n (<[index := item]> items) w2
    /\ prop item "dislikes" = Some (VArr (toggled_own D a))
    /\ prop item "likes" = Some (VArr (toggled_other D L a))
    /\ forall k, k <> "likes" -> k <> "dislikes" -> prop item k = prop found k.
Proof.
  intros Hread Hidx HL HD.
  destruct (ensured_arrays found L D HL HD) as (E1 & E2 & E3).
  destruct (toggle_spec "dislikes" "likes" a _ D L ltac:(done) E2 E1)
    as (item & Ht & T1 & T2 & T3).
  exists item. eexists. unfold EntityClient.toggleDislike.
  rewrite (bind_normal _ _ _ _ _ Hread).
  rewrite (toggleDislike_after_read_eq _ _ _ _ _ _ _ _ Hidx Ht).
  split; [reflexivity|]. split; [apply setStorage_persisted|].
  repeat split; try done. intros k H1 H2. rewrite T3 by done. by apply E3.
Qed.

(** A reaction is no edit.  [toggleLike] and [toggleDislike] change the
    likes and the dislikes of the record they find and nothing else: its
    other fields, updated_date, updated_by and edit_history among them,
    are those it had, and the other records of the persisted collection
    are at their places as they were. *)
Theorem toggles_change_reactions_only n id a w w1 items index found L D :
  getStorage n w = (Normal items, w1) ->
  findIndex (string_equal "id" id) items = Some (index, found) ->
  reactions found "likes" = Some L -> reactions found "dislikes" = Some D ->
  (exists item w2,
     EntityClient.toggleLike n id a w = (Normal (VObj item), w2)
     /\ persisted n (<[index := item]> items) w2
     /\ (forall k, k <> "likes" -> k <> "dislikes" -> prop item k = prop found k)
     /\ (forall j, j <> index -> <[index := item]> items !! j = items !! j))
  /\ (exists item w2,
        EntityClient.toggleDislike n id a w = (Normal (VObj item), w2)
        /\ persisted n (<[index := item]> items) w2
        /\ (forall k, k <> "likes" -> k <> "dislikes" -> prop item k = prop found k)
        /\ (forall j, j <> index -> <[index := item]> items !! j = items !! j)).
Proof.
  intros Hread Hidx HL HD. split.
  - destruct (toggleLike_runs n id a w w1 items index found L D Hread Hidx HL HD)
      as (item & w2 & Hrun & Hp & _ & _ & Hk).
    exists item, w2. repeat split; try done.
    intros j Hj. by apply list_lookup_insert_ne.
  - destruct (toggleDislike_runs n id a w w1 items index found L D Hread Hidx HL HD)
      as (item & w2 & Hrun & Hp & _ & _ & Hk).
    exists item, w2. repeat split; try done.
    intros j Hj. by apply list_lookup_insert_ne.
Qed.

Lemma toggles_change_reactions_only_witness :
  exists item w2,
    EntityClient.toggleLike "Product" (VStr "p5") (VStr "alice")
      (on_device "Product" [edited])
    = (Normal (VObj item), w2)
    /\ prop item "updated_date" = Some (VStr "2025-12-31T00:00:00.000Z")
    /\ prop item "edit_history" = Some (VArr [VStr "e1"]).
Proof.
  destruct (toggles_change_reactions_only "Product" (VStr "p5") (VStr "alice")
              (on_device "Product" [edited]) (on_device "Product" [edited])
              [edited] 0%nat edited [] [])
    as [(item & w2 & Hrun & _ & Hk & _) _].
  - reflexivity.
  - reflexivity.
  - reflexivity.
  - reflexivity.
  - exists item, w2. split; [exact Hrun|].
    split; (rewrite Hk; [reflexivity | discriminate | discriminate]).
Defined.

(** A toggle throws a TypeError, and writes to neither store, when the
    array it is named after is stored as a truthy value that is no array
    (a number, a string, an object): [toggleLike] for such likes,
    [toggleDislike] for such dislikes. *)
Theorem toggle_throws_on_non_array n id a w w1 items index found v :
  getStorage n w = (Normal items, w1) ->
  findIndex (string_equal "id" id) items = Some (index, found) ->
  truthy (Some v) = true -> (forall l, v <> VArr l) ->
  (prop found "likes" = Some v ->
   EntityClient.toggleLike n id a w = (Throw TypeError, w1))
  /\ (prop found "dislikes" = Some v ->
      EntityClient.toggleDislike n id a w = (Throw TypeError, w1))
  /\ there w1 = there w
  /\ localStorage (here w1) = localStorage (here w).
Proof.
  intros Hread Hidx Ht Hv.
  assert (Hthrow : forall mine other item,
            prop item mine = Some v -> toggle mine other a item = Throw TypeError).
  { intros mine other item Hp. unfold toggle. rewrite Hp.
    destruct v; try done. by destruct (Hv elems). }
  split; [|split].
  - intros Hp. unfold EntityClient.toggleLike. rewrite (bind_normal _ _ _ _ _ Hread).
    unfold EntityClient.toggleLike_after_read. rewrite Hidx.
    unfold lift, bind. rewrite Hthrow; [done|].
    rewrite prop_ensure_other by done. unfold ensure_array. by rewrite Hp, Ht.
  - intros Hp. unfold EntityClient.toggleDislike. rewrite (bind_normal _ _ _ _ _ Hread).
    unfold EntityClient.toggleDislike_after_read. rewrite Hidx.
    unfold lift, bind. rewrite Hthrow; [done|].
    unfold ensure_array at 1. rewrite prop_ensure_other by done. rewrite Hp, Ht.
    by rewrite prop_ensure_other.
  - pose proof (getStorage_reads_only n w) as (H1 & H2 & _).
    rewrite Hread in H1, H2. by simpl in *.
Qed.

Lemma toggle_throws_on_non_array_witness :
  EntityClient.toggleLike "Product" (VStr "p6") (VStr "alice")
    (on_device "Product" [[("id", VStr "p6"); ("likes", VNum 3)]])
  = (Throw TypeError, on_device "Product" [[("id", VStr "p6"); ("likes", VNum 3)]]).
Proof.
  destruct (toggle_throws_on_non_array "Product" (VStr "p6") (VStr "alice")
              (on_device "Product" [[("id", VStr "p6"); ("likes", VNum 3)]])
              (on_device "Product" [[("id", VStr "p6"); ("likes", VNum 3)]])
              [[("id", VStr "p6"); ("likes", VNum 3)]] 0%nat
              [("id", VStr "p6"); ("likes", VNum 3)] (VNum 3))
    as (Hlike & _).
  - reflexivity.
  - reflexivity.
  - reflexivity.
  - discriminate.
  - apply Hlike. reflexivity.
Defined.

Lemma toggled_own_actor L u :
  NoDup L -> VStr u ∈ toggled_own L (VStr u) <-> VStr u ∉ L.
Proof.
  intros HL. unfold toggled_own. destruct (indexOf L (VStr u)) as [i|] eqn:Hi.
  - apply indexOf_Some in Hi. pose proof (splice1_removes i L _ HL Hi) as Hout.
    apply list_elem_of_lookup_2 in Hi. split; [done|]. intros H. by destruct H.
  - apply indexOf_None in Hi. split; [done|]. intros _. apply elem_of_app. right. left.
Qed.

Lemma toggled_own_others L u a :
  a <> VStr u -> a ∈ toggled_own L (VStr u) <-> a ∈ L.
Proof.
  intros Hne. unfold toggled_own. destruct (indexOf L (VStr u)) as [i|] eqn:Hi.
  - apply indexOf_Some in Hi. rewrite (splice1_Permutation i L _ Hi) at 2.
    rewrite elem_of_cons. split; [by right|]. by intros [?|?].
  - rewrite elem_of_app, list_elem_of_singleton. split; [|by left]. by intros [?|?].
Qed.

Lemma toggled_other_others L D u a :
  a <> VStr u -> a ∈ toggled_other L D (VStr u) <-> a ∈ D.
Proof.
  intros Hne. unfold toggled_other. destruct (indexOf L (VStr u)); [done|].
  destruct (indexOf D (VStr u)) as [j|] eqn:Hj; [|done].
  apply indexOf_Some in Hj. rewrite (splice1_Permutation j D _ Hj) at 2.
  rewrite elem_of_cons. split; [by right|]. by intros [?|?].
Qed.

Lemma toggled_other_actor L D u :
  NoDup D -> VStr u ∉ L -> VStr u ∉ toggled_other L D (VStr u).
Proof.
  intros HD HL. unfold toggled_other.
  apply indexOf_None in HL. rewrite HL.
  destruct (indexOf D (VStr u)) as [j|] eqn:Hj.
  - apply indexOf_Some in Hj. by apply splice1_removes.
  - by apply indexOf_None.
Qed.

(** One toggle, on a record whose likes and dislikes are duplicate-free
    arrays, by an actor with a string id.  [toggleLike] puts the actor
    into the likes exactly when the actor was not there, and takes the
    actor out otherwise; an actor put into the likes is in the dislikes
    no more, and an actor taken out of the likes leaves the dislikes as
    they were; every other actor is in the arrays in which that actor
    was.  [toggleDislike] does the same with the two arrays exchanged. *)
Theorem toggle_flips_the_actor n id u w w1 items index found L D :
  getStorage n w = (Normal items, w1) ->
  findIndex (string_equal "id" id) items = Some (index, found) ->
  reactions found "likes" = Some L -> reactions found "dislikes" = Some D ->
  NoDup L -> NoDup D ->
  (exists item w2 L' D',
     EntityClient.toggleLike n id (VStr u) w = (Normal (VObj item), w2)
     /\ prop item "likes" = Some (VArr L') /\ prop item "dislikes" = Some (VArr D')
     /\ (VStr u ∈ L' <-> VStr u ∉ L)
     /\ (VStr u ∈ L' -> VStr u ∉ D')
     /\ (VStr u ∈ L -> D' = D)
     /\ (forall a, a <> VStr u -> (a ∈ L' <-> a ∈ L) /\ (a ∈ D' <-> a ∈ D)))
  /\ (exists item w2 L' D',
        EntityClient.toggleDislike n id (VStr u) w = (Normal (VObj item), w2)
        /\ prop item "likes" = Some (VArr L') /\ prop item "dislikes" = Some (VArr D')
        /\ (VStr u ∈ D' <-> VStr u ∉ D)
        /\ (VStr u ∈ D' -> VStr u ∉ L')
        /\ (VStr u ∈ D -> L' = L)
        /\ (forall a, a <> VStr u -> (a ∈ L' <-> a ∈ L) /\ (a ∈ D' <-> a ∈ D))).
Proof.
  intros Hread Hidx HL HD NL ND. split.
  - destruct (toggleLike_runs n id (VStr u) w w1 items index found L D Hread Hidx HL HD)
      as (item & w2 & Hrun & _ & H1 & H2 & _).
    exists item, w2, (toggled_own L (VStr u)), (toggled_other L D (VStr u)).
    split; [done|]. split; [done|]. split; [done|].
    split; [by apply toggled_own_actor|]. split; [|split].
    + intros Hin. apply toggled_own_actor in Hin; [|done]. by apply toggled_other_actor.
    + intros Hin. unfold toggled_other.
      destruct (indexOf L (VStr u)) eqn:E; [done|]. by apply indexOf_None in E.
    + intros a Ha. split; [by apply toggled_own_others | by apply toggled_other_others].
  - destruct (toggleDislike_runs n id (VStr u) w w1 items index found L D Hread Hidx HL HD)
      as (item & w2 & Hrun & _ & H1 & H2 & _).
    exists item, w2, (toggled_other D L (VStr u)), (toggled_own D (VStr u)).
    split; [done|]. split; [done|]. split; [done|].
    split; [by apply toggled_own_actor|]. split; [|split].
    + intros Hin. apply toggled_own_actor in Hin; [|done]. by apply toggled_other_actor.
    + intros Hin. unfold toggled_other.
      destruct (indexOf D (VStr u)) eqn:E; [done|]. by apply indexOf_None in E.
    + intros a Ha. split; [by apply toggled_other_others | by apply toggled_own_others].
Qed.

Lemma toggle_flips_the_actor_witness :
  exists item w2,
    EntityClient.toggleDislike "Product" (VStr "p3") (VStr "alice")
      (on_device "Product" [reviewed])
    = (Normal (VObj item), w2)
    /\ prop item "likes" = Some (VArr [])
    /\ prop item "dislikes" = Some (VArr [VStr "alice"]).
Proof.
  destruct (toggle_flips_the_actor "Product" (VStr "p3") "alice"
              (on_device "Product" [reviewed]) (on_device "Product" [reviewed])
              [reviewed] 0%nat reviewed [VStr "alice"] [])
    as [_ (item & w2 & L' & D' & Hrun & _)].
  - reflexivity.
  - reflexivity.
  - reflexivity.
  - reflexivity.
  - apply NoDup_singleton.
  - apply NoDup_nil_2.
  - exists item, w2. split; [exact Hrun|].
    vm_compute in Hrun. injection Hrun as <- _. by split.
Defined.

(** ** uploadFile *)

(** When its two requests are delivered, [uploadFile] succeeds whatever
    token the session holds for a file that exists, since it takes the
    token from the file first (and for a new file, when it holds none):
    the repository has the file under the path, one commit is logged
    under the given message or under "Add <path>", localStorage is as it
    was, and the raw URL of the path under the configured owner,
    repository and branch is returned. *)
Theorem uploadFile_replaces_the_file owner repo branch path file message w :
  github (here w) = true -> network (here w) = [] ->
  (files (there w) !! path = None -> shaCache (here w) !! path = None) ->
  let w' := snd (uploadFile owner repo branch path file message w) in
  exists s,
    fst (uploadFile owner repo branch path file message w)
    = inr ("https://raw.githubusercontent.com/" +:+ owner +:+ "/" +:+ repo
             +:+ "/" +:+ branch +:+ "/" +:+ path)
    /\ files (there w') = <[path := Blob file s]> (files (there w))
    /\ s = match files (there w) !! path with Some old => S (sha old) | None => 0 end
    /\ commits (there w')
       = commits (there w)
           ++ [(path, if String.eqb message "" then "Add " +:+ path else message)]
    /\ shaCache (here w') !! path = Some s
    /\ localStorage (here w') = localStorage (here w).
Proof.
  destruct w as [[g sc ls net] [fs cm]]. cbv zeta. unfold uploadFile.
  storage_unfold. intros -> -> Hnew. simpl.
  destruct (fs !! path) as [[d s0]|] eqn:Hf; simpl.
  - rewrite lookup_insert_eq. simpl. rewrite Hf. simpl. rewrite Nat.eqb_refl. simpl.
    eexists. repeat split; by rewrite ?lookup_insert_eq.
  - rewrite (Hnew eq_refl). simpl. rewrite Hf. simpl.
    eexists. repeat split; by rewrite ?lookup_insert_eq.
Qed.

Lemma uploadFile_replaces_the_file_witness :
  fst (uploadFile "dwoloszin" "PricePilot" "main" "images/milk.png" NotJson ""
         photo_repository)
  = inr "https://raw.githubusercontent.com/dwoloszin/PricePilot/main/images/milk.png"
  /\ commits (there (snd (uploadFile "dwoloszin" "PricePilot" "main" "images/milk.png"
                            NotJson "" photo_repository)))
     = [("images/milk.png", "Add images/milk.png")].
Proof.
  destruct (uploadFile_replaces_the_file "dwoloszin" "PricePilot" "main"
              "images/milk.png" NotJson "" photo_repository)
    as (s & Hrun & _ & _ & Hlog & _).
  - reflexivity.
  - reflexivity.
  - vm_compute. discriminate.
  - split; [exact Hrun | exact Hlog].
Defined.

(** [uploadFile] has no fallback.  It never writes to localStorage;
    without a GitHub configuration it throws before any request, leaving
    everything as it was; and whenever it throws, the repository is as it
    was, the error being its own only when the configuration is missing
    and otherwise that of the write request. *)
Theorem uploadFile_has_no_fallback owner repo branch path file message w :
  let run := uploadFile owner repo branch path file message w in
  localStorage (here (snd run)) = localStorage (here w)
  /\ (github (here w) = false -> run = (inl NotConfigured, w))
  /\ (forall e, fst run = inl e ->
        there (snd run) = there w
        /\ (e = NotConfigured <-> github (here w) = false)).
Proof.
  destruct w as [[g sc ls net] [fs cm]]. cbv zeta. unfold uploadFile.
  storage_unfold. destruct g; simpl.
  - split; [storage_cases; done|]. split; [done|].
    intros e. storage_cases; intros; simplify_eq; (split; [done|]); split; done.
  - split; [done|]. split; [done|]. intros e [= <-]. by split.
Qed.

(** ** The text encoding, further *)

Module CodecEdges.
Import Codec CodecFacts ReadPath.
Local Open Scope Z_scope.
Local Open Scope list_scope.

Lemma unreserved_no_surrogate c :
  unreserved c = true -> is_high c = false /\ is_low c = false.
Proof.
  intros H. apply unreserved_ascii in H as [H _].
  split; apply between_false; lia.
Qed.

(** [encodeURIComponent] throws exactly on the strings with a lone
    surrogate. *)
Lemma encodeURIComponent_None s :
  encodeURIComponent s = None <-> well_formed s = false.
Proof.
  remember (length s) as n eqn:Hn. revert s Hn.
  induction (lt_wf n) as [n _ IH]. intros s ->.
  destruct s as [|c rest]; [done|].
  cbn [encodeURIComponent well_formed].
  assert (Hrest : encodeURIComponent rest = None <-> well_formed rest = false).
  { eapply IH; [|reflexivity]. simpl. lia. }
  destruct (unreserved c) eqn:Hun.
  { apply unreserved_no_surrogate in Hun as [-> ->]. simpl.
    rewrite <- Hrest. by destruct (encodeURIComponent rest). }
  destruct (is_high c) eqn:Hh.
  { destruct rest as [|d rest']; [done|].
    destruct (is_low d); [|done]. simpl.
    assert (Hrest' : encodeURIComponent rest' = None <-> well_formed rest' = false).
    { eapply IH; [|reflexivity]. simpl. lia. }
    rewrite <- Hrest'. by destruct (encodeURIComponent rest'). }
  destruct (is_low c); [done|]. simpl.
  rewrite <- Hrest. by destruct (encodeURIComponent rest).
Qed.

Lemma latin1_well_formed s : forallb (between 0 255) s = true -> well_formed s = true.
Proof.
  induction s as [|c rest IH]; [done|]. cbn [forallb well_formed].
  intros H. apply andb_true_iff in H as [Hc Hrest]. apply between_spec in Hc.
  unfold is_high, is_low. rewrite !between_false by lia. simpl. by apply IH.
Qed.

Lemma btoa_None s : well_formed s = false -> btoa s = None.
Proof.
  intros Hwf. unfold btoa. destruct (forallb (between 0 255) s) eqn:E; [|done].
  apply latin1_well_formed in E. congruence.
Qed.

(** The encoding of the write path succeeds on the strings with no lone
    surrogate, and only on them: there it gives the base64 text of the
    UTF-8 octets of the string, and on a string with a lone surrogate
    [encodeURIComponent] throws and the [btoa] of the fallback throws as
    well, so that the fallback never encodes what the first attempt could
    not. *)
Theorem encode_content_fails_on_lone_surrogates s :
  Forall code_unit s ->
  (well_formed s = true ->
   encode_content s = Some (btoa_octets (flat_map utf8 (code_points s))))
  /\ (well_formed s = false ->
      encodeURIComponent s = None /\ btoa s = None /\ encode_content s = None).
Proof.
  intros Hu. split; intros Hwf.
  - destruct (unescape_encodeURIComponent s Hu Hwf) as (e & He & Hue).
    unfold encode_content. rewrite He. cbn [mbind option_bind]. rewrite Hue.
    by rewrite btoa_octets_ok by by apply utf8_text_octets.
  - pose proof (proj2 (encodeURIComponent_None s) Hwf) as He.
    pose proof (btoa_None s Hwf) as Hb.
    split; [done|]. split; [done|]. unfold encode_content. by rewrite He, Hb.
Qed.

Lemma encode_content_fails_on_lone_surrogates_witness :
  encode_content [91; 0xDC00; 93] = None
  /\ encode_content [91; 233; 93] = Some (btoa_octets [91; 0xC3; 0xA9; 93]).
Proof.
  destruct (encode_content_fails_on_lone_surrogates [91; 0xDC00; 93]) as [_ Hbad].
  { repeat (apply Forall_cons; split; [unfold code_unit; lia|]). apply Forall_nil_2. }
  destruct (encode_content_fails_on_lone_surrogates [91; 233; 93]) as [Hgood _].
  { repeat (apply Forall_cons; split; [unfold code_unit; lia|]). apply Forall_nil_2. }
  split; [apply Hbad; reflexivity | apply Hgood; reflexivity].
Defined.

Lemma utf16_strip_bom s :
  Forall code_unit s -> well_formed s = true ->
  flat_map utf16 (strip_bom (code_points s)) = strip_bom s.
Proof.
  intros Hu Hwf. destruct s as [|c rest]; [done|].
  destruct (Z.eqb_spec c 0xFEFF) as [->|Hne].
  - cbn [well_formed code_points is_high is_low between] in *.
    change (is_high 65279) with false in *. cbn [strip_bom].
    change (65279 =? 65279) with true. cbv iota.
    apply Forall_cons in Hu as [_ Hu].
    apply utf16_code_points; [done|].
    by apply andb_true_iff in Hwf as [_ Hwf].
  - rewrite strip_bom_code_points; [|simpl; congruence|done].
    rewrite utf16_code_points by done.
    cbn [strip_bom]. by destruct (Z.eqb_spec c 0xFEFF).
Qed.

(** What comes back from the repository.  For every string with no lone
    surrogate, the read path decodes what the write path encoded to the
    string itself less one U+FEFF at its start, if it has one; and it
    decodes to the same every text that differs from the encoded one by
    ASCII white space only, such as the line breaks that the repository
    puts into the content it answers. *)
Theorem round_trip_through_wrapped_content s :
  Forall code_unit s -> well_formed s = true ->
  exists content,
    encode_content s = Some content
    /\ decode_content content = Some (strip_bom s)
    /\ forall wrapped,
         List.filter (fun c => negb (ascii_whitespace c)) wrapped = content ->
         decode_content wrapped = Some (strip_bom s).
Proof.
  intros Hu Hwf.
  destruct (unescape_encodeURIComponent s Hu Hwf) as (e & He & Hue).
  pose proof (utf8_text_octets s Hu Hwf) as Hoct.
  exists (btoa_octets (flat_map utf8 (code_points s))).
  assert (Hdec : decode_content (btoa_octets (flat_map utf8 (code_points s)))
                 = Some (strip_bom s)).
  { unfold decode_content. rewrite atob_btoa by done.
    cbn [fmap option_fmap option_map]. f_equal.
    rewrite octets_mod by done. unfold TextDecoder_decode.
    rewrite decode_utf8_all by by apply code_points_scalar.
    by apply utf16_strip_bom. }
  split; [|split; [exact Hdec|]].
  - unfold encode_content. rewrite He. cbn [mbind option_bind].
    rewrite Hue. by rewrite btoa_octets_ok.
  - intros wrapped Hw. rewrite <- Hdec. unfold decode_content, atob.
    rewrite Hw. by rewrite btoa_octets_no_whitespace.
Qed.

(** The text ["é"] after a byte order mark, and its base64 text with two
    line breaks in it. *)
Lemma round_trip_through_wrapped_content_witness :
  exists content,
    encode_content [0xFEFF; 34; 233; 34] = Some content
    /\ decode_content content = Some [34; 233; 34]
    /\ decode_content (take 4 content ++ [10] ++ drop 4 content ++ [10])
       = Some [34; 233; 34].
Proof.
  destruct (round_trip_through_wrapped_content [0xFEFF; 34; 233; 34])
    as (content & Henc & Hdec & Hwrapped).
  - repeat (apply Forall_cons; split; [unfold code_unit; lia|]). apply Forall_nil_2.
  - reflexivity.
  - exists content. split; [exact Henc|]. split; [exact Hdec|].
    apply Hwrapped. vm_compute in Henc. injection Henc as <-. reflexivity.
Defined.

Lemma atob_groups_foreign l c :
  c ∈ l -> b64_val c = None -> atob_groups l = None.
Proof.
  intros Hin Hc. remember (length l) as n eqn:Hn. revert l Hn Hin.
  induction (lt_wf n) as [n _ IH]. intros l -> Hin.
  destruct l as [|x1 [|x2 [|x3 [|x4 rest]]]].
  - by apply elem_of_nil in Hin.
  - done.
  - cbn [atob_groups].
    repeat (apply elem_of_cons in Hin as [<-|Hin]; [rewrite Hc; by repeat case_match|]).
    by apply elem_of_nil in Hin.
  - cbn [atob_groups].
    repeat (apply elem_of_cons in Hin as [<-|Hin]; [rewrite Hc; by repeat case_match|]).
    by apply elem_of_nil in Hin.
  - cbn [atob_groups].
    repeat (apply elem_of_cons in Hin as [<-|Hin]; [rewrite Hc; by repeat case_match|]).
    rewrite (IH (length rest)); [by repeat case_match| |reflexivity|done].
    simpl. lia.
Qed.

Lemma elem_of_rev_list (l : list Z) c : c ∈ rev l <-> c ∈ l.
Proof. rewrite !list_elem_of_In. symmetry. apply in_rev. Qed.

Lemma elem_of_strip_padding l c : c ∈ l -> c <> 61 -> c ∈ strip_padding l.
Proof.
  intros Hin Hc. unfold strip_padding. destruct (_ =? _)%nat; [|done].
  destruct (rev l) as [|x [|y r]] eqn:Hr; [done..|].
  assert (Hrev : c ∈ x :: y :: r) by (rewrite <- Hr; by apply elem_of_rev_list).
  destruct (Z.eqb_spec x 61) as [->|]; [|done].
  apply elem_of_cons in Hrev as [->|Hrev]; [done|].
  destruct (Z.eqb_spec y 61) as [->|].
  - apply elem_of_cons in Hrev as [->|Hrev]; [done|]. by apply elem_of_rev_list.
  - change (c ∈ rev (y :: r)). by apply elem_of_rev_list.
Qed.

(** The second attempt never answers.  Whatever [decodeURIComponent]
    does, the decoded content is what the first attempt gives, and it is
    [null] exactly when [atob] throws, since the second attempt starts
    with the same [atob]; so a content with one character that is neither
    of the base64 alphabet, nor ['='], nor ASCII white space is decoded to
    [null], which getStorage reads as the empty collection. *)
Theorem second_attempt_never_answers decodeURIComponent content :
  decodedContent decodeURIComponent content = decode_content content
  /\ (decodedContent decodeURIComponent content = None <-> atob content = None)
  /\ (forall c, c ∈ content -> foreign c = true ->
        decodedContent decodeURIComponent content = None).
Proof.
  assert (H1 : decodedContent decodeURIComponent content = decode_content content).
  { unfold decodedContent, decode_content. by destruct (atob content). }
  assert (H2 : decode_content content = None <-> atob content = None).
  { unfold decode_content. by destruct (atob content). }
  split; [exact H1|]. split; [by rewrite H1|].
  intros c Hin Hc. rewrite H1. apply H2. unfold foreign in Hc.
  apply andb_true_iff in Hc as [Hc Hval]. apply andb_true_iff in Hc as [Hws Hpad].
  apply bool_decide_eq_true in Hval. apply negb_true_iff, Z.eqb_neq in Hpad.
  unfold atob. apply atob_groups_foreign with c; [|done].
  apply elem_of_strip_padding; [|done].
  apply list_elem_of_In, filter_In. split; [by apply list_elem_of_In | done].
Qed.

End CodecEdges.
